(** * emvscode-web: the shadow-branch synchroniser and the verification job client

  A shallow embedding of the TypeScript sources
    - [calculateProgress.ts]              (module [CalculateProgress]),
    - the [fetchData] helper              (module [ApiService]),
    - [autoCommit.ts]                     (module [AutoCommit]),
    - [mizarFunctions.ts]                 (module [MizarFunctions]),
    - the entry point with [activate]     (module [Extension]),
    - [linter.ts] and the formatter command, up to their request to the
      job server                          (modules [Linter], [Formatter]),
  followed by the properties established about them.

  JavaScript numbers that only ever hold integers are modelled as [Z],
  strings as [string], arrays as [list].  A promise that is awaited is
  run in place; a promise that the source does not await is run for its
  requests and its outcome is dropped. *)

From Stdlib Require Import ZArith PArith List String Ascii Bool Lia DecimalString.
Import ListNotations.

Local Open Scope string_scope.
Local Open Scope Z_scope.

(* ===================================================================== *)
(** ** JavaScript string primitives used by the sources *)
(* ===================================================================== *)

Module JsString.

(** [str.length] *)
Definition length (s : string) : Z := Z.of_nat (String.length s).

Fixpoint drop (n : nat) (s : string) : string :=
  match n, s with
  | O, _ => s
  | S _, EmptyString => EmptyString
  | S n', String _ rest => drop n' rest
  end.

Fixpoint take (n : nat) (s : string) : string :=
  match n, s with
  | O, _ => EmptyString
  | S _, EmptyString => EmptyString
  | S n', String c rest => String c (take n' rest)
  end.

(** [str.indexOf(sub)]: index of the first occurrence, or -1. *)
Fixpoint indexOf (s sub : string) : Z :=
  if String.prefix sub s then 0
  else match s with
       | EmptyString => -1
       | String _ rest =>
           let i := indexOf rest sub in
           if i <? 0 then -1 else i + 1
       end.

(** [str.includes(sub)] *)
Definition includes (s sub : string) : bool := 0 <=? indexOf s sub.

(** [str.substring(start)]: a negative start counts as 0. *)
Definition substring (s : string) (start : Z) : string :=
  drop (Z.to_nat (Z.max 0 start)) s.

(** [str.replace(pattern, replacement)] with a string pattern: only the
    first occurrence is replaced. *)
Definition replace (s pattern replacement : string) : string :=
  let i := indexOf s pattern in
  if i <? 0 then s
  else take (Z.to_nat i) s ++ replacement
       ++ drop (Z.to_nat i + String.length pattern) s.

Fixpoint splitAll (sep : ascii) (s : string) : list string :=
  match s with
  | EmptyString => [EmptyString]
  | String c rest =>
      if Ascii.eqb c sep then EmptyString :: splitAll sep rest
      else match splitAll sep rest with
           | piece :: pieces => String c piece :: pieces
           | [] => [String c EmptyString]
           end
  end.

(** [str.split(sep, limit)] for a one-character separator. *)
Definition split (s : string) (sep : ascii) (limit : nat) : list string :=
  firstn limit (splitAll sep s).

(** ['c'.repeat(n)] for a natural count. *)
Fixpoint replicate (n : nat) (c : ascii) : string :=
  match n with
  | O => EmptyString
  | S n' => String c (replicate n' c)
  end.

End JsString.

(* ===================================================================== *)
(** ** Control flow of the JavaScript bodies: state and exceptions *)
(* ===================================================================== *)

Module Js.

(** What a rejected promise or a [throw] carries.  Of an error the
    sources only ever inspect [error.status]. *)
Inductive Exn :=
| HttpError (status : Z)
| JsError (name : string).

Definition status (e : Exn) : option Z :=
  match e with
  | HttpError s => Some s
  | JsError _ => None
  end.

(** [error.status === code] *)
Definition hasStatus (e : Exn) (code : Z) : bool :=
  match status e with
  | Some s => s =? code
  | None => false
  end.

(** A body running over a state [S]: it changes the state and either
    returns or throws.  What it did before throwing stays done. *)
Definition Eff (S A : Type) : Type := S -> (Exn + A) * S.

Definition ret {S A} (a : A) : Eff S A := fun s => (inr a, s).

Definition throw {S A} (e : Exn) : Eff S A := fun s => (inl e, s).

Definition bind {S A B} (m : Eff S A) (k : A -> Eff S B) : Eff S B :=
  fun s =>
    match m s with
    | (inr a, s') => k a s'
    | (inl e, s') => (inl e, s')
    end.

(** [try { m } catch (error) { handler }] *)
Definition try_catch {S A} (m : Eff S A) (handler : Exn -> Eff S A) : Eff S A :=
  fun s =>
    match m s with
    | (inr a, s') => (inr a, s')
    | (inl e, s') => handler e s'
    end.

(** A state update that cannot fail. *)
Definition effect {S} (f : S -> S) : Eff S unit := fun s => (inr tt, f s).

(** Reading the state. *)
Definition read {S A} (f : S -> A) : Eff S A := fun s => (inr (f s), s).

(** A value that may have been thrown instead. *)
Definition lift {S A} (r : Exn + A) : Eff S A := fun s => (r, s).

Declare Scope eff_scope.
Delimit Scope eff_scope with eff.
Notation "x <- m ;; k" := (bind m (fun x => k))
  (at level 61, m at next level, right associativity) : eff_scope.
Notation "m ;; k" := (bind m (fun _ => k))
  (at level 61, right associativity) : eff_scope.

(** [Steps R m]: whatever [m] returns or throws, the state it leaves is
    related by [R] to the state it started from. *)
Definition Steps {S A} (R : S -> S -> Prop) (m : Eff S A) : Prop :=
  forall s, R s (snd (m s)).

(** [Respects E m]: started from two states related by [E], [m] returns
    or throws the same thing and leaves two states related by [E]. *)
Definition Respects {S A} (E : S -> S -> Prop) (m : Eff S A) : Prop :=
  forall a b, E a b -> fst (m a) = fst (m b) /\ E (snd (m a)) (snd (m b)).

(** ['#'.repeat(count)]: a negative count is a [RangeError]. *)
Definition repeat (c : ascii) (count : Z) : Exn + string :=
  if count <? 0 then inl (JsError "RangeError")
  else inr (JsString.replicate (Z.to_nat count) c).

End Js.

(* ===================================================================== *)
(** ** calculateProgress.ts *)
(* ===================================================================== *)

Module CalculateProgress.

(** [export const MAX_OUTPUT = 50;] *)
Definition MAX_OUTPUT : Z := 50.

(** [calculateProgressDiff(progressPercent, numberOfProgress)].
    [Math.floor(x / 100)] on integers is [Z.div] (rounding towards minus
    infinity). *)
Definition calculateProgressDiff (progressPercent numberOfProgress : Z) : Z :=
  let progressDiff :=
    (MAX_OUTPUT * progressPercent) / 100 - numberOfProgress in
  if numberOfProgress + progressDiff >? MAX_OUTPUT
  then MAX_OUTPUT - numberOfProgress
  else progressDiff.

End CalculateProgress.

(* ===================================================================== *)
(** ** The git-hosting REST surface reached through Octokit *)
(* ===================================================================== *)

Module GitHub.

Import Js.

(** One element of the [tree] array of a create-tree request
    ([interface Tree] of autoCommit.ts; the source always fills these
    four fields). *)
Record Tree := {
  tree_type : string;
  tree_path : string;
  tree_mode : string;
  tree_sha : string;
}.

(** The requests autoCommit.ts issues, with the parameters it passes. *)
Inductive Call :=
| ReposGet (owner repo : string)
| ListBranches (owner repo : string)
| GetRef (owner repo ref : string)
| CreateRef (owner repo ref sha : string)
| GetContent (owner repo path ref : string)
| CreateBlob (owner repo content : string)
| GetBranch (owner repo branch : string)
| CreateTree (owner repo : string) (tree : list Tree) (base_tree : string)
| CreateCommit (owner repo message tree : string) (parents : list string)
| UpdateRef (owner repo ref sha : string)
| GetBlob (owner repo file_sha : string)
| DeleteFile (owner repo path message sha branch : string).

(** An entry of a get-content answer: [type], base64 [content] (absent
    in directory listings) and [sha]. *)
Record ContentFile := {
  file_type : string;
  file_content : option string;
  file_sha : string;
}.

(** [existingFile.data] is either an array or a single object. *)
Inductive ContentData :=
| Listing (entries : list ContentFile)
| Single (file : ContentFile).

(** The part of each answer the source reads. *)
Definition Response (c : Call) : Type :=
  match c with
  | ReposGet _ _ => string                  (* data.default_branch *)
  | ListBranches _ _ => list string         (* data[i].name *)
  | GetRef _ _ _ => string                  (* data.object.sha *)
  | CreateRef _ _ _ _ => unit
  | GetContent _ _ _ _ => ContentData       (* data *)
  | CreateBlob _ _ _ => string              (* data.sha *)
  | GetBranch _ _ _ => string               (* data.commit.sha *)
  | CreateTree _ _ _ _ => string            (* data.sha *)
  | CreateCommit _ _ _ _ _ => string        (* data.sha *)
  | UpdateRef _ _ _ _ => unit
  | GetBlob _ _ _ => string                 (* data.sha *)
  | DeleteFile _ _ _ _ _ _ => unit
  end.

(** The remote side: given the requests issued so far it answers the
    next one, or rejects it.  The answer may depend on the history, so
    concurrent writers and transient failures are covered. *)
Definition Octokit : Type :=
  forall (history : list Call) (c : Call), Exn + Response c.

Definition isCreateBlob (c : Call) : bool :=
  match c with CreateBlob _ _ _ => true | _ => false end.
Definition isCreateCommit (c : Call) : bool :=
  match c with CreateCommit _ _ _ _ _ => true | _ => false end.

(** The [tree] arrays of the create-tree requests in a log. *)
Fixpoint createdTrees (log : list Call) : list (list Tree) :=
  match log with
  | [] => []
  | CreateTree _ _ tree _ :: rest => tree :: createdTrees rest
  | _ :: rest => createdTrees rest
  end.

End GitHub.

(* ===================================================================== *)
(** ** The editor host and the job server, as seen by the extension *)
(* ===================================================================== *)

Module Vscode.

Import Js GitHub.

Record Uri := {
  scheme : string;
  authority : string;
  path : string;
  fsPath : string;
}.

(** [vscode.window.showInformationMessage] / [showErrorMessage]; an
    error message built as [text + error] keeps the error apart. *)
Inductive Message :=
| InformationMessage (text : string)
| ErrorMessage (text : string) (error : option Exn).

(** The calls made on the output channel. *)
Inductive ChannelOp :=
| Append (value : string)
| AppendLine (value : string)
| Replace (value : string)
| Clear
| Show.

(** A request sent through [fetchData(endpoint, options)]. *)
Record Fetch := {
  fetch_method : string;
  fetch_endpoint : string;
  fetch_body : list (string * string);
}.

Record Diagnostic := {
  diag_line : Z;
  diag_character : Z;
  diag_message : string;
}.

(** Everything the extension can change outside its own variables. *)
Record Host := {
  messages : list Message;
  channel : list ChannelOp;
  diagnostics : list (string * list Diagnostic);
  changedFilePaths : option (list string);
  github : list Call;
  server : list Fetch;
}.

Definition set_messages (v : list Message) (h : Host) : Host :=
  {| messages := v; channel := channel h; diagnostics := diagnostics h;
     changedFilePaths := changedFilePaths h; github := github h;
     server := server h |}.
Definition set_channel (v : list ChannelOp) (h : Host) : Host :=
  {| messages := messages h; channel := v; diagnostics := diagnostics h;
     changedFilePaths := changedFilePaths h; github := github h;
     server := server h |}.
Definition set_diagnostics (v : list (string * list Diagnostic)) (h : Host) : Host :=
  {| messages := messages h; channel := channel h; diagnostics := v;
     changedFilePaths := changedFilePaths h; github := github h;
     server := server h |}.
Definition set_changedFilePaths (v : option (list string)) (h : Host) : Host :=
  {| messages := messages h; channel := channel h; diagnostics := diagnostics h;
     changedFilePaths := v; github := github h; server := server h |}.
Definition set_github (v : list Call) (h : Host) : Host :=
  {| messages := messages h; channel := channel h; diagnostics := diagnostics h;
     changedFilePaths := changedFilePaths h; github := v; server := server h |}.
Definition set_server (v : list Fetch) (h : Host) : Host :=
  {| messages := messages h; channel := channel h; diagnostics := diagnostics h;
     changedFilePaths := changedFilePaths h; github := github h; server := v |}.

Definition showInformationMessage (text : string) (h : Host) : Host :=
  set_messages (messages h ++ [InformationMessage text]) h.
Definition showErrorMessage (text : string) (error : option Exn) (h : Host) : Host :=
  set_messages (messages h ++ [ErrorMessage text error]) h.
Definition channel_do (op : ChannelOp) (h : Host) : Host :=
  set_channel (channel h ++ [op]) h.

(** The request log has only grown. *)
Definition extends (h h' : Host) : Prop :=
  exists requests, github h' = (github h ++ requests)%list.

(** The stored change set is the same. *)
Definition keepsChanges (h h' : Host) : Prop :=
  changedFilePaths h' = changedFilePaths h.

(** A host on which nothing has happened yet. *)
Definition fresh (stored : option (list string)) : Host :=
  {| messages := []; channel := []; diagnostics := [];
     changedFilePaths := stored; github := []; server := [] |}.

(** The parts of the platform the sources call but do not define:
    - [atob b64] is the binary string a base64 text stands for, and
      [utf8Decode bytes] is [new TextDecoder('utf-8').decode(bytes)];
    - [relative], [basename] and [extname] are those of [path],
      [joinPath] is [vscode.Uri.joinPath], [uriToString] is [String(uri)];
    - [openTextDocument uri] is the text of the document, or [None]
      when [vscode.workspace.openTextDocument] rejects;
    - [mementoIsLive] tells whether [globalState.get] hands out the
      stored array itself, so that a [push] on it is seen by later
      [get]s, or a copy. *)
Record Platform := {
  atob : string -> string;
  utf8Decode : list Z -> string;
  relative : string -> string -> string;
  basename : string -> string;
  extname : string -> string;
  joinPath : Uri -> string -> Uri;
  uriToString : Uri -> string;
  openTextDocument : Uri -> option string;
  mementoIsLive : bool;
}.

End Vscode.

(* ===================================================================== *)
(** ** The [fetchData] helper of the job server *)
(* ===================================================================== *)

Module ApiService.

Import Js Vscode.

(** [fetchData(endpoint, options)] up to its [await fetch(url, options)]:
    the request is on its way. *)
Definition fetchData (method endpoint : string) (body : list (string * string))
    (h : Host) : Host :=
  set_server
    (server h ++ [{| fetch_method := method; fetch_endpoint := endpoint;
                     fetch_body := body |}]) h.

(** The rest of [fetchData], once the request has settled: the parsed
    answer is returned; a failure (of the network, or a response that is
    not ok) is shown and thrown again. *)
Definition settled {A} (answer : Exn + A) (h : Host) : Host :=
  match answer with
  | inr _ => h
  | inl error => showErrorMessage "Error fetching data:" (Some error) h
  end.

End ApiService.

(* ===================================================================== *)
(** ** autoCommit.ts *)
(* ===================================================================== *)

Module AutoCommit.

Import GitHub Vscode Js.
Local Open Scope eff_scope.

(** An [async] body over the host. *)
Definition Async (A : Type) : Type := Eff Host A.

(** A promise nobody awaits.  Converting it to a string, as a template
    literal does, gives ["[object Promise]"]. *)
Inductive Promise (A : Type) : Type := pending.
Arguments pending {A}.

Definition toString {A} (p : Promise A) : string := "[object Promise]".

(** Calling an [async] function without [await]: its requests go out,
    and whether it fulfils or rejects is seen by nobody. *)
Definition unawaited {A} (m : Async A) : Async (Promise A) :=
  fun h => (inr pending, snd (m h)).

(** [const commitMessage = 'Commit with GitHub API';] *)
Definition commitMessage : string := "Commit with GitHub API".

Definition branch : string := "verifier".

Section WithOctokit.

Variable octokit : Octokit.
Variable platform : Platform.

(** [await octokit....(params)]: the request joins the log and the remote
    side answers it knowing the requests before it. *)
Definition request (c : Call) : Async (Response c) :=
  fun h => (octokit (github h) c, set_github (github h ++ [c])%list h).

(** [async function getDefaultBranch(octokit, owner, repo)] *)
Definition getDefaultBranch (owner repo : string) : Async string :=
  try_catch
    (default_branch <- request (ReposGet owner repo) ;;
     ret default_branch)
    (fun error => throw error).

(** [async function ensureBranchExists(octokit, owner, repo)].
    [getDefaultBranch] is called without [await], so [baseBranch] is a
    promise and [`heads/${baseBranch}`] interpolates that promise. *)
Definition ensureBranchExists (owner repo : string) : Async unit :=
  try_catch
    (existingBranches <- request (ListBranches owner repo) ;;
     let branchExists :=
       existsb (fun name => String.eqb name branch) existingBranches in
     if negb branchExists then
       baseBranch <- unawaited (getDefaultBranch owner repo) ;;
       baseBranchRef <- request (GetRef owner repo ("heads/" ++ toString baseBranch)) ;;
       request (CreateRef owner repo ("refs/heads/" ++ branch) baseBranchRef)
     else ret tt)
    (fun error => throw error).

(** [function base64ToArrayBuffer(base64)]: the char codes of
    [atob(base64)], one byte each. *)
Definition base64ToArrayBuffer (base64 : string) : list Z :=
  let binaryString := atob platform base64 in
  map (fun c => Z.of_nat (nat_of_ascii c)) (list_ascii_of_string binaryString).

(** [new TextDecoder('utf-8').decode(base64ToArrayBuffer(file.content || ''))] *)
Definition decodeContent (file : ContentFile) : string :=
  utf8Decode platform
    (base64ToArrayBuffer
       (match file_content file with Some c => c | None => "" end)).

(** [let content = ''; if (Array.isArray(existingFile.data)) { ... } else
    { ... }]: the text compared with the local document.  It is the
    decoded content of the answer when it is a file (for a listing, of
    its first entry of type file) and stays empty otherwise. *)
Definition remoteContent (data : ContentData) : string :=
  match data with
  | Listing entries =>
      match find (fun f => String.eqb (file_type f) "file") entries with
      | Some file => decodeContent file
      | None => ""
      end
  | Single file =>
      if String.eqb (file_type file) "file" then decodeContent file else ""
  end.

(** [{type: 'blob', path: repoFilePath, mode: '100644', sha: createdBlob.sha}] *)
Definition blobEntry (repoFilePath sha : string) : Tree :=
  {| tree_type := "blob"; tree_path := repoFilePath;
     tree_mode := "100644"; tree_sha := sha |}.

(** The repository-relative path:
    [p.substring(p.indexOf(`${repo}/`)).replace(`${repo}/`, '')]. *)
Definition repoFilePathOf (repo filePath : string) : string :=
  JsString.replace
    (JsString.substring filePath (JsString.indexOf filePath (repo ++ "/")))
    (repo ++ "/") "".

(** [vscode.window.showErrorMessage('Failed to commit changes. Error: ' + error)] *)
Definition failed (error : Exn) (h : Host) : Host :=
  showErrorMessage "Failed to commit changes. Error: " (Some error) h.

Definition failedToCommit (error : Exn) : Async unit := effect (failed error).

(** [async function commitDeletions(octokit, owner, repo, deletedFilePaths)].
    [octokit.rest.repos.deleteFile] is called without [await]. *)
Fixpoint commitDeletions (owner repo : string) (deletedFilePaths : list string)
  : Async unit :=
  match deletedFilePaths with
  | [] => ret tt
  | deletedFilePath :: rest =>
      try_catch
        (existingFile <- request (GetContent owner repo deletedFilePath branch) ;;
         let file_sha :=
           match existingFile with
           | Listing entries =>
               fold_left (fun _ file => GitHub.file_sha file) entries ""
           | Single file =>
               if String.eqb (file_type file) "file"
               then GitHub.file_sha file else ""
           end in
         blob <- request (GetBlob owner repo file_sha) ;;
         unawaited
           (request (DeleteFile owner repo deletedFilePath commitMessage blob branch)) ;;
         ret tt)
        (fun error => throw error) ;;
      commitDeletions owner repo rest
  end.

(** The body of the callback given to [openTextDocument(...).then] in
    [commitChanges]: diff one document against the branch and, when it
    differs or is new, create its blob and push its entry on [treeList].
    Returns the new [treeList]. *)
Definition diffDocument (owner repo repoFilePath documentText : string)
    (treeList : list Tree) : Async (list Tree) :=
  try_catch
    (existingFile <- request (GetContent owner repo repoFilePath branch) ;;
     let content := remoteContent existingFile in
     if negb (String.eqb content documentText) then
       createdBlob <- request (CreateBlob owner repo documentText) ;;
       ret (treeList ++ [blobEntry repoFilePath createdBlob])%list
     else ret treeList)
    (fun error =>
       if hasStatus error 404 then
         createdBlob <- request (CreateBlob owner repo documentText) ;;
         ret (treeList ++ [blobEntry repoFilePath createdBlob])%list
       else
         failedToCommit error ;;
         ret treeList).

(** The document the loop opens for a changed path:
    [Uri.joinPath(documentUri, path.relative(documentUri.path, changedFilePath))]. *)
Definition resourceUri (documentUri : Uri) (changedFilePath : string) : Uri :=
  joinPath platform documentUri
    (relative platform (path documentUri) changedFilePath).

(** [for (const changedFilePath of changedFilePaths) { ... }] of
    [commitChanges], threading the two arrays it fills. *)
Fixpoint diffChangedFiles (documentUri : Uri) (repositoryPath owner repo : string)
    (changedFilePaths : list string)
    (treeList : list Tree) (deletedFilePaths : list string)
  : Async (list Tree * list string) :=
  match changedFilePaths with
  | [] => ret (treeList, deletedFilePaths)
  | changedFilePath :: rest =>
      if JsString.includes changedFilePath repositoryPath then
        let repoFilePath := repoFilePathOf repo changedFilePath in
        match openTextDocument platform (resourceUri documentUri changedFilePath) with
        | Some documentText =>
            treeList' <- diffDocument owner repo repoFilePath documentText treeList ;;
            diffChangedFiles documentUri repositoryPath owner repo rest
              treeList' deletedFilePaths
        | None =>
            diffChangedFiles documentUri repositoryPath owner repo rest
              treeList (deletedFilePaths ++ [repoFilePath])%list
        end
      else
        diffChangedFiles documentUri repositoryPath owner repo rest
          treeList deletedFilePaths
  end.

(** Tree, commit and fast-forward of the branch, shared by both commit
    functions. *)
Definition pushCommit (owner repo : string) (treeList : list Tree)
    (latestCommit : string) : Async unit :=
  createdTree <- request (CreateTree owner repo treeList latestCommit) ;;
  createdCommit <-
    request (CreateCommit owner repo commitMessage createdTree [latestCommit]) ;;
  request (UpdateRef owner repo ("heads/" ++ branch) createdCommit).

(** The end of [commitChanges] run on a host, once the latest commit of
    the branch is known: what is returned or thrown to the caller, and
    the host it leaves. *)
Definition finish (owner repo : string) (treeList : list Tree)
    (deleted : list string) (latest : string) (h : Host) : (Exn + unit) * Host :=
  if (0 <? Z.of_nat (List.length treeList)) then
    match pushCommit owner repo treeList latest h with
    | (inr _, h') =>
        (inr tt,
         set_changedFilePaths (Some [])
           (showInformationMessage "Committed modified files." h'))
    | (inl e, h') => (inl e, failed e h')
    end
  else if (0 <? Z.of_nat (List.length deleted)) then
    (inr tt,
     set_changedFilePaths (Some [])
       (snd (commitDeletions owner repo deleted h)))
  else
    (inr tt,
     set_changedFilePaths (Some [])
       (showInformationMessage "No changes to commit." h)).

(** The remote side gives the same answer to a request whenever it is
    asked. *)
Definition Always (c : Call) (r : Exn + Response c) : Prop :=
  forall history, octokit history c = r.

End WithOctokit.

Section WithHosting.

(** [new Octokit({auth: OAuthToken, request: {cache: 'no-store'}})]: the
    remote side as it answers the bearer of a token. *)
Variable newOctokit : string -> Octokit.
Variable platform : Platform.

(** [export async function commitChanges(globalState, documentUri,
    OAuthToken, repositoryPath)]. *)
Definition commitChanges (documentUri : Uri) (OAuthToken repositoryPath : string)
  : Async unit :=
  let octokit := newOctokit OAuthToken in
  let repositoryInfo := JsString.split repositoryPath "/" 3 in
  let owner := nth 1 repositoryInfo "" in
  let repo := nth 2 repositoryInfo "" in
  fun h =>
    let stored := changedFilePaths h in
    let changedFilePaths := match stored with Some l => l | None => [] end in
    try_catch
      (if (0 <? Z.of_nat (List.length changedFilePaths)) then
         let iniFilePath := repositoryPath ++ "/mml.ini" in
         let changedFilePaths := (changedFilePaths ++ [iniFilePath])%list in
         effect (fun h =>
                   if mementoIsLive platform
                   then set_changedFilePaths (Some changedFilePaths) h
                   else h) ;;
         ensureBranchExists octokit owner repo ;;
         lists <- diffChangedFiles octokit platform documentUri repositoryPath
                    owner repo changedFilePaths [] [] ;;
         let treeList := fst lists in
         let deletedFilePaths := snd lists in
         latestCommit <- request octokit (GetBranch owner repo branch) ;;
         (if (0 <? Z.of_nat (List.length treeList)) then
            pushCommit octokit owner repo treeList latestCommit ;;
            effect (showInformationMessage "Committed modified files.")
          else if (0 <? Z.of_nat (List.length deletedFilePaths)) then
            unawaited (commitDeletions octokit owner repo deletedFilePaths) ;;
            ret tt
          else
            effect (showInformationMessage "No changes to commit.")) ;;
         effect (set_changedFilePaths (Some []))
       else ret tt)
      (fun error =>
         failedToCommit error ;;
         throw error)
      h.

(** [export async function commitActiveFile(uri, documentText, OAuthToken,
    repositoryPath)].  [None] from the inner block stands for its early
    [return]. *)
Definition commitActiveFile (uri : Uri) (documentText OAuthToken repositoryPath : string)
  : Async unit :=
  let octokit := newOctokit OAuthToken in
  let repositoryInfo := JsString.split repositoryPath "/" 3 in
  let owner := nth 1 repositoryInfo "" in
  let repo := nth 2 repositoryInfo "" in
  let activeFilePath := path uri in
  let repoFilePath := repoFilePathOf repo activeFilePath in
  try_catch
    (ensureBranchExists octokit owner repo ;;
     latestCommit <- request octokit (GetBranch owner repo branch) ;;
     createdBlob <-
       try_catch
         (existingFile <-
            request octokit (GetContent owner repo repoFilePath branch) ;;
          let content := remoteContent platform existingFile in
          if String.eqb content documentText then ret None
          else
            createdBlob <- request octokit (CreateBlob owner repo documentText) ;;
            ret (Some createdBlob))
         (fun error =>
            if hasStatus error 404 then
              createdBlob <- request octokit (CreateBlob owner repo documentText) ;;
              ret (Some createdBlob)
            else
              failedToCommit error ;;
              throw error) ;;
     match createdBlob with
     | None => ret tt
     | Some sha =>
         pushCommit octokit owner repo [blobEntry repoFilePath sha] latestCommit
     end)
    (fun error =>
       failedToCommit error ;;
       throw error).

End WithHosting.

End AutoCommit.

(* ===================================================================== *)
(** ** mizarFunctions.ts *)
(* ===================================================================== *)

Module MizarFunctions.

Import Js Vscode CalculateProgress ApiService.
Local Open Scope eff_scope.

(** [export const ABSTR = 'abstr';] *)
Definition ABSTR : string := "abstr".

Definition LF : string := String "010"%char EmptyString.

(** Decimal rendering of a number inside a template literal. *)
Definition decimal (n : Z) : string := NilZero.string_of_int (Z.to_int n).

Record ErrorInfo := {
  errorLine : Z;
  errorColumn : Z;
  errorMessage : string;
}.

(** The answer of [GET verifier/{id}]. *)
Record Snapshot := {
  queueNum : Z;
  isMakeenvFinish : bool;
  isMakeenvSuccess : bool;
  makeenvText : string;
  progressPhases : list string;
  progressPercent : Z;
  numOfErrors : Z;
  errorList : list ErrorInfo;
  isVerifierFinish : bool;
  isVerifierSuccess : bool;
}.

(** The promise returned by [mizarVerify]. *)
Inductive Settlement :=
| Pending
| Resolved
| Rejected (reason : Exn).

(** The variables one call of [mizarVerify] closes over. *)
Record Closure := {
  command : string;
  uri : Uri;
  ID : string;
  numberOfProgress : Z;
  trackedPhases : list string;
  currentCommand : string;
  outcome : Settlement;
}.

Definition set_ID (v : string) (c : Closure) : Closure :=
  {| command := command c; uri := uri c; ID := v;
     numberOfProgress := numberOfProgress c; trackedPhases := trackedPhases c;
     currentCommand := currentCommand c; outcome := outcome c |}.
Definition set_numberOfProgress (v : Z) (c : Closure) : Closure :=
  {| command := command c; uri := uri c; ID := ID c;
     numberOfProgress := v; trackedPhases := trackedPhases c;
     currentCommand := currentCommand c; outcome := outcome c |}.
Definition set_trackedPhases (v : list string) (c : Closure) : Closure :=
  {| command := command c; uri := uri c; ID := ID c;
     numberOfProgress := numberOfProgress c; trackedPhases := v;
     currentCommand := currentCommand c; outcome := outcome c |}.
Definition set_currentCommand (v : string) (c : Closure) : Closure :=
  {| command := command c; uri := uri c; ID := ID c;
     numberOfProgress := numberOfProgress c; trackedPhases := trackedPhases c;
     currentCommand := v; outcome := outcome c |}.
Definition set_outcome (v : Settlement) (c : Closure) : Closure :=
  {| command := command c; uri := uri c; ID := ID c;
     numberOfProgress := numberOfProgress c; trackedPhases := trackedPhases c;
     currentCommand := currentCommand c; outcome := v |}.

(** The event loop: armed timers and requests awaiting their answer.
    A timer or request of [mizarVerify] names, by its position in
    [calls], the call whose closure its callback runs in. *)
Record Loop := {
  intervals : list (positive * nat);
  timeouts : list nat;
  nextTimer : positive;
  submissions : list nat;
  polls : list nat;
  cancellations : nat;
}.

Definition set_intervals (v : list (positive * nat)) (l : Loop) : Loop :=
  {| intervals := v; timeouts := timeouts l; nextTimer := nextTimer l;
     submissions := submissions l; polls := polls l;
     cancellations := cancellations l |}.
Definition set_timeouts (v : list nat) (l : Loop) : Loop :=
  {| intervals := intervals l; timeouts := v; nextTimer := nextTimer l;
     submissions := submissions l; polls := polls l;
     cancellations := cancellations l |}.
Definition set_nextTimer (v : positive) (l : Loop) : Loop :=
  {| intervals := intervals l; timeouts := timeouts l; nextTimer := v;
     submissions := submissions l; polls := polls l;
     cancellations := cancellations l |}.
Definition set_submissions (v : list nat) (l : Loop) : Loop :=
  {| intervals := intervals l; timeouts := timeouts l; nextTimer := nextTimer l;
     submissions := v; polls := polls l; cancellations := cancellations l |}.
Definition set_polls (v : list nat) (l : Loop) : Loop :=
  {| intervals := intervals l; timeouts := timeouts l; nextTimer := nextTimer l;
     submissions := submissions l; polls := v; cancellations := cancellations l |}.
Definition set_cancellations (v : nat) (l : Loop) : Loop :=
  {| intervals := intervals l; timeouts := timeouts l; nextTimer := nextTimer l;
     submissions := submissions l; polls := polls l; cancellations := v |}.

(** The state shared by all callbacks: the host, the module variables
    [isExecuting] (of the entry point), [intervalId] and [uuid]
    (of mizarFunctions.ts), the event loop and the closures of the calls
    of [mizarVerify] made so far. *)
Record Runtime := {
  host : Host;
  isExecuting : bool;
  intervalId : option positive;
  uuid : string;
  loop : Loop;
  calls : list Closure;
}.

Definition set_host (v : Host) (r : Runtime) : Runtime :=
  {| host := v; isExecuting := isExecuting r; intervalId := intervalId r;
     uuid := uuid r; loop := loop r; calls := calls r |}.
Definition set_isExecuting (v : bool) (r : Runtime) : Runtime :=
  {| host := host r; isExecuting := v; intervalId := intervalId r;
     uuid := uuid r; loop := loop r; calls := calls r |}.
Definition set_intervalId (v : option positive) (r : Runtime) : Runtime :=
  {| host := host r; isExecuting := isExecuting r; intervalId := v;
     uuid := uuid r; loop := loop r; calls := calls r |}.
Definition set_uuid (v : string) (r : Runtime) : Runtime :=
  {| host := host r; isExecuting := isExecuting r; intervalId := intervalId r;
     uuid := v; loop := loop r; calls := calls r |}.
Definition set_loop (v : Loop) (r : Runtime) : Runtime :=
  {| host := host r; isExecuting := isExecuting r; intervalId := intervalId r;
     uuid := uuid r; loop := v; calls := calls r |}.
Definition set_calls (v : list Closure) (r : Runtime) : Runtime :=
  {| host := host r; isExecuting := isExecuting r; intervalId := intervalId r;
     uuid := uuid r; loop := loop r; calls := v |}.

(** A callback of call number [self] at work: the shared state and its
    own closure. *)
Record Frame := {
  globals : Runtime;
  locals : Closure;
  self : nat;
}.

Definition on_globals (f : Runtime -> Runtime) (fr : Frame) : Frame :=
  {| globals := f (globals fr); locals := locals fr; self := self fr |}.
Definition on_locals (f : Closure -> Closure) (fr : Frame) : Frame :=
  {| globals := globals fr; locals := f (locals fr); self := self fr |}.
Definition on_host (f : Host -> Host) (r : Runtime) : Runtime :=
  set_host (f (host r)) r.
Definition on_loop (f : Loop -> Loop) (r : Runtime) : Runtime :=
  set_loop (f (loop r)) r.

(** [clearInterval(id)] *)
Definition clearInterval (id : positive) (l : Loop) : Loop :=
  set_intervals
    (filter (fun timer => negb (Pos.eqb (fst timer) id)) (intervals l)) l.

(** [setInterval(updateProgress, 1000)] by call [self]; returns the new
    handle through [intervalId], where every use in the source stores it. *)
Definition setInterval (self : nat) (r : Runtime) : Runtime :=
  let id := nextTimer (loop r) in
  set_intervalId (Some id)
    (on_loop (fun l => set_nextTimer (Pos.succ id)
                         (set_intervals (intervals l ++ [(id, self)]) l)) r).

(** [if (intervalId) { clearInterval(intervalId); } intervalId = null;] *)
Definition stopInterval (r : Runtime) : Runtime :=
  set_intervalId None
    (match intervalId r with
     | Some id => on_loop (clearInterval id) r
     | None => r
     end).

(** [setTimeout(() => { intervalId = setInterval(updateProgress, 1000); }, 5000)] *)
Definition setTimeout (self : nat) (r : Runtime) : Runtime :=
  on_loop (fun l => set_timeouts (timeouts l ++ [self]) l) r.

(** [await fetchData(...)] in a callback of [mizarVerify], once the
    request has settled. *)
Definition fetched {A} (answer : Exn + A) : Eff Frame A :=
  effect (on_globals (on_host (ApiService.settled answer))) ;;
  lift answer.

(** [resolve()] and [reject(error)] of the promise of [mizarVerify]; a
    settled promise stays as it is.  The command that awaits the promise
    then runs its [finally { isExecuting = false; }]. *)
Definition settle (result : Settlement) : Eff Frame unit :=
  effect (fun fr =>
    match outcome (locals fr) with
    | Pending =>
        on_globals (set_isExecuting false) (on_locals (set_outcome result) fr)
    | _ => fr
    end).

Definition resolve : Eff Frame unit := settle Resolved.
Definition reject (error : Exn) : Eff Frame unit := settle (Rejected error).

Definition channel_ (op : ChannelOp) : Eff Frame unit :=
  effect (on_globals (on_host (channel_do op))).

(** [setDiagnostics] of displayErrors.ts: the 1-indexed positions become
    0-indexed markers, and [diagnosticCollection.set(uri, diagnostics)]
    replaces, wholesale, the set attached to the document before.  The
    command that moves the focus to the problems view is left out. *)
Definition setDiagnostics (errors : list ErrorInfo) (target : Uri) (h : Host) : Host :=
  let markers :=
    map (fun e => {| diag_line := errorLine e - 1;
                     diag_character := errorColumn e - 1;
                     diag_message := errorMessage e |}) errors in
  set_diagnostics
    ((path target, markers)
       :: filter (fun entry => negb (String.eqb (fst entry) (path target)))
            (diagnostics h)) h.

(** [function padSpace(str, num = 9)] *)
Definition padSpace (str : string) : Exn + string :=
  match repeat " " (9 - JsString.length str) with
  | inr padding => inr (str ++ padding)
  | inl e => inl e
  end.

(** [function addMissingHashTags(channel, numberOfProgress, numberOfErrors)] *)
Definition addMissingHashTags (numberOfProgress numberOfErrors : Z) : Eff Frame unit :=
  if MAX_OUTPUT <? numberOfProgress then ret tt
  else
    appendChunk <- lift (repeat "#" (MAX_OUTPUT - numberOfProgress)) ;;
    channel_ (Append appendChunk) ;;
    (if negb (numberOfErrors =? 0)
     then channel_ (Append (" *" ++ decimal numberOfErrors))
     else ret tt) ;;
    channel_ (AppendLine "").

(** [array[array.length - 1]]: [None] is [undefined]. *)
Definition lastOf (l : list string) : option string :=
  nth_error l (List.length l - 1).

(** [a === b] on values that are a string or [undefined]. *)
Definition sameValue (a b : option string) : bool :=
  match a, b with
  | Some x, Some y => String.eqb x y
  | None, None => true
  | _, _ => false
  end.

(** [const progressDiff = calculateProgressDiff(percent, numberOfProgress);
     channel.append('#'.repeat(progressDiff));
     numberOfProgress += progressDiff;] *)
Definition appendProgress (percent : Z) : Eff Frame unit :=
  emitted <- read (fun fr => numberOfProgress (locals fr)) ;;
  let progressDiff := calculateProgressDiff percent emitted in
  appendChunk <- lift (repeat "#" progressDiff) ;;
  channel_ (Append appendChunk) ;;
  effect (on_locals (set_numberOfProgress (emitted + progressDiff))).

(** [progressPhases.forEach((phase, i) => { ... })], from index [i] on;
    [total] is [progressPhases.length]. *)
Fixpoint forEachPhase (percent : Z) (total : nat) (i : nat) (phases : list string)
  : Eff Frame unit :=
  match phases with
  | [] => ret tt
  | phase :: rest =>
      tracked <- read (fun fr => trackedPhases (locals fr)) ;;
      (if sameValue (Some phase) (nth_error tracked i) then ret tt
       else if Nat.eqb i (total - 1) then
         label <- lift (padSpace phase) ;;
         channel_ (Append (label ++ ":")) ;;
         effect (on_locals (fun c => set_trackedPhases (trackedPhases c ++ [phase]) c)) ;;
         appendProgress percent
       else
         label <- lift (padSpace phase) ;;
         channel_ (Append (label ++ ":")) ;;
         effect (on_locals (fun c => set_trackedPhases (trackedPhases c ++ [phase]) c)) ;;
         appendChunk <- lift (repeat "#" MAX_OUTPUT) ;;
         channel_ (AppendLine appendChunk)) ;;
      forEachPhase percent total (S i) rest
  end.

Definition queueNotice (queued : Z) : string :=
  "Your verification request is in queue. " ++ LF
  ++ "                        There are " ++ decimal queued
  ++ " requests ahead.".

Definition startLine : string :=
  "   Start |----------------------" ++ "--------------------------->| End".

Definition errorMsg : string := LF ++ "**** Some errors detected.".

(** The [.then((json) => { ... })] callback of [updateProgress]. *)
Definition onSnapshot (json : Snapshot) : Eff Frame unit :=
  (if queueNum json >? 0 then
     channel_ (Replace (queueNotice (queueNum json))) ;;
     effect (on_globals stopInterval) ;;
     effect (fun fr => on_globals (setTimeout (self fr)) fr)
   else ret tt) ;;
  current <- read (fun fr => currentCommand (locals fr)) ;;
  (if isMakeenvFinish json && String.eqb current "makeenv" then
     if isMakeenvSuccess json then
       channel_ Clear ;;
       channel_ (AppendLine (makeenvText json)) ;;
       target <- read (fun fr => locals fr) ;;
       channel_ (AppendLine ("Running " ++ command target ++ " on "
                             ++ fsPath (uri target) ++ LF)) ;;
       channel_ (AppendLine startLine) ;;
       effect (on_locals (set_currentCommand "verifier"))
     else
       target <- read (fun fr => uri (locals fr)) ;;
       effect (on_globals (on_host (setDiagnostics (errorList json) target))) ;;
       effect (on_globals stopInterval) ;;
       reject (JsError "makeenv error")
   else ret tt) ;;
  current <- read (fun fr => currentCommand (locals fr)) ;;
  if String.eqb current "verifier" then
    tracked <- read (fun fr => trackedPhases (locals fr)) ;;
    (if sameValue (lastOf tracked) (lastOf (progressPhases json)) then
       appendProgress (progressPercent json)
     else
       (if negb (Nat.eqb (List.length tracked) 0) then
          emitted <- read (fun fr => numberOfProgress (locals fr)) ;;
          addMissingHashTags emitted (numOfErrors json)
        else ret tt) ;;
       effect (on_locals (set_numberOfProgress 0)) ;;
       forEachPhase (progressPercent json)
         (List.length (progressPhases json)) 0 (progressPhases json)) ;;
    (if isVerifierFinish json then
       emitted <- read (fun fr => numberOfProgress (locals fr)) ;;
       addMissingHashTags emitted (numOfErrors json) ;;
       channel_ (AppendLine (LF ++ "End.")) ;;
       (if negb (isVerifierSuccess json) then
          channel_ (AppendLine errorMsg) ;;
          target <- read (fun fr => uri (locals fr)) ;;
          effect (on_globals (on_host (setDiagnostics (errorList json) target)))
        else ret tt) ;;
       effect (on_globals stopInterval) ;;
       resolve
     else ret tt)
  else ret tt.

(** [updateProgress()] up to its request leaving. *)
Definition updateProgress (self : nat) (id : string) (r : Runtime) : Runtime :=
  on_loop (fun l => set_polls (polls l ++ [self]) l)
    (on_host (fetchData "GET" ("verifier/" ++ id) []) r).

(** [updateProgress] once its request has settled:
    [.then(onSnapshot).catch((error) => { ... })]. *)
Definition pollSettled (answer : Exn + Snapshot) : Eff Frame unit :=
  try_catch
    (json <- fetched answer ;;
     onSnapshot json)
    (fun error =>
       effect (on_globals (on_host (showErrorMessage "" (Some error)))) ;;
       effect (on_globals stopInterval) ;;
       reject error).

(** The submission once it has settled: the [.then((json) => { ... })]
    that starts the polling, and the outer [.catch]. *)
Definition submitSettled (answer : Exn + string) : Eff Frame unit :=
  try_catch
    (json_ID <- fetched answer ;;
     effect (on_globals (set_uuid json_ID)) ;;
     effect (on_locals (set_ID json_ID)) ;;
     effect (on_globals stopInterval) ;;
     effect (fun fr => on_globals (setInterval (self fr)) fr) ;;
     effect (fun fr => on_globals (updateProgress (self fr) json_ID) fr))
    (fun error =>
       effect (on_globals (on_host (showErrorMessage "" (Some error)))) ;;
       reject error).

(** [export async function mizarVerify(channel, command, uri,
    diagnosticCollection, repositoryUrl)] up to its request leaving: a
    new closure, and the submission on its way. *)
Definition mizarVerify (platform : Platform) (command : string) (uri : Uri)
    (repositoryUrl : string) (r : Runtime) : Runtime :=
  let fileName := basename platform (uriToString platform uri) in
  let closure :=
    {| command := command; uri := uri; ID := "";
       numberOfProgress := 0; trackedPhases := [];
       currentCommand := "makeenv"; outcome := Pending |} in
  let self := List.length (calls r) in
  on_loop (fun l => set_submissions (submissions l ++ [self]) l)
    (on_host
       (fetchData "POST" "verifier"
          [("fileName", fileName); ("repositoryUrl", repositoryUrl);
           ("command", command)])
       (set_calls (calls r ++ [closure]) r)).

(** Running a callback of call [self]: its closure is taken out of
    [calls] and put back afterwards.  An exception that leaves a callback
    is nobody's to catch. *)
Fixpoint putCall (self : nat) (c : Closure) (l : list Closure) : list Closure :=
  match self, l with
  | _, [] => []
  | O, _ :: rest => c :: rest
  | S n, first :: rest => first :: putCall n c rest
  end.

Definition inCall (self : nat) (callback : Eff Frame unit) (r : Runtime)
  : option Runtime :=
  match nth_error (calls r) self with
  | None => None
  | Some closure =>
      let fr := snd (callback {| globals := r; locals := closure; self := self |}) in
      Some (set_calls (putCall self (locals fr) (calls (globals fr))) (globals fr))
  end.

(** Two states agree on what the callbacks of [mizarVerify] write for
    the user and keep for the job: the output channel, the diagnostics
    and the closures. *)
Definition sameForJobs (r r' : Runtime) : Prop :=
  channel (host r) = channel (host r')
  /\ diagnostics (host r) = diagnostics (host r')
  /\ calls r = calls r'.

(** Two frames of the same call that agree in that way. *)
Definition sameForJob (a b : Frame) : Prop :=
  locals a = locals b
  /\ self a = self b
  /\ sameForJobs (globals a) (globals b).

(** A state update that leaves all of that alone. *)
Definition Quiet (f : Runtime -> Runtime) : Prop :=
  forall r, sameForJobs (f r) r.

(** The markers emitted for the open phase are within the bar. *)
Definition withinBar (c : Closure) : Prop :=
  0 <= numberOfProgress c <= MAX_OUTPUT.

(** A callback leaves the count within the bar if it found it there. *)
Definition barKept (a b : Frame) : Prop :=
  withinBar (locals a) -> withinBar (locals b).

(** A callback does not touch the list of closures. *)
Definition callsKept (a b : Frame) : Prop :=
  calls (globals b) = calls (globals a).

End MizarFunctions.

(* ===================================================================== *)
(** ** The entry point of the extension *)
(* ===================================================================== *)

Module Extension.

Import Js GitHub Vscode MizarFunctions.

(** [const MIZAR_COMMANDS: StrStrDictionary = { ... }] *)
Definition MIZAR_COMMANDS : list (string * string) :=
  [("mizar-verify", "verifier"); ("mizar-irrths", "irrths");
   ("mizar-relinfer", "relinfer"); ("mizar-trivdemo", "trivdemo");
   ("mizar-reliters", "reliters"); ("mizar-relprem", "relprem");
   ("mizar-irrvoc", "irrvoc"); ("mizar-inacc", "inacc");
   ("mizar-chklab", "chklab")].

(** [MIZAR_COMMANDS[cmd]], for the commands that [activate] registers. *)
Fixpoint commandOf (cmd : string) (table : list (string * string)) : option string :=
  match table with
  | [] => None
  | (key, command) :: rest =>
      if String.eqb key cmd then Some command else commandOf cmd rest
  end.

(** The longest prefix without a slash: what [[^/]+] consumes. *)
Fixpoint segment (s : string) : string :=
  match s with
  | EmptyString => EmptyString
  | String c rest =>
      if Ascii.eqb c "/" then EmptyString else String c (segment rest)
  end.

(** One [\/[^/]+] at the start of [s]: the segment and what follows it. *)
Definition slashSegment (s : string) : option (string * string) :=
  match s with
  | String c rest =>
      if Ascii.eqb c "/" then
        let seg := segment rest in
        if String.eqb seg "" then None
        else Some (seg, JsString.drop (String.length seg) rest)
      else None
  | EmptyString => None
  end.

(** [uri.path.match(/^((\/[^/]+){2})/)], giving element [0] of the match. *)
Definition matchRepositoryPath (p : string) : option string :=
  match slashSegment p with
  | Some (first, rest) =>
      match slashSegment rest with
      | Some (second, _) => Some ("/" ++ first ++ "/" ++ second)
      | None => None
      end
  | None => None
  end.

(** ['You have to set "Mizar.OAuthToken" in settings.json.'] *)
Definition tokenMissing : string :=
  let quote := String (ascii_of_nat 34) EmptyString in
  "You have to set " ++ quote ++ "Mizar.OAuthToken" ++ quote
  ++ " in settings.json.".

(** What a command finds when it starts: the active editor's document, if
    any, and the [Mizar.OAuthToken] setting. *)
Record Workbench := {
  activeTextEditor : option Uri;
  OAuthToken : string;
}.

Section WithPlatform.

Variable newOctokit : string -> Octokit.
Variable platform : Platform.

(** The function returned by [returnExecutingFunction(channel,
    diagnosticCollection, globalState, command)], run up to the point
    where it awaits the promise of [mizarVerify].  Its
    [finally { isExecuting = false; }] is run here when [commitChanges]
    throws, and by [MizarFunctions.settle] otherwise. *)
Definition returnExecutingFunction (command : string) (bench : Workbench)
    (r : Runtime) : Runtime :=
  if isExecuting r then
    on_host (showInformationMessage "Another command is already executing.") r
  else
    match activeTextEditor bench with
    | None => on_host (showErrorMessage "Not currently in .miz file!!" None) r
    | Some uri =>
        if negb (String.eqb (extname platform (fsPath uri)) ".miz") then
          on_host (showErrorMessage "Not currently in .miz file!!" None) r
        else
          match matchRepositoryPath (path uri) with
          | None => r
          | Some repositoryPath =>
              let repositoryUrl := "https://github.com" ++ repositoryPath in
              if String.eqb (OAuthToken bench) "" then
                on_host (showErrorMessage tokenMissing None) r
              else
                let r := set_isExecuting true r in
                let r := on_host (channel_do Clear) r in
                let r := on_host (channel_do Show) r in
                let r := on_host (set_diagnostics []) r in
                match AutoCommit.commitChanges newOctokit platform uri
                        (OAuthToken bench) repositoryPath (host r) with
                | (inr _, h) =>
                    mizarVerify platform command uri repositoryUrl (set_host h r)
                | (inl _, h) =>
                    set_isExecuting false (set_host h r)
                end
          end
    end.

(** The callback registered for ['stop-command']. *)
Definition stopCommand (r : Runtime) : Runtime :=
  set_isExecuting false
    match intervalId r with
    | Some id =>
        on_loop (fun l => set_cancellations (S (cancellations l)) l)
          (on_host (ApiService.fetchData "DELETE" ("verifier/" ++ uuid r) [])
             (on_host (showInformationMessage "Command stopped!")
                (on_loop (clearInterval id) r)))
    | None => r
    end.

(** The body shared by the two change listeners:
    [get('changedFilePaths') || []], then [push] and [update] unless the
    path is [include]d already. *)
Definition recordPath (filePath : string) (h : Host) : Host :=
  let changedFilePaths :=
    match changedFilePaths h with Some l => l | None => [] end in
  if existsb (String.eqb filePath) changedFilePaths then h
  else set_changedFilePaths (Some (changedFilePaths ++ [filePath])%list) h.

(** The [onDidChangeTextDocument] listener. *)
Definition onDidChangeTextDocument (changedFilePath : string) (r : Runtime) : Runtime :=
  on_host (recordPath changedFilePath) r.

(** The [onDidDeleteFiles] listener. *)
Definition onDidDeleteFiles (files : list string) (r : Runtime) : Runtime :=
  fold_left (fun r deletedFilePath => on_host (recordPath deletedFilePath) r) files r.

(** What can happen next: the user acts, a timer fires or a request
    settles.  A command is named as it is registered ([mizar-verify],
    ...); pending requests are named by their position in the list of
    the event loop.  A command runs up to its [await mizarVerify(...)]
    in one turn: the requests of [commitChanges] are answered before
    anything else happens. *)
Inductive Event :=
| Command (cmd : string) (bench : Workbench)
| Stop
| DidChangeTextDocument (changedFilePath : string)
| DidDeleteFiles (files : list string)
| SubmitSettled (position : nat) (answer : Exn + string)
| Tick (timer : positive)
| TimeoutElapsed (position : nat)
| PollSettled (position : nat) (answer : Exn + Snapshot)
| CancelSettled (answer : Exn + unit).

Fixpoint removeAt {A} (n : nat) (l : list A) : list A :=
  match n, l with
  | _, [] => []
  | O, _ :: rest => rest
  | S n', x :: rest => x :: removeAt n' rest
  end.

(** One turn of the event loop; [None] when the event cannot happen in
    this state. *)
Definition step (e : Event) (r : Runtime) : option Runtime :=
  match e with
  | Command cmd bench =>
      match commandOf cmd MIZAR_COMMANDS with
      | Some command => Some (returnExecutingFunction command bench r)
      | None => None
      end
  | Stop => Some (stopCommand r)
  | DidChangeTextDocument changedFilePath =>
      Some (onDidChangeTextDocument changedFilePath r)
  | DidDeleteFiles files => Some (onDidDeleteFiles files r)
  | SubmitSettled position answer =>
      match nth_error (submissions (loop r)) position with
      | Some self =>
          inCall self (submitSettled answer)
            (on_loop (fun l => set_submissions (removeAt position (submissions l)) l) r)
      | None => None
      end
  | Tick timer =>
      match find (fun t => Pos.eqb (fst t) timer) (intervals (loop r)) with
      | Some (_, self) =>
          match nth_error (calls r) self with
          | Some closure => Some (updateProgress self (ID closure) r)
          | None => None
          end
      | None => None
      end
  | TimeoutElapsed position =>
      match nth_error (timeouts (loop r)) position with
      | Some self =>
          Some (setInterval self
                  (on_loop (fun l => set_timeouts (removeAt position (timeouts l)) l) r))
      | None => None
      end
  | PollSettled position answer =>
      match nth_error (polls (loop r)) position with
      | Some self =>
          inCall self (pollSettled answer)
            (on_loop (fun l => set_polls (removeAt position (polls l)) l) r)
      | None => None
      end
  | CancelSettled answer =>
      match cancellations (loop r) with
      | S n =>
          Some (on_host (ApiService.settled answer)
                  (on_loop (set_cancellations n) r))
      | O => None
      end
  end.

(** A sequence of events, oldest first. *)
Fixpoint run (events : list Event) (r : Runtime) : option Runtime :=
  match events with
  | [] => Some r
  | e :: rest =>
      match step e r with
      | Some r' => run rest r'
      | None => None
      end
  end.

End WithPlatform.

(** The extension just activated. *)
Definition activated (stored : option (list string)) : Runtime :=
  {| host := channel_do Show (fresh stored);
     isExecuting := false;
     intervalId := None;
     uuid := "";
     loop := {| intervals := []; timeouts := []; nextTimer := 1%positive;
                submissions := []; polls := []; cancellations := 0 |};
     calls := [] |}.

(** The poll requests of call [self] that have not settled yet. *)
Definition pollsInFlight (self : nat) (r : Runtime) : nat :=
  List.length (filter (Nat.eqb self) (polls (loop r))).

End Extension.

(* ===================================================================== *)
(** ** linter.ts *)
(* ===================================================================== *)

Module Linter.

Import Js GitHub Vscode Extension.

Section WithPlatform.

Variable newOctokit : string -> Octokit.
Variable platform : Platform.

(** The function returned by [lintMizar(diagnosticCollection)], up to
    its request to the job server leaving; the callback that consumes
    the answer is not part of this model, and neither is the saving of
    the document.  [documentText] is
    [document.getText()] and [userSettings] is [JSON.stringify] of the
    [Mizar.lint] settings.  A failure of [commitActiveFile] ends in
    [catch (e) { console.log(e); }]. *)
Definition lintMizar (bench : Workbench) (documentText userSettings : string)
    (h : Host) : Host :=
  match activeTextEditor bench with
  | None => showErrorMessage "Not currently in .miz file!!" None h
  | Some uri =>
      match matchRepositoryPath (path uri) with
      | None => h
      | Some repositoryPath =>
          let repositoryUrl := "https://github.com" ++ repositoryPath in
          let fileName := basename platform (uriToString platform uri) in
          let body :=
            [("fileName", fileName); ("repositoryUrl", repositoryUrl);
             ("userSettings", userSettings)] in
          if String.eqb (OAuthToken bench) "" then
            showErrorMessage tokenMissing None h
          else
            let h := set_diagnostics [] h in
            match AutoCommit.commitActiveFile newOctokit platform uri
                    documentText (OAuthToken bench) repositoryPath h with
            | (inr _, h) => ApiService.fetchData "POST" "linter" body h
            | (inl _, h) => h
            end
      end
  end.

End WithPlatform.

End Linter.

(* ===================================================================== *)
(** ** The formatter command *)
(* ===================================================================== *)

Module Formatter.

Import Js GitHub Vscode Extension.

Section WithPlatform.

Variable newOctokit : string -> Octokit.
Variable platform : Platform.

(** [export async function formatMizar()], up to its request to the job
    server leaving; the callback that replaces the text of the editor is
    not part of this model, and neither are the saving of the document
    and the range of its text, which that callback alone uses.
    [userSettings] is [JSON.stringify] of the [Mizar.format] settings.
    A failure of [commitActiveFile] ends in
    [catch (e) { console.log(e); }]. *)
Definition formatMizar (bench : Workbench) (documentText userSettings : string)
    (h : Host) : Host :=
  match activeTextEditor bench with
  | None => showErrorMessage "Not currently in .miz file!!" None h
  | Some uri =>
      match matchRepositoryPath (path uri) with
      | None => h
      | Some repositoryPath =>
          let repositoryUrl := "https://github.com" ++ repositoryPath in
          if String.eqb (OAuthToken bench) "" then
            showErrorMessage tokenMissing None h
          else
            let fileName := basename platform (uriToString platform uri) in
            let body :=
              [("fileName", fileName); ("repositoryUrl", repositoryUrl);
               ("userSettings", userSettings)] in
            match AutoCommit.commitActiveFile newOctokit platform uri
                    documentText (OAuthToken bench) repositoryPath h with
            | (inr _, h) => ApiService.fetchData "POST" "formatter" body h
            | (inl _, h) => h
            end
      end
  end.

End WithPlatform.

End Formatter.

(* ===================================================================== *)
(** ** Notions used to state the properties *)
(* ===================================================================== *)

Module Notions.

Import GitHub Vscode MizarFunctions.

(** A text without a slash. *)
Fixpoint slashFree (s : string) : bool :=
  match s with
  | EmptyString => true
  | String c rest => negb (Ascii.eqb c "/") && slashFree rest
  end.

(** [globalState.get('changedFilePaths') || []] *)
Definition changeSet (h : Host) : list string :=
  match changedFilePaths h with Some l => l | None => [] end.

(** Nothing but the request log has changed. *)
Definition onlyRequests (h h' : Host) : Prop :=
  messages h' = messages h
  /\ channel h' = channel h
  /\ diagnostics h' = diagnostics h
  /\ changedFilePaths h' = changedFilePaths h
  /\ server h' = server h.

(** What belongs to the verification job has not changed: the requests
    to the job server, the output channel and the diagnostics. *)
Definition besidesTheJob (h h' : Host) : Prop :=
  server h' = server h
  /\ channel h' = channel h
  /\ diagnostics h' = diagnostics h.

(** The request log has grown by requests that are all of one kind. *)
Definition adds (K : Call -> Prop) (h h' : Host) : Prop :=
  exists requests, github h' = (github h ++ requests)%list /\ Forall K requests.

(** The repository a request is about. *)
Definition repository (c : Call) : string * string :=
  match c with
  | ReposGet owner repo => (owner, repo)
  | ListBranches owner repo => (owner, repo)
  | GetRef owner repo _ => (owner, repo)
  | CreateRef owner repo _ _ => (owner, repo)
  | GetContent owner repo _ _ => (owner, repo)
  | CreateBlob owner repo _ => (owner, repo)
  | GetBranch owner repo _ => (owner, repo)
  | CreateTree owner repo _ _ => (owner, repo)
  | CreateCommit owner repo _ _ _ => (owner, repo)
  | UpdateRef owner repo _ _ => (owner, repo)
  | GetBlob owner repo _ => (owner, repo)
  | DeleteFile owner repo _ _ _ _ => (owner, repo)
  end.

Definition isCreateTree (c : Call) : bool :=
  match c with CreateTree _ _ _ _ => true | _ => false end.
Definition isDeleteFile (c : Call) : bool :=
  match c with DeleteFile _ _ _ _ _ _ => true | _ => false end.

(** The interval timer [timer] is armed, for the call [self]. *)
Definition armedFor (timer : positive) (self : nat) (r : Runtime) : Prop :=
  In (timer, self) (intervals (loop r)).

(** Timer handles are handed out in increasing order: the armed ones and
    the one in [intervalId] are below the next one. *)
Definition handlesInOrder (r : Runtime) : Prop :=
  (forall t s, In (t, s) (intervals (loop r)) -> (t < nextTimer (loop r))%positive)
  /\ (forall id, intervalId r = Some id -> (id < nextTimer (loop r))%positive).

(** An armed timer that [intervalId] does not name. *)
Definition orphaned (timer : positive) (self : nat) (r : Runtime) : Prop :=
  armedFor timer self r /\ intervalId r <> Some timer.

(** The handles are in order and the timer named, if one is, is
    orphaned. *)
Definition timersAsBefore (named : option (positive * nat)) (r : Runtime) : Prop :=
  handlesInOrder r
  /\ match named with
     | Some (timer, self) => orphaned timer self r
     | None => True
     end.

(** A callback keeps that. *)
Definition timersKept (named : option (positive * nat)) (a b : Frame) : Prop :=
  timersAsBefore named (globals a) -> timersAsBefore named (globals b).

End Notions.

(* ===================================================================== *)
(** ** Concrete repositories, workspaces and answers used in the examples *)
(* ===================================================================== *)

Module Scenario.

Import Js GitHub Vscode MizarFunctions Extension.

(** A document of the repository [/o/r] opened on the web. *)
Definition documentAt (p : string) : Uri :=
  {| scheme := "vscode-vfs"; authority := "github"; path := p; fsPath := p |}.

(** The last piece of a slash-separated path. *)
Definition lastPiece (s : string) : string :=
  last (JsString.splitAll "/" s) EmptyString.

(** The suffix that starts at the last dot, if there is a dot. *)
Fixpoint fromLastDot (s : string) : option string :=
  match s with
  | EmptyString => None
  | String c rest =>
      match fromLastDot rest with
      | Some suffix => Some suffix
      | None => if Ascii.eqb c "." then Some s else None
      end
  end.

Definition extensionOf (p : string) : string :=
  match lastPiece p with
  | EmptyString => EmptyString
  | String _ rest =>
      match fromLastDot rest with Some suffix => suffix | None => EmptyString end
  end.

Fixpoint lookup (key : string) (table : list (string * string)) : option string :=
  match table with
  | [] => None
  | (k, v) :: rest => if String.eqb k key then Some v else lookup key rest
  end.

(** A workspace holding the given files.  A relative path is written as
    the absolute path it resolves to, so that [joinPath] only has to put
    it in place; base64 is decoded at the one encoding the examples
    meet, besides the empty one, and the decoded bytes are ASCII. *)
Definition workspace (files : list (string * string)) (live : bool) : Platform :=
  {| atob := fun b64 => if String.eqb b64 "aGVsbG8=" then "hello" else "";
     utf8Decode := fun bytes =>
       string_of_list_ascii (map (fun b => ascii_of_nat (Z.to_nat b)) bytes);
     relative := fun _ target => target;
     basename := lastPiece;
     extname := extensionOf;
     joinPath := fun base target =>
       {| scheme := scheme base; authority := authority base;
          path := target; fsPath := target |};
     uriToString := fun u => scheme u ++ "://" ++ authority u ++ path u;
     openTextDocument := fun u => lookup (path u) files;
     mementoIsLive := live |}.

Definition fileAnswer (b64 sha : string) : ContentData :=
  Single {| file_type := "file"; file_content := Some b64; file_sha := sha |}.

(** A remote side described by what it holds: its branches, the files of
    the branch [verifier] (path, base64 content), and the requests it
    rejects (with their status).  Everything else succeeds; created
    objects get fixed names. *)
Record Remote := {
  branches : list string;
  files : list (string * string);
  rejects : Call -> option Z;
}.

Definition answer (remote : Remote) (c : Call) : Exn + Response c :=
  match rejects remote c with
  | Some code => inl (HttpError code)
  | None =>
      match c return Exn + Response c with
      | ReposGet _ _ => inr "main"
      | ListBranches _ _ => inr (branches remote)
      | GetRef _ _ ref =>
          if existsb (fun b => String.eqb ("heads/" ++ b) ref) (branches remote)
          then inr "c0" else inl (HttpError 404)
      | CreateRef _ _ _ _ => inr tt
      | GetContent _ _ p _ =>
          match lookup p (files remote) with
          | Some b64 => inr (fileAnswer b64 ("sha-of-" ++ p))
          | None => inl (HttpError 404)
          end
      | CreateBlob _ _ content => inr ("blob-of-" ++ content)
      | GetBranch _ _ _ => inr "c0"
      | CreateTree _ _ _ _ => inr "t1"
      | CreateCommit _ _ _ _ _ => inr "c1"
      | UpdateRef _ _ _ _ => inr tt
      | GetBlob _ _ sha => inr sha
      | DeleteFile _ _ _ _ _ _ => inr tt
      end
  end.

Definition octokitOf (remote : Remote) : Octokit := fun _ c => answer remote c.

(** The hosting service in front of a remote side: it knows one token,
    and rejects every request made with another as unauthorized. *)
Definition hosting (remote : Remote) (token : string) : Octokit :=
  if String.eqb token "token" then octokitOf remote
  else fun _ _ => inl (HttpError 401).

Definition nothingRejected : Call -> option Z := fun _ => None.

(** The repository [o/r] with its default branch only. *)
Definition mainOnly : Remote :=
  {| branches := ["main"]; files := []; rejects := nothingRejected |}.


(** [verifier] exists and holds [a.miz] (the text [hello]) and an empty
    [mml.ini]. *)
Definition synced : Remote :=
  {| branches := ["main"; "verifier"];
     files := [("a.miz", "aGVsbG8="); ("mml.ini", "")];
     rejects := nothingRejected |}.

(** As [synced], but the content of [a.miz] cannot be fetched: the
    request fails with status 500. *)
Definition fetchFails : Remote :=
  {| branches := ["main"; "verifier"];
     files := [("a.miz", "aGVsbG8="); ("mml.ini", "")];
     rejects := fun c =>
       match c with
       | GetContent _ _ "a.miz" _ => Some 500
       | _ => None
       end |}.

(** As [synced], with a file [gone.miz] whose deletion is rejected. *)
Definition deleteFails : Remote :=
  {| branches := ["main"; "verifier"];
     files := [("gone.miz", "aGVsbG8="); ("mml.ini", "")];
     rejects := fun c =>
       match c with
       | DeleteFile _ _ _ _ _ _ => Some 409
       | _ => None
       end |}.

(** [verifier] holds [a.miz] (the text [hello]) and no [mml.ini] yet. *)
Definition withoutIni : Remote :=
  {| branches := ["main"; "verifier"];
     files := [("a.miz", "aGVsbG8=")];
     rejects := nothingRejected |}.

(** The local files: [a.miz] with the text [hello], an empty [mml.ini]. *)
Definition localFiles : list (string * string) :=
  [("/o/r/a.miz", "hello"); ("/o/r/mml.ini", "")].

(** The local files after [mml.ini] has been edited. *)
Definition iniEdited : list (string * string) :=
  [("/o/r/a.miz", "hello"); ("/o/r/mml.ini", "hello")].

(** The active editor shows [/o/r/a.miz] and a token is configured. *)
Definition bench : Workbench :=
  {| activeTextEditor := Some (documentAt "/o/r/a.miz"); OAuthToken := "token" |}.

(** The extension right after the user has run [mizar-verify] on
    [/o/r/a.miz] with nothing to sync: the submission is on its way. *)
Definition started : Runtime :=
  returnExecutingFunction (hosting synced) (workspace localFiles false)
    "verifier" bench (activated None).

(** The job server has accepted the submission as job [J1]: the interval
    timer is armed and the first poll is on its way. *)
Definition polling : Runtime :=
  match step (hosting synced) (workspace localFiles false)
          (SubmitSettled 0 (inr "J1")) started with
  | Some r => r
  | None => started
  end.

(** A snapshot of a job whose environment is ready and whose
    verification has ended with one error. *)
Definition failedSnapshot : Snapshot :=
  {| queueNum := 0;
     isMakeenvFinish := true; isMakeenvSuccess := true;
     makeenvText := "Environment ready";
     progressPhases := ["Parser"]; progressPercent := 100;
     numOfErrors := 1;
     errorList := [{| errorLine := 3; errorColumn := 7;
                      errorMessage := "Unknown label" |}];
     isVerifierFinish := true; isVerifierSuccess := false |}.

(** [polling] after the first poll has been answered with
    [failedSnapshot]. *)
Definition answered : Runtime :=
  match step (hosting synced) (workspace localFiles false)
          (PollSettled 0 (inr failedSnapshot)) polling with
  | Some r => r
  | None => polling
  end.

(** A snapshot of a job that is in its first phase, at the given
    percentage. *)
Definition parsing (percent : Z) : Snapshot :=
  {| queueNum := 0;
     isMakeenvFinish := true; isMakeenvSuccess := true;
     makeenvText := "Environment ready";
     progressPhases := ["Parser"]; progressPercent := percent;
     numOfErrors := 0; errorList := [];
     isVerifierFinish := false; isVerifierSuccess := false |}.

(** As [deleteFails], with nothing rejected. *)
Definition deletable : Remote :=
  {| branches := ["main"; "verifier"];
     files := [("gone.miz", "aGVsbG8="); ("mml.ini", "")];
     rejects := nothingRejected |}.

(** The closure of the job of [started]. *)
Definition job (id : string) : Closure :=
  {| command := "verifier"; uri := documentAt "/o/r/a.miz"; ID := id;
     numberOfProgress := 0; trackedPhases := [];
     currentCommand := "makeenv"; outcome := Pending |}.

(** A snapshot of a job that waits in the queue behind two others. *)
Definition queued : Snapshot :=
  {| queueNum := 2;
     isMakeenvFinish := false; isMakeenvSuccess := false;
     makeenvText := "";
     progressPhases := []; progressPercent := 0;
     numOfErrors := 0; errorList := [];
     isVerifierFinish := false; isVerifierSuccess := false |}.

(** A snapshot of a job whose environment could not be made. *)
Definition brokenEnvironment : Snapshot :=
  {| queueNum := 0;
     isMakeenvFinish := true; isMakeenvSuccess := false;
     makeenvText := "";
     progressPhases := []; progressPercent := 0;
     numOfErrors := 1;
     errorList := [{| errorLine := 1; errorColumn := 1;
                      errorMessage := "Unknown vocabulary" |}];
     isVerifierFinish := false; isVerifierSuccess := false |}.

(** [polling] after the first poll has been answered with [queued]: the
    timer is cleared and the timeout of the back-off is pending. *)
Definition waiting : Runtime :=
  match step (hosting synced) (workspace localFiles false)
          (PollSettled 0 (inr queued)) polling with
  | Some r => r
  | None => polling
  end.

(** The timer ticks before the first poll is answered, both polls are
    answered with [queued], and both timeouts elapse. *)
Definition twoBackOffs : list Event :=
  [Command "mizar-verify" bench; SubmitSettled 0 (inr "J1"); Tick 1%positive;
   PollSettled 0 (inr queued); PollSettled 0 (inr queued);
   TimeoutElapsed 0; TimeoutElapsed 0].

Definition leaking : Runtime :=
  match run (hosting synced) (workspace localFiles false) twoBackOffs
          (activated None) with
  | Some r => r
  | None => activated None
  end.

(** A callback of a job at work in its second phase, with 20 marks
    emitted. *)
Definition analysing : Frame :=
  {| globals := polling;
     locals :=
       {| command := "verifier"; uri := documentAt "/o/r/a.miz"; ID := "J1";
          numberOfProgress := 20; trackedPhases := ["Parser"; "Analyzer"];
          currentCommand := "verifier"; outcome := Pending |};
     self := 0 |}.

(** The same job on a snapshot that brings new phases: the count has
    been set back to 0. *)
Definition betweenPhases : Frame :=
  {| globals := polling;
     locals :=
       {| command := "verifier"; uri := documentAt "/o/r/a.miz"; ID := "J1";
          numberOfProgress := 0; trackedPhases := ["Parser"];
          currentCommand := "verifier"; outcome := Pending |};
     self := 0 |}.

(** The last snapshot of that job: both phases done, no error. *)
Definition done : Snapshot :=
  {| queueNum := 0;
     isMakeenvFinish := true; isMakeenvSuccess := true;
     makeenvText := "Environment ready";
     progressPhases := ["Parser"; "Analyzer"]; progressPercent := 100;
     numOfErrors := 0; errorList := [];
     isVerifierFinish := true; isVerifierSuccess := true |}.

End Scenario.

(* ===================================================================== *)
(** * Properties *)
(* ===================================================================== *)

(** ** The progress bar *)

Section Progress.

Import CalculateProgress.

(** The upper clamp: the markers already emitted plus the new ones never
    exceed [MAX_OUTPUT], whatever the arguments. *)
Lemma calculateProgressDiff_upper (progressPercent numberOfProgress : Z) :
  numberOfProgress + calculateProgressDiff progressPercent numberOfProgress
  <= MAX_OUTPUT.
Proof.
  unfold calculateProgressDiff.
  destruct (Z.gtb_spec
              (numberOfProgress
               + ((MAX_OUTPUT * progressPercent) / 100 - numberOfProgress))
              MAX_OUTPUT); lia.
Qed.

(** There is no lower clamp: the difference is negative exactly when the
    bar is already longer than the percentage asks for. *)
Lemma calculateProgressDiff_negative_iff (progressPercent numberOfProgress : Z) :
  numberOfProgress <= MAX_OUTPUT ->
  (calculateProgressDiff progressPercent numberOfProgress < 0
   <-> (MAX_OUTPUT * progressPercent) / 100 < numberOfProgress).
Proof.
  intros Hle. unfold calculateProgressDiff.
  destruct (Z.gtb_spec
              (numberOfProgress
               + ((MAX_OUTPUT * progressPercent) / 100 - numberOfProgress))
              MAX_OUTPUT); lia.
Qed.


(** C1, at the failing input: with 10 markers emitted and the server
    reporting 0 percent, both arguments are in range and
    [calculateProgressDiff] returns -10, a negative difference. *)
Theorem C1_calculateProgressDiff_negative :
  0 <= 0 <= 100 /\ 0 <= 10 <= MAX_OUTPUT
  /\ calculateProgressDiff 0 10 = -10
  /\ ~ (0 <= calculateProgressDiff 0 10).
Proof.
  repeat split; try (vm_compute; congruence).
Qed.

End Progress.

(** ** The shadow branch *)

Section EnsureBranch.

Import Js GitHub Vscode AutoCommit Scenario.

Variable octokit : Octokit.

(** What [ensureBranchExists] does, request by request: it lists the
    branches; when [verifier] is missing it starts [getDefaultBranch],
    asks for the ref named after the promise, and creates [verifier] at
    the sha it got.  The first rejected request ends it, and its error
    is thrown on. *)
Lemma ensureBranchExists_requests (owner repo : string) (h : Host) :
  let log1 := (github h ++ [ListBranches owner repo])%list in
  let log2 := (log1 ++ [ReposGet owner repo])%list in
  let log3 := (log2 ++ [GetRef owner repo "heads/[object Promise]"])%list in
  ensureBranchExists octokit owner repo h =
  match octokit (github h) (ListBranches owner repo) with
  | inl e => (inl e, set_github log1 h)
  | inr names =>
      if existsb (fun name => String.eqb name "verifier") names
      then (inr tt, set_github log1 h)
      else
        match octokit log2 (GetRef owner repo "heads/[object Promise]") with
        | inl e => (inl e, set_github log3 h)
        | inr sha =>
            (octokit log3 (CreateRef owner repo "refs/heads/verifier" sha),
             set_github
               (log3 ++ [CreateRef owner repo "refs/heads/verifier" sha]) h)
        end
  end.
Proof.
  unfold ensureBranchExists, try_catch, bind, request, unawaited,
    getDefaultBranch, try_catch, bind, request, ret, throw, branch, toString.
  cbn.
  destruct (octokit (github h) (ListBranches owner repo)) as [e | names];
    [reflexivity |].
  destruct (existsb (fun name => String.eqb name "verifier") names);
    [reflexivity |].
  cbn.
  destruct (octokit _ (ReposGet owner repo)) as [e0 | name];
    cbn;
    destruct (octokit _ (GetRef owner repo "heads/[object Promise]"))
      as [e1 | sha]; cbn; try reflexivity;
    destruct (octokit _ (CreateRef owner repo "refs/heads/verifier" sha))
      as [e2 | []]; reflexivity.
Qed.


End EnsureBranch.

Section EnsureBranchExamples.

Import Js GitHub Vscode AutoCommit Scenario.



(** C5, at the failing input: on a repository whose default branch
    [main] exists and [verifier] does not, the ref looked up is
    [heads/[object Promise]], not [heads/main]; the lookup fails with
    status 404, the function throws and no ref is created. *)
Theorem C5_default_branch_head_not_looked_up :
  answer mainOnly (GetRef "o" "r" "heads/main") = inr "c0"
  /\ ensureBranchExists (octokitOf mainOnly) "o" "r" (fresh None)
     = (inl (HttpError 404),
        set_github
          [ListBranches "o" "r"; ReposGet "o" "r";
           GetRef "o" "r" "heads/[object Promise]"] (fresh None)).
Proof.
  split; reflexivity.
Qed.

End EnsureBranchExamples.

(** ** Bodies that move the state along a preorder *)

Section StepsAlong.

Import Js.

Context {S : Type}.
Variable R : S -> S -> Prop.
Hypothesis R_refl : forall s, R s s.
Hypothesis R_trans : forall s1 s2 s3, R s1 s2 -> R s2 s3 -> R s1 s3.

Lemma Steps_ret {A} (a : A) : Steps R (ret a).
Proof. intros s. apply R_refl. Qed.

Lemma Steps_throw {A} (e : Exn) : Steps R (@throw S A e).
Proof. intros s. apply R_refl. Qed.

Lemma Steps_lift {A} (r : Exn + A) : Steps R (@lift S A r).
Proof. intros s. apply R_refl. Qed.

Lemma Steps_read {A} (f : S -> A) : Steps R (read f).
Proof. intros s. apply R_refl. Qed.

Lemma Steps_effect (f : S -> S) : (forall s, R s (f s)) -> Steps R (effect f).
Proof. intros Hf s. apply Hf. Qed.

Lemma Steps_bind {A B} (m : Eff S A) (k : A -> Eff S B) :
  Steps R m -> (forall a, Steps R (k a)) -> Steps R (bind m k).
Proof.
  intros Hm Hk s. unfold bind. specialize (Hm s).
  destruct (m s) as [[e | a] s1]; cbn in *; [exact Hm |].
  eapply R_trans; [exact Hm | apply Hk].
Qed.

Lemma Steps_try_catch {A} (m : Eff S A) (handler : Exn -> Eff S A) :
  Steps R m -> (forall e, Steps R (handler e)) -> Steps R (try_catch m handler).
Proof.
  intros Hm Hk s. unfold try_catch. specialize (Hm s).
  destruct (m s) as [[e | a] s1]; cbn in *; [| exact Hm].
  eapply R_trans; [exact Hm | apply Hk].
Qed.

End StepsAlong.

(** Splits a goal [Steps R m] along the shape of [m]; [leaf] is tried on
    what is not a control structure. *)
Ltac steps_with leaf :=
  repeat
    (cbv zeta;
     match goal with
     | |- Js.Steps _ (Js.bind _ _) =>
         apply Steps_bind; [assumption | | intros ?]
     | |- Js.Steps _ (Js.try_catch _ _) =>
         apply Steps_try_catch; [assumption | | intros ?]
     | |- Js.Steps _ (Js.ret _) => apply Steps_ret; assumption
     | |- Js.Steps _ (Js.throw _) => apply Steps_throw; assumption
     | |- Js.Steps _ (Js.lift _) => apply Steps_lift; assumption
     | |- Js.Steps _ (Js.read _) => apply Steps_read; assumption
     | |- Js.Steps _ (Js.effect _) => apply Steps_effect; intros ?
     | |- Js.Steps _ (if ?b then _ else _) => destruct b
     | |- Js.Steps _ (match ?x with _ => _ end) => destruct x
     | |- _ => leaf
     end).

(** ** One sync cycle *)

Section SyncSteps.

Import Js GitHub Vscode AutoCommit.

Variable octokit : Octokit.
Variable platform : Platform.

Variable R : Host -> Host -> Prop.
Hypothesis R_refl : forall h, R h h.
Hypothesis R_trans : forall h1 h2 h3, R h1 h2 -> R h2 h3 -> R h1 h3.
Hypothesis R_request : forall h c, R h (set_github (github h ++ [c]) h).
Hypothesis R_message : forall h m, R h (set_messages (messages h ++ [m]) h).

Lemma Steps_request (c : Call) : Steps R (request octokit c).
Proof. intros h. apply R_request. Qed.

Lemma Steps_unawaited {A} (m : Async A) : Steps R m -> Steps R (unawaited m).
Proof. intros Hm h. exact (Hm h). Qed.

Ltac sync_leaf :=
  idtac;
  match goal with
  | |- Steps _ (request _ ?c) => exact (Steps_request c)
  | |- Steps _ (unawaited _) => apply Steps_unawaited
  | |- Steps _ (failedToCommit _) => unfold failedToCommit
  | |- R ?h (failed _ ?h) => apply R_message
  end.

Lemma Steps_ensureBranchExists owner repo :
  Steps R (ensureBranchExists octokit owner repo).
Proof. unfold ensureBranchExists, getDefaultBranch. steps_with sync_leaf. Qed.

Lemma Steps_diffDocument owner repo p text treeList :
  Steps R (diffDocument octokit platform owner repo p text treeList).
Proof. unfold diffDocument. steps_with sync_leaf. Qed.

Lemma Steps_pushCommit owner repo treeList latest :
  Steps R (pushCommit octokit owner repo treeList latest).
Proof. unfold pushCommit. steps_with sync_leaf. Qed.

Lemma Steps_commitDeletions owner repo deleted :
  Steps R (commitDeletions octokit owner repo deleted).
Proof.
  induction deleted as [| p rest IH]; cbn [commitDeletions];
    steps_with sync_leaf.
  exact IH.
Qed.

Lemma Steps_diffChangedFiles documentUri repositoryPath owner repo paths :
  forall treeList deleted,
    Steps R (diffChangedFiles octokit platform documentUri repositoryPath
               owner repo paths treeList deleted).
Proof.
  induction paths as [| p rest IH]; intros treeList deleted;
    cbn [diffChangedFiles].
  - now apply Steps_ret.
  - destruct (JsString.includes p repositoryPath); [| apply IH].
    destruct (openTextDocument platform _); [| apply IH].
    apply Steps_bind; auto using Steps_diffDocument.
Qed.

End SyncSteps.

Section HostOrders.

Import Vscode.

Lemma extends_refl h : extends h h.
Proof. exists []. now rewrite app_nil_r. Qed.

Lemma extends_trans h1 h2 h3 : extends h1 h2 -> extends h2 h3 -> extends h1 h3.
Proof.
  intros [l1 H1] [l2 H2]. exists (l1 ++ l2)%list.
  now rewrite H2, H1, app_assoc.
Qed.

Lemma extends_request h c : extends h (set_github (github h ++ [c]) h).
Proof. now exists [c]. Qed.

Lemma extends_message h m : extends h (set_messages (messages h ++ [m]) h).
Proof. exists []. cbn. now rewrite app_nil_r. Qed.

Lemma keepsChanges_refl h : keepsChanges h h.
Proof. reflexivity. Qed.

Lemma keepsChanges_trans h1 h2 h3 :
  keepsChanges h1 h2 -> keepsChanges h2 h3 -> keepsChanges h1 h3.
Proof. unfold keepsChanges. congruence. Qed.

Lemma keepsChanges_request h c :
  keepsChanges h (set_github (github h ++ [c]) h).
Proof. reflexivity. Qed.

Lemma keepsChanges_message h m :
  keepsChanges h (set_messages (messages h ++ [m]) h).
Proof. reflexivity. Qed.

End HostOrders.

Section SyncCycle.

Import Js GitHub Vscode AutoCommit.

Variable octokit : Octokit.
Variable platform : Platform.


Lemma diffChangedFiles_extends documentUri repositoryPath owner repo paths
    treeList deleted h :
  extends h
    (snd (diffChangedFiles octokit platform documentUri repositoryPath owner
            repo paths treeList deleted h)).
Proof.
  apply (Steps_diffChangedFiles octokit platform extends extends_refl
           extends_trans extends_request extends_message).
Qed.

Lemma commitDeletions_extends owner repo deleted h :
  extends h (snd (commitDeletions octokit owner repo deleted h)).
Proof.
  apply (Steps_commitDeletions octokit extends extends_refl extends_trans
           extends_request).
Qed.

Lemma diffDocument_requests owner repo p text treeList h :
  diffDocument octokit platform owner repo p text treeList h =
  let log1 := (github h ++ [GetContent owner repo p branch])%list in
  let log2 := (log1 ++ [CreateBlob owner repo text])%list in
  let created :=
    match octokit log1 (CreateBlob owner repo text) with
    | inr sha => (inr (treeList ++ [blobEntry p sha])%list, set_github log2 h)
    | inl e => (inl e, set_github log2 h)
    end in
  match octokit (github h) (GetContent owner repo p branch) with
  | inr data =>
      if String.eqb (remoteContent platform data) text
      then (inr treeList, set_github log1 h)
      else
        match octokit log1 (CreateBlob owner repo text) with
        | inr sha => (inr (treeList ++ [blobEntry p sha])%list, set_github log2 h)
        | inl e =>
            if hasStatus e 404 then
              match octokit log2 (CreateBlob owner repo text) with
              | inr sha =>
                  (inr (treeList ++ [blobEntry p sha])%list,
                   set_github (log2 ++ [CreateBlob owner repo text]) h)
              | inl e' =>
                  (inl e', set_github (log2 ++ [CreateBlob owner repo text]) h)
              end
            else (inr treeList, failed e (set_github log2 h))
        end
  | inl e =>
      if hasStatus e 404 then created
      else (inr treeList, failed e (set_github log1 h))
  end.
Proof.
  unfold diffDocument, try_catch, bind, request, ret, failedToCommit, effect,
    failed.
  cbn.
  destruct (octokit (github h) (GetContent owner repo p branch)) as [e | data].
  - destruct (hasStatus e 404); [| reflexivity].
    cbn. destruct (octokit _ (CreateBlob owner repo text)); reflexivity.
  - destruct (String.eqb (remoteContent platform data) text); [reflexivity |].
    cbn. destruct (octokit _ (CreateBlob owner repo text)) as [e | sha];
      [| reflexivity].
    destruct (hasStatus e 404); [| reflexivity].
    cbn. destruct (octokit _ (CreateBlob owner repo text)); reflexivity.
Qed.


Lemma prefix_append (a b : string) : String.prefix a (a ++ b) = true.
Proof.
  induction a as [| c a IH]; cbn; [now destruct b |].
  destruct (ascii_dec c c); [exact IH | contradiction].
Qed.

Lemma includes_own_prefix (a b : string) : JsString.includes (a ++ b) a = true.
Proof.
  unfold JsString.includes.
  assert (JsString.indexOf (a ++ b) a = 0) as ->; [| reflexivity].
  destruct (a ++ b)%string eqn:E; cbn [JsString.indexOf];
    rewrite <- E, prefix_append; reflexivity.
Qed.

Lemma diffChangedFiles_cons documentUri repositoryPath owner repo q rest
    treeList deleted :
  diffChangedFiles octokit platform documentUri repositoryPath owner repo
    (q :: rest) treeList deleted =
  if JsString.includes q repositoryPath then
    match openTextDocument platform (resourceUri platform documentUri q) with
    | Some documentText =>
        bind (diffDocument octokit platform owner repo (repoFilePathOf repo q)
                documentText treeList)
          (fun treeList' =>
             diffChangedFiles octokit platform documentUri repositoryPath
               owner repo rest treeList' deleted)
    | None =>
        diffChangedFiles octokit platform documentUri repositoryPath owner repo
          rest treeList (deleted ++ [repoFilePathOf repo q])%list
    end
  else
    diffChangedFiles octokit platform documentUri repositoryPath owner repo
      rest treeList deleted.
Proof. reflexivity. Qed.




Lemma ensureBranchExists_keepsChanges owner repo h :
  keepsChanges h (snd (ensureBranchExists octokit owner repo h)).
Proof.
  apply (Steps_ensureBranchExists octokit keepsChanges keepsChanges_refl
           keepsChanges_trans keepsChanges_request).
Qed.

Lemma diffChangedFiles_keepsChanges documentUri repositoryPath owner repo paths
    treeList deleted h :
  keepsChanges h
    (snd (diffChangedFiles octokit platform documentUri repositoryPath owner
            repo paths treeList deleted h)).
Proof.
  apply (Steps_diffChangedFiles octokit platform keepsChanges keepsChanges_refl
           keepsChanges_trans keepsChanges_request keepsChanges_message).
Qed.

Lemma pushCommit_keepsChanges owner repo treeList latest h :
  keepsChanges h (snd (pushCommit octokit owner repo treeList latest h)).
Proof.
  apply (Steps_pushCommit octokit keepsChanges keepsChanges_trans
           keepsChanges_request).
Qed.

(** A rejected tree, commit or ref update is thrown to the caller. *)
Lemma pushCommit_failure_thrown owner repo treeList deleted latest h e h' :
  treeList <> [] ->
  pushCommit octokit owner repo treeList latest h = (inl e, h') ->
  fst (finish octokit owner repo treeList deleted latest h) = inl e.
Proof.
  intros Hne Hpush. unfold finish.
  destruct treeList; [contradiction |].
  change (0 <? Z.of_nat (List.length (t :: treeList))) with true.
  cbv iota. now rewrite Hpush.
Qed.

End SyncCycle.

Section WholeCycle.

Import Js GitHub Vscode AutoCommit.

Variable newOctokit : string -> Octokit.
Variable platform : Platform.
Variable token : string.

Local Abbreviation octokit := (newOctokit token).

(** One cycle, stage by stage. *)
Lemma commitChanges_stages documentUri repositoryPath h stored :
  let owner := nth 1 (JsString.split repositoryPath "/" 3) "" in
  let repo := nth 2 (JsString.split repositoryPath "/" 3) "" in
  let paths := (stored ++ [(repositoryPath ++ "/mml.ini")%string])%list in
  let h0 := if mementoIsLive platform
            then set_changedFilePaths (Some paths) h else h in
  changedFilePaths h = Some stored ->
  stored <> [] ->
  commitChanges newOctokit platform documentUri token repositoryPath h =
  match ensureBranchExists octokit owner repo h0 with
  | (inl e, h1) => (inl e, failed e h1)
  | (inr _, h1) =>
      match diffChangedFiles octokit platform documentUri repositoryPath
              owner repo paths [] [] h1 with
      | (inl e, h2) => (inl e, failed e h2)
      | (inr lists, h2) =>
          let h3 := set_github (github h2 ++ [GetBranch owner repo branch]) h2 in
          match octokit (github h2) (GetBranch owner repo branch) with
          | inl e => (inl e, failed e h3)
          | inr latest => finish octokit owner repo (fst lists) (snd lists) latest h3
          end
      end
  end.
Proof.
  intros owner repo paths h0 Hstored Hne.
  unfold commitChanges. cbv zeta. rewrite Hstored.
  destruct stored as [| first others]; [contradiction |].
  change (0 <? Z.of_nat (List.length (first :: others))) with true.
  cbv iota. fold owner repo. fold paths.
  unfold try_catch at 1. unfold bind at 1. unfold effect at 1. fold h0.
  unfold bind at 1.
  destruct (ensureBranchExists octokit owner repo h0) as [[e | []] h1];
    [reflexivity |].
  unfold bind at 1.
  destruct (diffChangedFiles octokit platform documentUri repositoryPath
              owner repo paths [] [] h1) as [[e | lists] h2];
    [reflexivity |].
  unfold bind at 1. unfold request at 1. cbv zeta.
  destruct (octokit (github h2) (GetBranch owner repo branch)) as [e | latest];
    [reflexivity |].
  unfold finish, bind, effect, unawaited, ret, failedToCommit, throw.
  destruct (0 <? Z.of_nat (List.length (fst lists))).
  - destruct (pushCommit octokit owner repo (fst lists) latest _)
      as [[e | []] h4]; reflexivity.
  - destruct (0 <? Z.of_nat (List.length (snd lists))); reflexivity.
Qed.


(** C6, as amended: one changed file, with [mml.ini] unchanged on the
    branch and every request answered.  When the branch already holds
    the local text, the cycle only reads (no blob, tree, commit or ref
    update); when it holds another text, the cycle creates one blob, one
    tree of one entry on top of the latest commit, one commit with that
    commit as its only parent, and updates the ref once. *)
Theorem C6_one_changed_file
    (documentUri : Uri) (repositoryPath changedFilePath : string)
    (h : Host) (names : list string) (text iniText latest : string)
    (data iniData : ContentData) :
  let owner := nth 1 (JsString.split repositoryPath "/" 3) "" in
  let repo := nth 2 (JsString.split repositoryPath "/" 3) "" in
  let iniFilePath := (repositoryPath ++ "/mml.ini")%string in
  let file := repoFilePathOf repo changedFilePath in
  let ini := repoFilePathOf repo iniFilePath in
  let cycle :=
    commitChanges newOctokit platform documentUri token repositoryPath h in
  changedFilePaths h = Some [changedFilePath] ->
  JsString.includes changedFilePath repositoryPath = true ->
  Always octokit (ListBranches owner repo) (inr names) ->
  In "verifier" names ->
  openTextDocument platform (resourceUri platform documentUri changedFilePath)
  = Some text ->
  openTextDocument platform (resourceUri platform documentUri iniFilePath)
  = Some iniText ->
  Always octokit (GetContent owner repo file "verifier") (inr data) ->
  Always octokit (GetContent owner repo ini "verifier") (inr iniData) ->
  remoteContent platform iniData = iniText ->
  Always octokit (GetBranch owner repo "verifier") (inr latest) ->
  (remoteContent platform data = text ->
   fst cycle = inr tt
   /\ github (snd cycle) =
      (github h ++ [ListBranches owner repo;
                    GetContent owner repo file "verifier";
                    GetContent owner repo ini "verifier";
                    GetBranch owner repo "verifier"])%list)
  /\
  (remoteContent platform data <> text ->
   forall sha tree commit,
     Always octokit (CreateBlob owner repo text) (inr sha) ->
     Always octokit (CreateTree owner repo [blobEntry file sha] latest) (inr tree) ->
     Always octokit (CreateCommit owner repo commitMessage tree [latest]) (inr commit) ->
     Always octokit (UpdateRef owner repo "heads/verifier" commit) (inr tt) ->
     fst cycle = inr tt
     /\ github (snd cycle) =
        (github h ++ [ListBranches owner repo;
                      GetContent owner repo file "verifier";
                      CreateBlob owner repo text;
                      GetContent owner repo ini "verifier";
                      GetBranch owner repo "verifier";
                      CreateTree owner repo [blobEntry file sha] latest;
                      CreateCommit owner repo commitMessage tree [latest];
                      UpdateRef owner repo "heads/verifier" commit])%list).
Proof.
  intros owner repo iniFilePath file ini cycle Hstored Hinside Hlist Hexists
    Hopen HopenIni Hdata HiniData Hini Hlatest.
  assert (existsb (fun name => String.eqb name "verifier") names = true)
    as Hfound.
  { apply existsb_exists. exists "verifier". split; [exact Hexists |].
    apply String.eqb_refl. }
  assert (forall treeList h2,
             diffDocument octokit platform owner repo ini iniText treeList h2
             = (inr treeList,
                set_github (github h2 ++ [GetContent owner repo ini "verifier"]) h2))
    as HdiffIni.
  { intros treeList h2. rewrite diffDocument_requests. cbv zeta.
    unfold branch. rewrite HiniData, Hini, String.eqb_refl. reflexivity. }
  assert (cycle =
          match diffDocument octokit platform owner repo file text []
                  (set_github (github h ++ [ListBranches owner repo])
                     (if mementoIsLive platform
                      then set_changedFilePaths
                             (Some [changedFilePath; iniFilePath]) h
                      else h)) with
          | (inr treeList, h2) =>
              finish octokit owner repo treeList [] latest
                (set_github
                   (github h2 ++ [GetContent owner repo ini "verifier";
                                  GetBranch owner repo "verifier"]) h2)
          | (inl e, h2) => (inl e, failed e h2)
          end) as Hcycle.
  { subst cycle.
    rewrite (commitChanges_stages _ _ _ [changedFilePath] Hstored)
      by discriminate.
    fold owner repo iniFilePath. cbn [app].
    set (h0 := if mementoIsLive platform then _ else h).
    assert (github h0 = github h) as Hlog0
        by (subst h0; now destruct (mementoIsLive platform)).
    rewrite ensureBranchExists_requests. cbv zeta.
    rewrite Hlist, Hfound, Hlog0.
    rewrite diffChangedFiles_cons. rewrite Hinside, Hopen.
    fold file. unfold bind at 1.
    destruct (diffDocument octokit platform owner repo file text [] _)
      as [[e | treeList] h2]; [reflexivity |].
    rewrite diffChangedFiles_cons.
    unfold iniFilePath at 1. rewrite includes_own_prefix.
    fold iniFilePath. rewrite HopenIni. fold ini.
    unfold bind.
    rewrite HdiffIni. cbn [diffChangedFiles ret fst snd github set_github].
    unfold branch. rewrite Hlatest. cbn [github set_github].
    rewrite <- app_assoc. reflexivity. }
  rewrite diffDocument_requests in Hcycle. cbv zeta in Hcycle.
  unfold branch in Hcycle. rewrite Hdata in Hcycle.
  cbn [github set_github] in Hcycle.
  split.
  - intros Hsame. rewrite Hsame, String.eqb_refl in Hcycle.
    rewrite Hcycle. unfold finish. cbn. rewrite <- !app_assoc. now split.
  - intros Hdiffers sha tree commit Hblob Htree Hcommit Href.
    apply String.eqb_neq in Hdiffers. rewrite Hdiffers, Hblob in Hcycle.
    rewrite Hcycle. unfold finish, pushCommit, bind, request.
    cbn. unfold branch. rewrite Htree, Hcommit, Href. cbn.
    rewrite <- !app_assoc. now split.
Qed.

(** X3: the half of the retry rule that holds.  When [commitChanges]
    throws, the stored change set has not been cleared: it holds the
    paths it held, with [mml.ini] after them when the stored array is
    the live one. *)
Theorem X3_thrown_cycle_keeps_the_change_set
    documentUri repositoryPath h e h' :
  commitChanges newOctokit platform documentUri token repositoryPath h
  = (inl e, h') ->
  exists stored,
    changedFilePaths h = Some stored
    /\ stored <> []
    /\ changedFilePaths h' =
       Some (if mementoIsLive platform
             then (stored ++ [(repositoryPath ++ "/mml.ini")%string])%list
             else stored).
Proof.
  intros Hrun.
  destruct (changedFilePaths h) as [stored |] eqn:Hstored;
    [| unfold commitChanges in Hrun; cbv zeta in Hrun;
       rewrite Hstored in Hrun; discriminate].
  destruct stored as [| first others];
    [unfold commitChanges in Hrun; cbv zeta in Hrun;
     rewrite Hstored in Hrun; discriminate |].
  exists (first :: others). split; [reflexivity |]. split; [discriminate |].
  rewrite (commitChanges_stages _ _ _ _ Hstored) in Hrun
    by discriminate.
  set (owner := nth 1 _ _) in Hrun. set (repo := nth 2 _ _) in Hrun.
  set (paths := (_ ++ [_])%list) in *.
  set (h0 := if mementoIsLive platform then _ else h) in Hrun.
  assert (changedFilePaths h0 =
          Some (if mementoIsLive platform then paths else first :: others))
    as Hh0 by (subst h0; now destruct (mementoIsLive platform)).
  rewrite <- Hh0.
  pose proof (ensureBranchExists_keepsChanges octokit owner repo h0) as K1.
  destruct (ensureBranchExists octokit owner repo h0) as [[e1 | []] h1];
    cbn [snd] in K1.
  { injection Hrun as <- <-. exact K1. }
  pose proof (diffChangedFiles_keepsChanges octokit platform documentUri repositoryPath owner
                repo paths [] [] h1) as K2.
  destruct (diffChangedFiles octokit platform documentUri repositoryPath owner
              repo paths [] [] h1) as [[e2 | lists] h2]; cbn [snd] in K2.
  { injection Hrun as <- <-. unfold keepsChanges in *. cbn. congruence. }
  cbv zeta in Hrun.
  destruct (octokit (github h2) (GetBranch owner repo branch))
    as [e3 | latest].
  { injection Hrun as <- <-. unfold keepsChanges in *. cbn. congruence. }
  unfold finish in Hrun.
  destruct (0 <? Z.of_nat (List.length (fst lists))).
  - pose proof (pushCommit_keepsChanges octokit owner repo (fst lists) latest
                  (set_github (github h2 ++ [GetBranch owner repo branch]) h2))
      as K3.
    destruct (pushCommit octokit owner repo (fst lists) latest _)
      as [[e4 | []] h4]; [| discriminate].
    injection Hrun as <- <-. unfold keepsChanges in *. cbn in *. congruence.
  - destruct (0 <? Z.of_nat (List.length (snd lists))); discriminate.
Qed.

(** When a cycle over a non-empty change set returns, the set is empty. *)
Lemma commitChanges_returned_clears
    documentUri repositoryPath h stored h' :
  changedFilePaths h = Some stored ->
  stored <> [] ->
  commitChanges newOctokit platform documentUri token repositoryPath h
  = (inr tt, h') ->
  changedFilePaths h' = Some [].
Proof.
  intros Hstored Hne Hrun.
  rewrite (commitChanges_stages _ _ _ _ Hstored Hne) in Hrun.
  destruct (ensureBranchExists octokit _ _ _) as [[e1 | []] h1];
    [discriminate |].
  destruct (diffChangedFiles octokit platform _ _ _ _ _ _ _ h1)
    as [[e2 | lists] h2]; [discriminate |].
  cbv zeta in Hrun.
  destruct (octokit (github h2) _) as [e3 | latest]; [discriminate |].
  unfold finish in Hrun.
  destruct (0 <? Z.of_nat (List.length (fst lists))).
  - destruct (pushCommit octokit _ _ _ _ _) as [[e4 | []] h4];
      [discriminate |].
    now injection Hrun as <-.
  - destruct (0 <? Z.of_nat (List.length (snd lists)));
      now injection Hrun as <-.
Qed.

End WholeCycle.


Section SyncExamples.

Import Js GitHub Vscode AutoCommit Scenario.


Lemma C6_one_changed_file_witness :
  let cycle :=
    commitChanges (hosting synced) (workspace localFiles false)
      (documentAt "/o/r/a.miz") "token" "/o/r" (fresh (Some ["/o/r/a.miz"])) in
  fst cycle = inr tt
  /\ github (snd cycle) =
     [ListBranches "o" "r"; GetContent "o" "r" "a.miz" "verifier";
      GetContent "o" "r" "mml.ini" "verifier"; GetBranch "o" "r" "verifier"].
Proof.
  refine (proj1
            (C6_one_changed_file (hosting synced) (workspace localFiles false)
               "token" (documentAt "/o/r/a.miz") "/o/r" "/o/r/a.miz"
               (fresh (Some ["/o/r/a.miz"])) ["main"; "verifier"]
               "hello" "" "c0"
               (fileAnswer "aGVsbG8=" "sha-of-a.miz")
               (fileAnswer "" "sha-of-mml.ini")
               eq_refl eq_refl (fun _ => eq_refl) _ eq_refl eq_refl
               (fun _ => eq_refl) (fun _ => eq_refl) eq_refl (fun _ => eq_refl))
            eq_refl).
  cbn. auto.
Defined.

(** C6 as stated fails: the change set is [/o/r/a.miz] alone and the
    branch holds the local text of [a.miz], yet the cycle creates one
    blob and one commit, for the [mml.ini] the branch does not have. *)
Lemma C6_unchanged_file_still_commits :
  let platform := workspace localFiles false in
  let cycle :=
    commitChanges (hosting withoutIni) platform (documentAt "/o/r/a.miz")
      "token" "/o/r" (fresh (Some ["/o/r/a.miz"])) in
  (exists data,
      octokitOf withoutIni [] (GetContent "o" "r" "a.miz" "verifier") = inr data
      /\ Some (remoteContent platform data)
         = openTextDocument platform (documentAt "/o/r/a.miz"))
  /\ List.length (filter isCreateBlob (github (snd cycle))) = 1%nat
  /\ List.length (filter isCreateCommit (github (snd cycle))) = 1%nat.
Proof.
  cbv zeta. split; [| split; reflexivity].
  eexists. split; reflexivity.
Qed.

(** C3, at the failing input: the content of [a.miz] cannot be fetched
    (status 500).  [commitChanges] shows a message, returns normally
    and leaves the stored change set empty. *)
Theorem C3_fetch_failure_not_thrown :
  octokitOf fetchFails [ListBranches "o" "r"]
    (GetContent "o" "r" "a.miz" "verifier") = inl (HttpError 500)
  /\ commitChanges (hosting fetchFails) (workspace localFiles false)
       (documentAt "/o/r/a.miz") "token" "/o/r" (fresh (Some ["/o/r/a.miz"]))
     = (inr tt,
        {| messages :=
             [ErrorMessage "Failed to commit changes. Error: "
                (Some (HttpError 500));
              InformationMessage "No changes to commit."];
           channel := [];
           diagnostics := [];
           changedFilePaths := Some [];
           github :=
             [ListBranches "o" "r"; GetContent "o" "r" "a.miz" "verifier";
              GetContent "o" "r" "mml.ini" "verifier";
              GetBranch "o" "r" "verifier"];
           server := [] |}).
Proof.
  split; reflexivity.
Qed.

(** With a token the hosting service does not know, the first request is
    rejected as unauthorized; the cycle throws and the change set stays. *)
Lemma commitChanges_unauthorized_thrown :
  commitChanges (hosting synced) (workspace localFiles false)
    (documentAt "/o/r/a.miz") "expired" "/o/r" (fresh (Some ["/o/r/a.miz"]))
  = (inl (HttpError 401),
     failed (HttpError 401)
       (set_github [ListBranches "o" "r"] (fresh (Some ["/o/r/a.miz"])))).
Proof. reflexivity. Qed.

Lemma X3_thrown_cycle_keeps_the_change_set_witness :
  exists stored,
    Some ["/o/r/a.miz"] = Some stored
    /\ stored <> []
    /\ changedFilePaths
         (failed (HttpError 401)
            (set_github [ListBranches "o" "r"] (fresh (Some ["/o/r/a.miz"]))))
       = Some stored.
Proof.
  apply (X3_thrown_cycle_keeps_the_change_set (hosting synced)
           (workspace localFiles false) "expired" (documentAt "/o/r/a.miz")
           "/o/r" (fresh (Some ["/o/r/a.miz"])) (HttpError 401)).
  reflexivity.
Defined.

(** The same failure in [commitActiveFile] is thrown to the caller. *)
Lemma commitActiveFile_fetch_failure_thrown :
  fst (commitActiveFile (hosting fetchFails) (workspace localFiles false)
         (documentAt "/o/r/a.miz") "hello again" "token" "/o/r"
         (fresh None))
  = inl (HttpError 500).
Proof. reflexivity. Qed.

(** A rejected deletion is seen by nobody either: [commitDeletions] is
    not awaited, nor is [deleteFile] inside it. *)
Lemma commitChanges_deletion_failure_not_thrown :
  let cycle :=
    commitChanges (hosting deleteFails) (workspace localFiles false)
      (documentAt "/o/r/a.miz") "token" "/o/r"
      (fresh (Some ["/o/r/gone.miz"])) in
  octokitOf deleteFails []
    (DeleteFile "o" "r" "gone.miz" commitMessage "sha-of-gone.miz" "verifier")
  = inl (HttpError 409)
  /\ In (DeleteFile "o" "r" "gone.miz" commitMessage "sha-of-gone.miz" "verifier")
       (github (snd cycle))
  /\ fst cycle = inr tt
  /\ changedFilePaths (snd cycle) = Some [].
Proof.
  cbv zeta. repeat split; try reflexivity.
  vm_compute. repeat ((left; reflexivity) || right).
Qed.

(** C8, at the failing input: [mml.ini] itself was edited, so its path is
    in the change set when the cycle pushes it once more; the tree the
    cycle creates has two entries for [mml.ini]. *)
Theorem C8_mml_ini_entered_twice :
  let cycle :=
    commitChanges (hosting synced) (workspace iniEdited false)
      (documentAt "/o/r/a.miz") "token" "/o/r"
      (Extension.recordPath "/o/r/mml.ini" (fresh None)) in
  createdTrees (github (snd cycle))
  = [[blobEntry "mml.ini" "blob-of-hello"; blobEntry "mml.ini" "blob-of-hello"]]
  /\ ~ NoDup (map tree_path
                [blobEntry "mml.ini" "blob-of-hello";
                 blobEntry "mml.ini" "blob-of-hello"]).
Proof.
  split; [reflexivity |].
  intros Hnodup. inversion Hnodup as [| x l Hnotin _]. apply Hnotin. now left.
Qed.

End SyncExamples.

(** ** Commands *)

Section Commands.

Import Js GitHub Vscode MizarFunctions Extension.

Variable newOctokit : string -> Octokit.
Variable platform : Platform.


End Commands.

Section CommandExamples.

Import Js GitHub Vscode MizarFunctions Extension Scenario.


End CommandExamples.

(** ** Polling *)

Section Polling.

Import Js GitHub Vscode MizarFunctions Extension.

Variable newOctokit : string -> Octokit.
Variable platform : Platform.

Lemma pollsInFlight_updateProgress self id r :
  pollsInFlight self (updateProgress self id r) = S (pollsInFlight self r).
Proof.
  unfold pollsInFlight, updateProgress. cbn.
  rewrite filter_app, length_app. cbn. rewrite Nat.eqb_refl. cbn. lia.
Qed.

(** C2, as amended: polling follows the interval timer, not the answers.
    While the timer of a job is armed, each tick sends one more poll
    request whether or not the earlier ones have settled: [n] ticks in a
    row leave [n] more requests in flight, and neither the job nor the
    timer has changed. *)
Theorem C2_every_tick_polls (timer : positive) (self : nat) (closure : Closure)
    (n : nat) (r : Runtime) :
  find (fun t => Pos.eqb (fst t) timer) (intervals (loop r))
  = Some (timer, self) ->
  nth_error (calls r) self = Some closure ->
  exists r',
    run newOctokit platform (List.repeat (Tick timer) n) r = Some r'
    /\ pollsInFlight self r' = (n + pollsInFlight self r)%nat
    /\ calls r' = calls r
    /\ intervals (loop r') = intervals (loop r).
Proof.
  revert r. induction n as [| n IH]; intros r Htimer Hcall.
  - exists r. cbn. auto.
  - cbn [List.repeat run step]. rewrite Htimer, Hcall.
    destruct (IH (updateProgress self (ID closure) r)) as (r' & Hrun & Hn & Hc & Hi);
      [exact Htimer | exact Hcall |].
    exists r'. split; [exact Hrun |].
    rewrite Hn, pollsInFlight_updateProgress, Hc, Hi. cbn. repeat split. lia.
Qed.

End Polling.

(** ** Bodies that cannot tell two related states apart *)

Section RespectsRelation.

Import Js.

Context {S : Type}.
Variable E : S -> S -> Prop.

Lemma Respects_ret {A} (a : A) : Respects E (ret a).
Proof. intros s t Hst. now split. Qed.

Lemma Respects_throw {A} (e : Exn) : Respects E (@throw S A e).
Proof. intros s t Hst. now split. Qed.

Lemma Respects_lift {A} (r : Exn + A) : Respects E (@lift S A r).
Proof. intros s t Hst. now split. Qed.

Lemma Respects_read {A} (f : S -> A) :
  (forall s t, E s t -> f s = f t) -> Respects E (read f).
Proof. intros Hf s t Hst. cbn. split; [now rewrite (Hf s t Hst) | exact Hst]. Qed.

Lemma Respects_effect (f : S -> S) :
  (forall s t, E s t -> E (f s) (f t)) -> Respects E (effect f).
Proof. intros Hf s t Hst. cbn. split; [reflexivity | now apply Hf]. Qed.

Lemma Respects_bind {A B} (m : Eff S A) (k : A -> Eff S B) :
  Respects E m -> (forall a, Respects E (k a)) -> Respects E (bind m k).
Proof.
  intros Hm Hk s t Hst. unfold bind. destruct (Hm s t Hst) as [Hfst Hsnd].
  destruct (m s) as [[e | a] s1], (m t) as [[e' | a'] t1]; cbn in *;
    try discriminate.
  - injection Hfst as <-. now split.
  - injection Hfst as <-. now apply Hk.
Qed.

Lemma Respects_try_catch {A} (m : Eff S A) (handler : Exn -> Eff S A) :
  Respects E m -> (forall e, Respects E (handler e)) ->
  Respects E (try_catch m handler).
Proof.
  intros Hm Hk s t Hst. unfold try_catch. destruct (Hm s t Hst) as [Hfst Hsnd].
  destruct (m s) as [[e | a] s1], (m t) as [[e' | a'] t1]; cbn in *;
    try discriminate.
  - injection Hfst as <-. now apply Hk.
  - split; [exact Hfst | exact Hsnd].
Qed.

End RespectsRelation.

Ltac respects_with leaf :=
  repeat
    (cbv zeta;
     match goal with
     | |- Js.Respects _ (Js.bind _ _) => apply Respects_bind; [| intros ?]
     | |- Js.Respects _ (Js.try_catch _ _) =>
         apply Respects_try_catch; [| intros ?]
     | |- Js.Respects _ (Js.ret _) => apply Respects_ret
     | |- Js.Respects _ (Js.throw _) => apply Respects_throw
     | |- Js.Respects _ (Js.lift _) => apply Respects_lift
     | |- Js.Respects _ (if ?b then _ else _) => destruct b
     | |- Js.Respects _ (match ?x with _ => _ end) => destruct x
     | |- _ => leaf
     end).

(** ** Cancellation *)

Section Cancellation.

Import Js GitHub Vscode MizarFunctions Extension.




(** A quiet update on both sides keeps two frames in agreement, even
    when it does different things on the two sides. *)
Lemma sameForJob_quiet (f g : Runtime -> Runtime) a b :
  Quiet f -> Quiet g -> sameForJob a b ->
  sameForJob (on_globals f a) (on_globals g b).
Proof.
  intros Hf Hg (Hl & Hs & Hg'). repeat split; cbn; try assumption;
    destruct (Hf (globals a)) as (? & ? & ?),
             (Hg (globals b)) as (? & ? & ?), Hg' as (? & ? & ?); congruence.
Qed.

Lemma Quiet_stopInterval : Quiet stopInterval.
Proof.
  intros r. unfold stopInterval. destruct (intervalId r); now repeat split.
Qed.

Lemma Quiet_setTimeout self : Quiet (setTimeout self).
Proof. intros r. now repeat split. Qed.

Lemma Quiet_message text error : Quiet (on_host (showErrorMessage text error)).
Proof. intros r. now repeat split. Qed.

Lemma Quiet_settled {A} (answer : Exn + A) :
  Quiet (on_host (ApiService.settled answer)).
Proof. intros r. destruct answer; now repeat split. Qed.




Ltac blind_leaf :=
  idtac;
  match goal with
  | |- Respects _ (read _) =>
      apply Respects_read; intros ? ? (Hl & Hs & Hg); cbn; congruence
  | |- Respects _ (effect (on_globals _)) =>
      apply Respects_effect; intros ? ? ?;
      apply sameForJob_quiet;
      auto using Quiet_stopInterval, Quiet_message, Quiet_settled
  | |- Respects _ (effect (on_locals _)) =>
      apply Respects_effect; intros ? ? (Hl & Hs & Hg);
      repeat split; cbn; try apply Hg; congruence
  | |- Respects _ (channel_ _) => unfold channel_
  | |- Respects _ (resolve) => unfold resolve
  | |- Respects _ (reject _) => unfold reject
  end.

Lemma Respects_channel op : Respects sameForJob (channel_ op).
Proof.
  apply Respects_effect. intros a b (Hl & Hs & Hc & Hd & Hk).
  repeat split; cbn; congruence.
Qed.

Lemma Respects_setDiagnostics errors target :
  Respects sameForJob
    (effect (on_globals (on_host (setDiagnostics errors target)))).
Proof.
  apply Respects_effect. intros a b (Hl & Hs & Hc & Hd & Hk).
  repeat split; cbn; congruence.
Qed.

Lemma Respects_settle result : Respects sameForJob (settle result).
Proof.
  apply Respects_effect. intros a b (Hl & Hs & Hc & Hd & Hk).
  rewrite Hl. destruct (outcome (locals b)); repeat split; cbn; congruence.
Qed.

Lemma Respects_setTimeout :
  Respects sameForJob (effect (fun fr => on_globals (setTimeout (self fr)) fr)).
Proof.
  apply Respects_effect. intros a b Hab.
  apply sameForJob_quiet; auto using Quiet_setTimeout.
Qed.

Ltac job_leaf :=
  idtac;
  match goal with
  | |- Respects _ (channel_ ?op) => exact (Respects_channel op)
  | |- Respects _ (effect (on_globals (on_host (setDiagnostics _ _)))) =>
      apply Respects_setDiagnostics
  | |- Respects _ (effect (fun fr => on_globals (setTimeout (self fr)) fr)) =>
      apply Respects_setTimeout
  | |- Respects _ resolve => apply Respects_settle
  | |- Respects _ (reject _) => apply Respects_settle
  | |- _ => blind_leaf
  end.

Lemma Respects_addMissingHashTags emitted errors :
  Respects sameForJob (addMissingHashTags emitted errors).
Proof. unfold addMissingHashTags. respects_with job_leaf. Qed.

Lemma Respects_appendProgress percent :
  Respects sameForJob (appendProgress percent).
Proof. unfold appendProgress. respects_with job_leaf. Qed.

Lemma Respects_forEachPhase percent total phases :
  forall i, Respects sameForJob (forEachPhase percent total i phases).
Proof.
  induction phases as [| phase rest IH]; intros i; cbn [forEachPhase].
  - apply Respects_ret.
  - respects_with job_leaf; auto using Respects_appendProgress.
Qed.

Lemma Respects_onSnapshot json : Respects sameForJob (onSnapshot json).
Proof.
  unfold onSnapshot.
  respects_with job_leaf;
    auto using Respects_appendProgress, Respects_addMissingHashTags,
      Respects_forEachPhase.
Qed.

Lemma Respects_pollSettled answer : Respects sameForJob (pollSettled answer).
Proof.
  unfold pollSettled, fetched.
  respects_with job_leaf; auto using Respects_onSnapshot.
Qed.

Variable newOctokit : string -> Octokit.
Variable platform : Platform.

(** C7, as amended: cancellation sets nothing the snapshot handler
    looks at.  A poll answer that was in flight when the stop command
    ran is handled as it would have been without the stop command: the
    same writes to the output channel, the same diagnostics, the same
    changes to the closures of the jobs (their phase, their progress and
    the settling of their promise). *)
Theorem C7_late_answer_handled_as_if_not_stopped
    (position : nat) (answer : Exn + Snapshot) (r r1 : Runtime) :
  step newOctokit platform (PollSettled position answer) r = Some r1 ->
  exists r2,
    step newOctokit platform (PollSettled position answer) (stopCommand r)
    = Some r2
    /\ channel (host r2) = channel (host r1)
    /\ diagnostics (host r2) = diagnostics (host r1)
    /\ calls r2 = calls r1.
Proof.
  cbn [step]. intros Hstep.
  set (taken := on_loop (fun l => set_polls (removeAt position (polls l)) l))
    in *.
  assert (polls (loop (stopCommand r)) = polls (loop r)) as ->
      by (unfold stopCommand; now destruct (intervalId r)).
  destruct (nth_error (polls (loop r)) position) as [self |]; [| discriminate].
  unfold inCall in *.
  assert (sameForJobs (taken (stopCommand r)) (taken r)) as Hsame
      by (unfold stopCommand; destruct (intervalId r); now repeat split).
  destruct Hsame as (Hc & Hd & Hk). rewrite Hk.
  destruct (nth_error (calls (taken r)) self) as [closure |];
    [| discriminate].
  injection Hstep as <-.
  eexists. split; [reflexivity |].
  destruct (Respects_pollSettled answer
              {| globals := taken (stopCommand r); locals := closure;
                 self := self |}
              {| globals := taken r; locals := closure; self := self |})
    as [_ (Hl' & _ & Hc' & Hd' & Hk')].
  { now repeat split. }
  cbn. rewrite Hl', Hk'. auto.
Qed.

End Cancellation.

(** ** The count of emitted markers *)

Section ProgressBar.

Import Js GitHub Vscode CalculateProgress MizarFunctions Extension.

(** Lines 127-133 of mizarFunctions.ts on a snapshot of the open phase:
    the count never goes down, because ['#'.repeat] throws on a negative
    difference before the count is updated, and it stays within the bar. *)
Lemma appendProgress_count (percent : Z) (fr : Frame) :
  let fr' := snd (appendProgress percent fr) in
  numberOfProgress (locals fr) <= numberOfProgress (locals fr')
  /\ (numberOfProgress (locals fr) <= MAX_OUTPUT ->
      numberOfProgress (locals fr') <= MAX_OUTPUT).
Proof.
  unfold appendProgress, bind, read, lift, repeat, channel_, effect. cbn.
  pose proof (calculateProgressDiff_upper percent (numberOfProgress (locals fr))).
  destruct (Z.ltb_spec
              (calculateProgressDiff percent (numberOfProgress (locals fr))) 0);
    cbn; lia.
Qed.

(** X4: on a snapshot of the open phase, the count of emitted markers
    does not decrease, and a count within the bar stays within it. *)
Theorem X4_count_never_decreases_within_a_phase (percent : Z) (fr : Frame) :
  numberOfProgress (locals fr)
  <= numberOfProgress (locals (snd (appendProgress percent fr)))
  /\ (numberOfProgress (locals fr) <= MAX_OUTPUT ->
      numberOfProgress (locals (snd (appendProgress percent fr)))
      <= MAX_OUTPUT).
Proof. apply appendProgress_count. Qed.

Lemma barKept_refl a : barKept a a.
Proof. now intros H. Qed.

Lemma barKept_trans a b c : barKept a b -> barKept b c -> barKept a c.
Proof. unfold barKept. auto. Qed.

Lemma callsKept_refl a : callsKept a a.
Proof. reflexivity. Qed.

Lemma callsKept_trans a b c : callsKept a b -> callsKept b c -> callsKept a c.
Proof. unfold callsKept. congruence. Qed.

Ltac bar_leaf :=
  idtac;
  match goal with
  | |- barKept ?fr _ =>
      destruct fr as [g l s]; unfold barKept, withinBar, settle; cbn;
      try destruct (outcome l); cbn; lia
  | |- Steps barKept (channel_ _) => unfold channel_
  | |- Steps barKept resolve => unfold resolve, settle
  | |- Steps barKept (reject _) => unfold reject, settle
  | |- Steps barKept (fetched _) => unfold fetched
  end.

Lemma Steps_bar_appendProgress percent : Steps barKept (appendProgress percent).
Proof.
  intros fr [Hlow Hhigh].
  destruct (appendProgress_count percent fr) as [Hup Hbound].
  split; [lia | auto].
Qed.

Lemma Steps_bar_addMissingHashTags emitted errors :
  Steps barKept (addMissingHashTags emitted errors).
Proof.
  unfold addMissingHashTags.
  pose proof barKept_refl. pose proof barKept_trans.
  steps_with bar_leaf.
Qed.

Lemma Steps_bar_forEachPhase percent total phases :
  forall i, Steps barKept (forEachPhase percent total i phases).
Proof.
  pose proof barKept_refl. pose proof barKept_trans.
  induction phases as [| phase rest IH]; intros i; cbn [forEachPhase].
  - now apply Steps_ret.
  - steps_with bar_leaf; auto using Steps_bar_appendProgress.
Qed.

Lemma Steps_bar_onSnapshot json : Steps barKept (onSnapshot json).
Proof.
  pose proof barKept_refl. pose proof barKept_trans.
  unfold onSnapshot.
  steps_with bar_leaf;
    auto using Steps_bar_appendProgress, Steps_bar_addMissingHashTags,
      Steps_bar_forEachPhase.
Qed.

Lemma Steps_bar_pollSettled answer : Steps barKept (pollSettled answer).
Proof.
  pose proof barKept_refl. pose proof barKept_trans.
  unfold pollSettled.
  steps_with bar_leaf; auto using Steps_bar_onSnapshot.
Qed.

Lemma Steps_bar_submitSettled answer : Steps barKept (submitSettled answer).
Proof.
  pose proof barKept_refl. pose proof barKept_trans.
  unfold submitSettled.
  steps_with bar_leaf.
Qed.

Ltac calls_leaf :=
  idtac;
  match goal with
  | |- callsKept ?fr _ =>
      destruct fr as [g l s]; unfold callsKept, settle, stopInterval; cbn;
      try destruct (outcome l); try destruct (intervalId g); reflexivity
  | |- Steps callsKept (channel_ _) => unfold channel_
  | |- Steps callsKept resolve => unfold resolve, settle
  | |- Steps callsKept (reject _) => unfold reject, settle
  | |- Steps callsKept (fetched _) => unfold fetched
  | |- Steps callsKept (appendProgress _) => unfold appendProgress
  | |- Steps callsKept (addMissingHashTags _ _) => unfold addMissingHashTags
  end.

Lemma Steps_calls_forEachPhase percent total phases :
  forall i, Steps callsKept (forEachPhase percent total i phases).
Proof.
  pose proof callsKept_refl. pose proof callsKept_trans.
  induction phases as [| phase rest IH]; intros i; cbn [forEachPhase].
  - now apply Steps_ret.
  - steps_with calls_leaf. apply IH.
Qed.

Lemma Steps_calls_pollSettled answer : Steps callsKept (pollSettled answer).
Proof.
  pose proof callsKept_refl. pose proof callsKept_trans.
  unfold pollSettled, onSnapshot.
  steps_with calls_leaf; auto using Steps_calls_forEachPhase.
Qed.

Lemma Steps_calls_submitSettled answer : Steps callsKept (submitSettled answer).
Proof.
  pose proof callsKept_refl. pose proof callsKept_trans.
  unfold submitSettled.
  steps_with calls_leaf.
Qed.

Lemma Forall_putCall (P : Closure -> Prop) self c l :
  P c -> Forall P l -> Forall P (putCall self c l).
Proof.
  intros Hc Hl. revert self.
  induction Hl as [| x l Hx Hl IH]; intros [| self]; cbn; auto.
Qed.

Lemma inCall_withinBar self callback r r' :
  Steps barKept callback -> Steps callsKept callback ->
  inCall self callback r = Some r' ->
  Forall withinBar (calls r) -> Forall withinBar (calls r').
Proof.
  intros Hbar Hcalls Hin Hall. unfold inCall in Hin.
  destruct (nth_error (calls r) self) as [closure |] eqn:Hnth; [| discriminate].
  injection Hin as <-. cbn.
  set (fr := {| globals := r; locals := closure; self := self |}).
  rewrite (Hcalls fr). apply Forall_putCall; [| exact Hall].
  apply (Hbar fr). cbn.
  apply (proj1 (Forall_forall withinBar (calls r)) Hall).
  eapply nth_error_In. exact Hnth.
Qed.

Variable newOctokit : string -> Octokit.
Variable platform : Platform.

Lemma returnExecutingFunction_withinBar command bench r :
  Forall withinBar (calls r) ->
  Forall withinBar
    (calls (returnExecutingFunction newOctokit platform command bench r)).
Proof.
  intros Hall. unfold returnExecutingFunction.
  destruct (isExecuting r); [exact Hall |].
  destruct (activeTextEditor bench) as [target |]; [| exact Hall].
  destruct (negb _); [exact Hall |].
  destruct (matchRepositoryPath _) as [repositoryPath |]; [| exact Hall].
  destruct (String.eqb _ _); [exact Hall |].
  destruct (AutoCommit.commitChanges _ _ _ _ _ _) as [[e | []] h];
    [exact Hall |].
  cbn. apply Forall_app. split; [exact Hall |].
  constructor; [| constructor]. unfold withinBar, MAX_OUTPUT. cbn. lia.
Qed.

Lemma onDidDeleteFiles_calls files r : calls (onDidDeleteFiles files r) = calls r.
Proof.
  unfold onDidDeleteFiles. revert r.
  induction files as [| f rest IH]; intros r; cbn; [reflexivity |].
  now rewrite IH.
Qed.

Lemma step_withinBar e r r' :
  step newOctokit platform e r = Some r' ->
  Forall withinBar (calls r) -> Forall withinBar (calls r').
Proof.
  destruct e; cbn [step]; intros Hstep Hall.
  - destruct (commandOf cmd MIZAR_COMMANDS); [| discriminate].
    injection Hstep as <-. now apply returnExecutingFunction_withinBar.
  - injection Hstep as <-. unfold stopCommand.
    now destruct (intervalId r).
  - now injection Hstep as <-.
  - injection Hstep as <-. now rewrite onDidDeleteFiles_calls.
  - destruct (nth_error _ position); [| discriminate].
    eapply inCall_withinBar; eauto using Steps_bar_submitSettled,
      Steps_calls_submitSettled.
  - destruct (find _ _) as [[t self] |]; [| discriminate].
    destruct (nth_error _ self); [| discriminate].
    now injection Hstep as <-.
  - destruct (nth_error _ position); [| discriminate].
    now injection Hstep as <-.
  - destruct (nth_error _ position); [| discriminate].
    eapply inCall_withinBar; eauto using Steps_bar_pollSettled,
      Steps_calls_pollSettled.
  - destruct (cancellations (loop r)); [discriminate |].
    destruct answer; now injection Hstep as <-.
Qed.

(** Whatever the user does and whatever the servers answer, the number
    of markers emitted for the open phase of every job stays between 0
    and [MAX_OUTPUT]. *)
Lemma numberOfProgress_within_bar events :
  forall r r',
    run newOctokit platform events r = Some r' ->
    Forall withinBar (calls r) -> Forall withinBar (calls r').
Proof.
  induction events as [| e rest IH]; intros r r' Hrun Hall; cbn in Hrun.
  - now injection Hrun as <-.
  - destruct (step newOctokit platform e r) as [r1 |] eqn:Hstep; [| discriminate].
    eapply IH; [exact Hrun |]. eapply step_withinBar; eauto.
Qed.

(** X2: from the activation of the extension on, whatever the user does
    and whatever the servers answer, the number of markers emitted for
    the open phase of every job is between 0 and [MAX_OUTPUT]. *)
Theorem X2_count_always_within_bar
    (stored : option (list string)) (events : list Event) (r : Runtime) :
  run newOctokit platform events (activated stored) = Some r ->
  Forall withinBar (calls r).
Proof.
  intros Hrun.
  apply (numberOfProgress_within_bar events (activated stored) r Hrun).
  constructor.
Qed.

End ProgressBar.

Section JobExamples.

Import Js GitHub Vscode MizarFunctions Extension Scenario.

Lemma C2_every_tick_polls_witness :
  exists r',
    run (hosting synced) (workspace localFiles false)
      [Tick 1%positive; Tick 1%positive] polling = Some r'
    /\ pollsInFlight 0 r' = (2 + pollsInFlight 0 polling)%nat.
Proof.
  destruct (C2_every_tick_polls (hosting synced) (workspace localFiles false)
              1%positive 0%nat
              {| command := "verifier"; uri := documentAt "/o/r/a.miz";
                 ID := "J1"; numberOfProgress := 0; trackedPhases := [];
                 currentCommand := "makeenv"; outcome := Pending |}
              2%nat polling
              ltac:(vm_compute; reflexivity) ltac:(vm_compute; reflexivity))
    as (r' & Hrun & Hpolls & _).
  exists r'. split; [exact Hrun | exact Hpolls].
Defined.

(** C2 as stated fails: the job is submitted and accepted, and the timer
    ticks before the first poll has been answered; two poll requests of
    the same pending job are then in flight. *)
Lemma C2_two_polls_in_flight :
  option_map
    (fun r => (polls (loop r), pollsInFlight 0 r, map outcome (calls r)))
    (run (hosting synced) (workspace localFiles false)
       [Command "mizar-verify" bench; SubmitSettled 0 (inr "J1");
        Tick 1%positive]
       (activated None))
  = Some ([0%nat; 0%nat], 2%nat, [Pending]).
Proof. vm_compute. reflexivity. Qed.

Lemma C7_late_answer_handled_as_if_not_stopped_witness :
  exists r2,
    step (hosting synced) (workspace localFiles false)
      (PollSettled 0 (inr failedSnapshot)) (stopCommand polling) = Some r2
    /\ channel (host r2) = channel (host answered)
    /\ diagnostics (host r2) = diagnostics (host answered)
    /\ calls r2 = calls answered.
Proof.
  apply (C7_late_answer_handled_as_if_not_stopped (hosting synced)
           (workspace localFiles false) 0 (inr failedSnapshot) polling answered).
  vm_compute. reflexivity.
Defined.

(** C7 as stated fails: the user stops the command while the first poll
    is in flight, and its answer arrives afterwards.  The handler writes
    to the output channel (eleven more calls), sets the diagnostics of
    the document and resolves the job. *)
Lemma C7_late_answer_is_acted_on :
  (polls (loop (stopCommand polling)),
   List.length (channel (host (stopCommand polling))),
   diagnostics (host (stopCommand polling)),
   map outcome (calls (stopCommand polling)))
  = ([0%nat], 3%nat, [], [Pending])
  /\ option_map
       (fun r' =>
          (List.length (channel (host r')), diagnostics (host r'),
           map outcome (calls r'), map currentCommand (calls r')))
       (step (hosting synced) (workspace localFiles false)
          (PollSettled 0 (inr failedSnapshot)) (stopCommand polling))
     = Some (14%nat,
             [("/o/r/a.miz",
               [{| diag_line := 2; diag_character := 6;
                   diag_message := "Unknown label" |}])],
             [Resolved], ["verifier"]).
Proof. split; vm_compute; reflexivity. Qed.

(** What a negative difference does in [mizarVerify]: the server reports
    40 percent and then 20 percent of the same phase; ['#'.repeat] throws
    a [RangeError], the count stays at 20 markers, the timer is cleared
    and the job is rejected. *)
Lemma regressing_percentage_rejects_the_job :
  option_map
    (fun r =>
       (map numberOfProgress (calls r), map outcome (calls r),
        intervals (loop r)))
    (run (hosting synced) (workspace localFiles false)
       [Command "mizar-verify" bench; SubmitSettled 0 (inr "J1");
        PollSettled 0 (inr (parsing 40)); Tick 1%positive;
        PollSettled 0 (inr (parsing 20))]
       (activated None))
  = Some ([20], [Rejected (JsError "RangeError")], []).
Proof. vm_compute. reflexivity. Qed.

Lemma X2_count_always_within_bar_witness :
  Forall withinBar (calls polling).
Proof.
  apply (X2_count_always_within_bar (hosting synced)
           (workspace localFiles false) None
           [Command "mizar-verify" bench; SubmitSettled 0 (inr "J1")]
           polling).
  vm_compute. reflexivity.
Defined.

End JobExamples.

(* ===================================================================== *)
(** * Further properties *)
(* ===================================================================== *)

(** ** Strings *)

Section Strings.

Lemma append_assoc (a b c : string) : (a ++ b) ++ c = a ++ b ++ c.
Proof. induction a as [| x a IH]; cbn; [reflexivity | now rewrite IH]. Qed.

Lemma length_append (a b : string) :
  String.length (a ++ b) = (String.length a + String.length b)%nat.
Proof. induction a; cbn; auto. Qed.

Lemma length_replicate (n : nat) (c : ascii) :
  String.length (JsString.replicate n c) = n.
Proof. induction n; cbn; auto. Qed.

Lemma drop_app (a b : string) : JsString.drop (String.length a) (a ++ b) = b.
Proof. induction a; cbn; auto. Qed.

Lemma drop_app_le (n : nat) (a b : string) :
  (n <= String.length a)%nat ->
  JsString.drop n (a ++ b) = JsString.drop n a ++ b.
Proof.
  revert a. induction n as [| n IH]; intros a Hn; [reflexivity |].
  destruct a as [| c a]; cbn in *; [lia |]. apply IH. lia.
Qed.

Lemma drop_drop (n m : nat) (s : string) :
  JsString.drop n (JsString.drop m s) = JsString.drop (m + n) s.
Proof.
  revert s. induction m as [| m IH]; intros s; cbn; [reflexivity |].
  destruct s; [now destruct n | apply IH].
Qed.

Lemma length_drop (n : nat) (s : string) :
  String.length (JsString.drop n s) = (String.length s - n)%nat.
Proof.
  revert s. induction n as [| n IH]; intros s; cbn; [lia |].
  destruct s; cbn; [reflexivity | apply IH].
Qed.

Lemma take_drop (n : nat) (s : string) :
  JsString.take n s ++ JsString.drop n s = s.
Proof.
  revert s. induction n as [| n IH]; intros s; [reflexivity |].
  destruct s as [| c s]; cbn; [reflexivity |]. now rewrite IH.
Qed.

Lemma prefix_cons (c d : ascii) (a s : string) :
  String.prefix (String c a) (String d s)
  = if Ascii.eqb c d then String.prefix a s else false.
Proof.
  cbn [String.prefix]. destruct (ascii_dec c d) as [<- | Hne].
  - now rewrite Ascii.eqb_refl.
  - apply Ascii.eqb_neq in Hne. now rewrite Hne.
Qed.

Lemma prefix_empty (s : string) : String.prefix "" s = true.
Proof. now destruct s. Qed.

Lemma indexOf_lower (s sub : string) : -1 <= JsString.indexOf s sub.
Proof.
  induction s as [| c s IH]; cbn [JsString.indexOf].
  - destruct (String.prefix sub ""); lia.
  - destruct (String.prefix sub (String c s)); [lia |].
    cbv zeta. destruct (Z.ltb_spec (JsString.indexOf s sub) 0); lia.
Qed.

(** [indexOf] gives the first position at which the pattern starts. *)
Lemma indexOf_first (s sub : string) (n : nat) :
  (forall j, (j < n)%nat -> String.prefix sub (JsString.drop j s) = false) ->
  String.prefix sub (JsString.drop n s) = true ->
  JsString.indexOf s sub = Z.of_nat n.
Proof.
  revert s. induction n as [| n IH]; intros s Hbefore Hat.
  - cbn in Hat. destruct s; cbn [JsString.indexOf]; now rewrite Hat.
  - destruct s as [| c s].
    + cbn in Hat. specialize (Hbefore 0%nat ltac:(lia)). cbn in Hbefore.
      congruence.
    + cbn [JsString.indexOf].
      pose proof (Hbefore 0%nat ltac:(lia)) as H0. cbn [JsString.drop] in H0.
      rewrite H0.
      rewrite (IH s); [| | exact Hat].
      * cbv zeta. destruct (Z.ltb_spec (Z.of_nat n) 0); lia.
      * intros j Hj. apply (Hbefore (S j)). lia.
Qed.

Lemma indexOf_found (s sub : string) :
  0 <= JsString.indexOf s sub ->
  String.prefix sub (JsString.drop (Z.to_nat (JsString.indexOf s sub)) s) = true.
Proof.
  induction s as [| c s IH]; cbn [JsString.indexOf].
  - destruct (String.prefix sub "") eqn:E; [now cbn | lia].
  - destruct (String.prefix sub (String c s)) eqn:E; [now cbn |].
    cbv zeta. pose proof (indexOf_lower s sub).
    destruct (Z.ltb_spec (JsString.indexOf s sub) 0); [lia |].
    intros _. replace (Z.to_nat (JsString.indexOf s sub + 1))
      with (S (Z.to_nat (JsString.indexOf s sub))) by lia.
    cbn. now apply IH.
Qed.

Lemma indexOf_at_start (s sub : string) :
  String.prefix sub s = true -> JsString.indexOf s sub = 0.
Proof. intros H. destruct s; cbn [JsString.indexOf]; now rewrite H. Qed.

End Strings.

(** ** The repository of a document *)

Section RepositoryPath.

Import AutoCommit Extension Notions.

Lemma slashFree_app (a b : string) :
  slashFree (a ++ b) = slashFree a && slashFree b.
Proof.
  induction a as [| c a IH]; cbn; [reflexivity |].
  rewrite IH. now rewrite andb_assoc.
Qed.

Lemma slashFree_drop (n : nat) (s : string) :
  slashFree s = true -> slashFree (JsString.drop n s) = true.
Proof.
  revert s. induction n as [| n IH]; intros s H; [exact H |].
  destruct s as [| c s]; [exact H |]. cbn in *.
  apply andb_prop in H. now apply IH.
Qed.

Lemma segment_slashFree (s : string) : slashFree (segment s) = true.
Proof.
  induction s as [| c s IH]; cbn; [reflexivity |].
  destruct (Ascii.eqb c "/") eqn:E; cbn; [reflexivity |].
  now rewrite E, IH.
Qed.

(** A text is its first segment followed by nothing or by a slash. *)
Lemma segment_rest (s : string) :
  s = segment s ++ JsString.drop (String.length (segment s)) s
  /\ (JsString.drop (String.length (segment s)) s = ""
      \/ exists t, JsString.drop (String.length (segment s)) s = "/" ++ t).
Proof.
  induction s as [| c s [IH1 IH2]]; cbn; [now split; [| left] |].
  destruct (Ascii.eqb_spec c "/") as [-> | Hne]; cbn.
  - split; [reflexivity | right; now exists s].
  - split; [now rewrite <- IH1 | exact IH2].
Qed.

Lemma segment_before_slash (s t : string) :
  slashFree s = true -> segment (s ++ "/" ++ t) = s.
Proof.
  change (s ++ "/" ++ t) with (s ++ String "/" t).
  induction s as [| c s IH]; cbn; [reflexivity |].
  intros H. apply andb_prop in H. destruct H as [Hc Hs].
  destruct (Ascii.eqb c "/"); [discriminate |]. now rewrite IH.
Qed.

Lemma segment_whole (s : string) : slashFree s = true -> segment s = s.
Proof.
  induction s as [| c s IH]; cbn; [reflexivity |].
  intros H. apply andb_prop in H. destruct H as [Hc Hs].
  destruct (Ascii.eqb c "/"); [discriminate |]. now rewrite IH.
Qed.

Lemma slashSegment_spec (p seg rest : string) :
  slashSegment p = Some (seg, rest) <->
  p = "/" ++ seg ++ rest /\ seg <> "" /\ slashFree seg = true
  /\ (rest = "" \/ exists t, rest = "/" ++ t).
Proof.
  split.
  - destruct p as [| c p]; cbn; [discriminate |].
    destruct (Ascii.eqb_spec c "/") as [-> |]; [| discriminate].
    destruct (String.eqb_spec (segment p) "") as [| Hne]; [discriminate |].
    intros H. injection H as <- <-.
    destruct (segment_rest p) as [Hp Hrest].
    repeat split; [now rewrite <- Hp | exact Hne | apply segment_slashFree
                  | exact Hrest].
  - intros (-> & Hne & Hfree & Hrest). cbn.
    assert (segment (seg ++ rest) = seg) as Hseg.
    { destruct Hrest as [-> | [t ->]].
      - replace (seg ++ "") with seg by (clear; induction seg; cbn; congruence).
        now apply segment_whole.
      - now apply segment_before_slash. }
    rewrite Hseg. destruct (String.eqb_spec seg ""); [contradiction |].
    now rewrite drop_app.
Qed.

Lemma splitAll_slashFree (s : string) :
  slashFree s = true -> JsString.splitAll "/" s = [s].
Proof.
  induction s as [| c s IH]; cbn; [reflexivity |].
  intros H. apply andb_prop in H. destruct H as [Hc Hs].
  destruct (Ascii.eqb c "/"); [discriminate |]. now rewrite IH.
Qed.

Lemma splitAll_segment (s t : string) :
  slashFree s = true ->
  JsString.splitAll "/" (s ++ "/" ++ t) = s :: JsString.splitAll "/" t.
Proof.
  change (s ++ "/" ++ t) with (s ++ String "/" t).
  induction s as [| c s IH]; cbn; [reflexivity |].
  intros H. apply andb_prop in H. destruct H as [Hc Hs].
  destruct (Ascii.eqb c "/"); [discriminate |]. now rewrite IH.
Qed.

(** [repositoryPath.split('/', 3)] on [/owner/repo]. *)
Lemma split_repositoryPath (owner repo : string) :
  slashFree owner = true -> slashFree repo = true ->
  JsString.split ("/" ++ owner ++ "/" ++ repo) "/" 3 = [""; owner; repo].
Proof.
  intros Howner Hrepo. unfold JsString.split.
  change ("/" ++ owner ++ "/" ++ repo) with ("" ++ "/" ++ owner ++ "/" ++ repo).
  rewrite splitAll_segment by reflexivity.
  rewrite splitAll_segment by exact Howner.
  now rewrite splitAll_slashFree.
Qed.

(** X5: the repository path of a document.  The match of
    [/^((\/[^/]+){2})/] on a path is [/owner/repo] exactly when the path
    is [/owner/repo] followed by nothing or by a slash, with [owner] and
    [repo] not empty and without a slash; and [split('/', 3)] of the
    match gives that owner and that repo back. *)
Theorem X5_repository_path_is_the_first_two_segments (p q : string) :
  matchRepositoryPath p = Some q <->
  exists owner repo rest,
    p = q ++ rest
    /\ q = "/" ++ owner ++ "/" ++ repo
    /\ owner <> "" /\ repo <> ""
    /\ slashFree owner = true /\ slashFree repo = true
    /\ (rest = "" \/ exists t, rest = "/" ++ t)
    /\ JsString.split q "/" 3 = [""; owner; repo].
Proof.
  unfold matchRepositoryPath. split.
  - destruct (slashSegment p) as [[owner rest1] |] eqn:H1; [| discriminate].
    destruct (slashSegment rest1) as [[repo rest] |] eqn:H2; [| discriminate].
    intros H. injection H as <-.
    apply slashSegment_spec in H1, H2.
    destruct H1 as (-> & Ho & Hof & _), H2 as (-> & Hr & Hrf & Hrest).
    exists owner, repo, rest. repeat split; try assumption.
    + cbn. now rewrite !append_assoc.
    + now apply split_repositoryPath.
  - intros (owner & repo & rest & -> & -> & Ho & Hr & Hof & Hrf & Hrest & _).
    assert (slashSegment (("/" ++ owner ++ "/" ++ repo) ++ rest)
            = Some (owner, "/" ++ repo ++ rest)) as ->.
    { apply slashSegment_spec. repeat split; try assumption.
      - cbn. now rewrite !append_assoc.
      - right. now exists (repo ++ rest). }
    assert (slashSegment ("/" ++ repo ++ rest) = Some (repo, rest)) as ->.
    { apply slashSegment_spec. now repeat split. }
    reflexivity.
Qed.

End RepositoryPath.

(** ** The path of a file inside its repository *)

Section RepoFilePath.

Import AutoCommit Notions.

(** What [p.substring(p.indexOf(`${repo}/`)).replace(`${repo}/`, '')]
    comes to: the text after the first [repo/], or the whole path when
    there is none. *)
Lemma repoFilePathOf_closed (repo filePath : string) :
  repoFilePathOf repo filePath =
  let i := JsString.indexOf filePath (repo ++ "/") in
  if i <? 0 then filePath
  else JsString.drop (Z.to_nat i + String.length (repo ++ "/")) filePath.
Proof.
  unfold repoFilePathOf. cbv zeta.
  set (pat := repo ++ "/"). set (i := JsString.indexOf filePath pat).
  pose proof (indexOf_lower filePath pat) as Hlow. fold i in Hlow.
  destruct (Z.ltb_spec i 0) as [Hneg | Hpos].
  - unfold JsString.substring. replace (Z.max 0 i) with 0 by lia.
    cbn [Z.to_nat JsString.drop].
    unfold JsString.replace. fold i. destruct (Z.ltb_spec i 0); [reflexivity | lia].
  - unfold JsString.substring. replace (Z.max 0 i) with i by lia.
    pose proof (indexOf_found filePath pat Hpos) as Hfound. fold i in Hfound.
    unfold JsString.replace. rewrite (indexOf_at_start _ _ Hfound).
    cbn. now rewrite drop_drop.
Qed.

(** A pattern [repo/] starts a text [s/...] just when [repo] is [s], for
    [repo] and [s] without a slash. *)
Lemma prefix_segment (repo s t : string) :
  slashFree repo = true -> slashFree s = true ->
  String.prefix (repo ++ "/") (s ++ "/" ++ t) = String.eqb repo s.
Proof.
  revert s. induction repo as [| c repo IH]; intros s Hrepo Hs.
  - destruct s as [| d s]; cbn [append String.eqb]; rewrite prefix_cons.
    + now rewrite prefix_empty.
    + cbn in Hs. apply andb_prop in Hs. destruct Hs as [Hd _].
      rewrite Ascii.eqb_sym. now destruct (Ascii.eqb d "/").
  - cbn in Hrepo. apply andb_prop in Hrepo. destruct Hrepo as [Hc Hrepo].
    destruct s as [| d s]; cbn [append String.eqb]; rewrite prefix_cons.
    + now destruct (Ascii.eqb c "/").
    + cbn in Hs. apply andb_prop in Hs. destruct Hs as [_ Hs].
      destruct (Ascii.eqb c d); [now apply IH | reflexivity].
Qed.

Section FirstOccurrence.

Variables owner repo rel : string.
Hypothesis owner_slashFree : slashFree owner = true.
Hypothesis repo_slashFree : slashFree repo = true.
Hypothesis repo_named : repo <> "".

Local Abbreviation filePath := ("/" ++ owner ++ "/" ++ repo ++ "/" ++ rel).

Lemma repo_not_at_start : String.prefix (repo ++ "/") filePath = false.
Proof.
  destruct repo as [| c r]; [contradiction |].
  cbn [append]. rewrite prefix_cons.
  cbn in repo_slashFree. apply andb_prop in repo_slashFree.
  destruct repo_slashFree as [Hc _]. now destruct (Ascii.eqb c "/").
Qed.

Lemma repo_inside_owner (j : nat) :
  (j <= String.length owner)%nat ->
  String.prefix (repo ++ "/") (JsString.drop (S j) filePath)
  = String.eqb repo (JsString.drop j owner).
Proof.
  intros Hj. cbn [JsString.drop append].
  rewrite drop_app_le by exact Hj.
  apply prefix_segment; [exact repo_slashFree | now apply slashFree_drop].
Qed.

Lemma repo_after_owner :
  JsString.drop (S (S (String.length owner))) filePath = (repo ++ "/") ++ rel.
Proof.
  change (JsString.drop (S (S (String.length owner))) filePath)
    with (JsString.drop (S (String.length owner))
            (owner ++ "/" ++ repo ++ "/" ++ rel)).
  replace (S (String.length owner)) with (String.length (owner ++ "/"))
    by (rewrite length_append; cbn; lia).
  replace (owner ++ "/" ++ repo ++ "/" ++ rel)
    with ((owner ++ "/") ++ (repo ++ "/") ++ rel)
    by (rewrite !append_assoc; reflexivity).
  apply drop_app.
Qed.

(** When [owner] does not end with [repo], the first [repo/] of
    [/owner/repo/rel] is the repository segment. *)
Lemma indexOf_repo_segment :
  (forall pre, owner <> pre ++ repo) ->
  JsString.indexOf filePath (repo ++ "/")
  = Z.of_nat (S (S (String.length owner))).
Proof.
  intros Hsuffix. apply indexOf_first.
  - intros [| j] Hj; [exact repo_not_at_start |].
    rewrite repo_inside_owner by lia. apply String.eqb_neq.
    intros E. apply (Hsuffix (JsString.take j owner)).
    rewrite E. symmetry. apply take_drop.
  - rewrite repo_after_owner. apply prefix_append.
Qed.

End FirstOccurrence.

(** When [owner] ends with [repo], the first [repo/] of [/owner/repo/rel]
    is the end of the owner segment. *)
Lemma indexOf_repo_in_owner (pre repo rel : string) :
  slashFree pre = true -> slashFree repo = true -> repo <> "" ->
  JsString.indexOf ("/" ++ (pre ++ repo) ++ "/" ++ repo ++ "/" ++ rel) (repo ++ "/")
  = Z.of_nat (S (String.length pre)).
Proof.
  intros Hpre Hrepo Hne.
  assert (slashFree (pre ++ repo) = true) as Howner
      by (rewrite slashFree_app, Hpre, Hrepo; reflexivity).
  apply indexOf_first.
  - intros [| j] Hj; [now apply repo_not_at_start |].
    rewrite repo_inside_owner by (try assumption; rewrite length_append; lia).
    apply String.eqb_neq. intros E.
    apply (f_equal String.length) in E.
    rewrite drop_app_le, length_append, length_drop in E by lia.
    lia.
  - rewrite repo_inside_owner by (try assumption; rewrite length_append; lia).
    rewrite drop_app. apply String.eqb_refl.
Qed.

(** X6: the path of a file inside its repository.  For a file
    [/owner/repo/rel] of a repository whose owner's name does not end
    with the name of the repository, the path that is committed is
    [rel]. *)
Theorem X6_file_path_inside_the_repository (owner repo rel : string) :
  slashFree owner = true -> slashFree repo = true -> repo <> "" ->
  (forall pre, owner <> pre ++ repo) ->
  repoFilePathOf repo ("/" ++ owner ++ "/" ++ repo ++ "/" ++ rel) = rel.
Proof.
  intros Howner Hrepo Hne Hsuffix.
  rewrite repoFilePathOf_closed. cbv zeta.
  rewrite (indexOf_repo_segment owner repo rel Howner Hrepo Hne Hsuffix).
  destruct (Z.ltb_spec (Z.of_nat (S (S (String.length owner)))) 0); [lia |].
  rewrite Nat2Z.id, <- drop_drop, repo_after_owner. apply drop_app.
Qed.

(** X7: when the owner's name ends with the name of the repository (the
    two are the same, say), [indexOf] finds [repo/] in the owner
    segment, and the path that is committed for [/owner/repo/rel] is
    [repo/rel], not [rel]. *)
Theorem X7_file_path_when_owner_ends_with_repo (pre repo rel : string) :
  slashFree pre = true -> slashFree repo = true -> repo <> "" ->
  repoFilePathOf repo ("/" ++ (pre ++ repo) ++ "/" ++ repo ++ "/" ++ rel)
  = repo ++ "/" ++ rel.
Proof.
  intros Hpre Hrepo Hne.
  rewrite repoFilePathOf_closed. cbv zeta.
  rewrite (indexOf_repo_in_owner pre repo rel Hpre Hrepo Hne).
  destruct (Z.ltb_spec (Z.of_nat (S (String.length pre))) 0); [lia |].
  rewrite Nat2Z.id, <- drop_drop.
  change (JsString.drop (S (String.length pre))
            ("/" ++ (pre ++ repo) ++ "/" ++ repo ++ "/" ++ rel))
    with (JsString.drop (String.length pre)
            ((pre ++ repo) ++ "/" ++ repo ++ "/" ++ rel)).
  rewrite append_assoc, drop_app.
  replace (repo ++ "/" ++ repo ++ "/" ++ rel)
    with ((repo ++ "/") ++ repo ++ "/" ++ rel)
    by (rewrite append_assoc; reflexivity).
  apply drop_app.
Qed.

End RepoFilePath.

(** ** Committing the active file *)

Section ActiveFile.

Import Js GitHub Vscode AutoCommit Notions.

Variable newOctokit : string -> Octokit.
Variable platform : Platform.
Variable token : string.

Local Abbreviation octokit := (newOctokit token).

Lemma onlyRequests_refl h : onlyRequests h h.
Proof. now repeat split. Qed.

Lemma onlyRequests_trans h1 h2 h3 :
  onlyRequests h1 h2 -> onlyRequests h2 h3 -> onlyRequests h1 h3.
Proof.
  intros (? & ? & ? & ? & ?) (? & ? & ? & ? & ?). repeat split; congruence.
Qed.

Lemma onlyRequests_request h c :
  onlyRequests h (set_github (github h ++ [c]) h).
Proof. now repeat split. Qed.

Lemma ensureBranchExists_onlyRequests owner repo h :
  onlyRequests h (snd (ensureBranchExists octokit owner repo h)).
Proof.
  apply (Steps_ensureBranchExists octokit onlyRequests onlyRequests_refl
           onlyRequests_trans onlyRequests_request).
Qed.

Lemma pushCommit_onlyRequests owner repo treeList latest h :
  onlyRequests h (snd (pushCommit octokit owner repo treeList latest h)).
Proof.
  apply (Steps_pushCommit octokit onlyRequests onlyRequests_trans
           onlyRequests_request).
Qed.

(** [commitActiveFile], stage by stage. *)
Lemma commitActiveFile_stages uri documentText repositoryPath h :
  let owner := nth 1 (JsString.split repositoryPath "/" 3) "" in
  let repo := nth 2 (JsString.split repositoryPath "/" 3) "" in
  let file := repoFilePathOf repo (path uri) in
  commitActiveFile newOctokit platform uri documentText token repositoryPath h =
  match ensureBranchExists octokit owner repo h with
  | (inl e, h1) => (inl e, failed e h1)
  | (inr _, h1) =>
      let h2 := set_github (github h1 ++ [GetBranch owner repo branch]) h1 in
      match octokit (github h1) (GetBranch owner repo branch) with
      | inl e => (inl e, failed e h2)
      | inr latest =>
          let h3 := set_github (github h2 ++ [GetContent owner repo file branch]) h2 in
          let h4 := set_github (github h3 ++ [CreateBlob owner repo documentText]) h3 in
          let push sha :=
            match pushCommit octokit owner repo [blobEntry file sha] latest h4 with
            | (inl e, h5) => (inl e, failed e h5)
            | (inr _, h5) => (inr tt, h5)
            end in
          match octokit (github h2) (GetContent owner repo file branch) with
          | inr data =>
              if String.eqb (remoteContent platform data) documentText
              then (inr tt, h3)
              else
                match octokit (github h3) (CreateBlob owner repo documentText) with
                | inr sha => push sha
                | inl e =>
                    if hasStatus e 404 then
                      let h4' :=
                        set_github (github h4 ++ [CreateBlob owner repo documentText]) h4 in
                      match octokit (github h4) (CreateBlob owner repo documentText) with
                      | inr sha =>
                          match pushCommit octokit owner repo [blobEntry file sha]
                                  latest h4' with
                          | (inl e, h5) => (inl e, failed e h5)
                          | (inr _, h5) => (inr tt, h5)
                          end
                      | inl e' => (inl e', failed e' h4')
                      end
                    else (inl e, failed e (failed e h4))
                end
          | inl e =>
              if hasStatus e 404 then
                match octokit (github h3) (CreateBlob owner repo documentText) with
                | inr sha => push sha
                | inl e' => (inl e', failed e' h4)
                end
              else (inl e, failed e (failed e h3))
          end
      end
  end.
Proof.
  intros owner repo file.
  unfold commitActiveFile. cbv zeta. fold owner repo. fold file.
  unfold try_catch at 1. unfold bind at 1.
  destruct (ensureBranchExists octokit owner repo h) as [[e | []] h1];
    [reflexivity |].
  unfold bind at 1. unfold request at 1.
  destruct (octokit (github h1) (GetBranch owner repo branch)) as [e | latest];
    [reflexivity |].
  unfold bind at 1. unfold try_catch at 1. unfold bind at 1. unfold request at 1.
  cbn [github set_github].
  destruct (octokit _ (GetContent owner repo file branch)) as [e | data].
  - destruct (hasStatus e 404).
    + unfold bind at 1. unfold request at 1. cbn [github set_github].
      destruct (octokit _ (CreateBlob owner repo documentText)) as [e' | sha];
        [reflexivity |].
      unfold ret.
      destruct (pushCommit octokit owner repo [blobEntry file sha] latest _)
        as [[e5 | []] h5]; reflexivity.
    + reflexivity.
  - destruct (String.eqb (remoteContent platform data) documentText);
      [reflexivity |].
    unfold bind at 1. unfold request at 1. cbn [github set_github].
    destruct (octokit _ (CreateBlob owner repo documentText)) as [e | sha].
    + destruct (hasStatus e 404); [| reflexivity].
      unfold bind at 1. unfold request at 1. cbn [github set_github].
      destruct (octokit _ (CreateBlob owner repo documentText)) as [e' | sha];
        [reflexivity |].
      unfold ret.
      destruct (pushCommit octokit owner repo [blobEntry file sha] latest _)
        as [[e5 | []] h5]; reflexivity.
    + unfold ret.
      destruct (pushCommit octokit owner repo [blobEntry file sha] latest _)
        as [[e5 | []] h5]; reflexivity.
Qed.

(** What a commit of one entry leaves behind besides its requests. *)
Lemma pushCommit_shown owner repo treeList latest h h4 :
  onlyRequests h h4 ->
  let run :=
    match pushCommit octokit owner repo treeList latest h4 with
    | (inl e, h5) => (@inl Exn unit e, failed e h5)
    | (inr _, h5) => (inr tt, h5)
    end in
  changedFilePaths (snd run) = changedFilePaths h
  /\ server (snd run) = server h
  /\ channel (snd run) = channel h
  /\ diagnostics (snd run) = diagnostics h
  /\ match fst run with
     | inr _ => messages (snd run) = messages h
     | inl e =>
         let shown := ErrorMessage "Failed to commit changes. Error: " (Some e) in
         messages (snd run) = (messages h ++ [shown])%list
         \/ messages (snd run) = (messages h ++ [shown; shown])%list
     end.
Proof.
  intros (Hm & Hc & Hd & Hp & Hs). cbv zeta.
  pose proof (pushCommit_onlyRequests owner repo treeList latest h4) as K5.
  destruct (pushCommit octokit owner repo treeList latest h4)
    as [[e | []] h5]; cbn [snd] in K5;
    destruct K5 as (Km5 & Kc5 & Kd5 & Kp5 & Ks5); cbn;
    rewrite ?Km5, ?Kc5, ?Kd5, ?Kp5, ?Ks5, ?Hm, ?Hc, ?Hd, ?Hp, ?Hs; auto 6.
Qed.

(** X8: a failure of [commitActiveFile] is shown and thrown.  Besides
    its requests the function leaves nothing behind when it returns;
    when it throws, it has shown the failure message about the error it
    throws, once, or twice when the lookup of the content failed with
    another status than 404.  The change set, the job server, the output
    and the diagnostics are never touched. *)
Theorem X8_active_file_failure_is_shown_and_thrown
    (uri : Uri) (documentText repositoryPath : string) (h : Host) :
  let run :=
    commitActiveFile newOctokit platform uri documentText token repositoryPath h in
  changedFilePaths (snd run) = changedFilePaths h
  /\ server (snd run) = server h
  /\ channel (snd run) = channel h
  /\ diagnostics (snd run) = diagnostics h
  /\ match fst run with
     | inr _ => messages (snd run) = messages h
     | inl e =>
         let shown := ErrorMessage "Failed to commit changes. Error: " (Some e) in
         messages (snd run) = (messages h ++ [shown])%list
         \/ messages (snd run) = (messages h ++ [shown; shown])%list
     end.
Proof.
  cbv zeta. rewrite commitActiveFile_stages. cbv zeta.
  set (owner := nth 1 _ _). set (repo := nth 2 _ _).
  set (file := repoFilePathOf repo (path uri)).
  pose proof (ensureBranchExists_onlyRequests owner repo h) as K1.
  destruct (ensureBranchExists octokit owner repo h) as [[e | []] h1];
    cbn [snd] in K1; destruct K1 as (Km & Kc & Kd & Kp & Ks).
  { cbn. rewrite Km. auto 6. }
  pose proof (fun sha latest h4 =>
                pushCommit_shown owner repo [blobEntry file sha] latest h h4)
    as Hpush.
  cbv zeta in Hpush.
  destruct (octokit (github h1) (GetBranch owner repo branch)) as [e | latest].
  { cbn. rewrite Km. auto 6. }
  destruct (octokit _ (GetContent owner repo file branch)) as [e | data].
  - destruct (hasStatus e 404).
    + destruct (octokit _ (CreateBlob owner repo documentText)) as [e' | sha].
      * cbn. rewrite Km. auto 6.
      * apply Hpush. now repeat split.
    + cbn. rewrite Km, <- app_assoc. auto 6.
  - destruct (String.eqb (remoteContent platform data) documentText).
    { cbn. auto 6. }
    destruct (octokit _ (CreateBlob owner repo documentText)) as [e | sha].
    + destruct (hasStatus e 404).
      * destruct (octokit _ (CreateBlob owner repo documentText)) as [e' | sha].
        -- cbn. rewrite Km. auto 6.
        -- apply Hpush. now repeat split.
      * cbn. rewrite Km, <- app_assoc. auto 6.
    + apply Hpush. now repeat split.
Qed.

(** X9: one file, one commit.  With the branch in place and every
    request answered, [commitActiveFile] only reads when the branch
    holds the text of the document; when the branch holds another text,
    or has no such file, it creates one blob, one tree of one entry on
    the latest commit, one commit with that commit as its only parent,
    and moves the branch once.  Nothing else changes. *)
Theorem X9_active_file_one_commit
    (uri : Uri) (documentText repositoryPath : string) (h : Host)
    (names : list string) (latest : string) :
  let owner := nth 1 (JsString.split repositoryPath "/" 3) "" in
  let repo := nth 2 (JsString.split repositoryPath "/" 3) "" in
  let file := repoFilePathOf repo (path uri) in
  let run :=
    commitActiveFile newOctokit platform uri documentText token repositoryPath h in
  Always octokit (ListBranches owner repo) (inr names) ->
  In "verifier" names ->
  Always octokit (GetBranch owner repo "verifier") (inr latest) ->
  (forall data,
      Always octokit (GetContent owner repo file "verifier") (inr data) ->
      remoteContent platform data = documentText ->
      run =
      (inr tt,
       set_github
         (github h ++ [ListBranches owner repo;
                       GetBranch owner repo "verifier";
                       GetContent owner repo file "verifier"]) h))
  /\
  (forall sha tree commit,
      Always octokit (GetContent owner repo file "verifier") (inl (HttpError 404))
      \/ (exists data,
             Always octokit (GetContent owner repo file "verifier") (inr data)
             /\ remoteContent platform data <> documentText) ->
      Always octokit (CreateBlob owner repo documentText) (inr sha) ->
      Always octokit (CreateTree owner repo [blobEntry file sha] latest) (inr tree) ->
      Always octokit (CreateCommit owner repo commitMessage tree [latest]) (inr commit) ->
      Always octokit (UpdateRef owner repo "heads/verifier" commit) (inr tt) ->
      run =
      (inr tt,
       set_github
         (github h ++ [ListBranches owner repo;
                       GetBranch owner repo "verifier";
                       GetContent owner repo file "verifier";
                       CreateBlob owner repo documentText;
                       CreateTree owner repo [blobEntry file sha] latest;
                       CreateCommit owner repo commitMessage tree [latest];
                       UpdateRef owner repo "heads/verifier" commit]) h)).
Proof.
  intros owner repo file run Hlist Hexists Hlatest.
  assert (existsb (fun name => String.eqb name "verifier") names = true)
    as Hfound.
  { apply existsb_exists. exists "verifier". split; [exact Hexists |].
    apply String.eqb_refl. }
  subst run. rewrite commitActiveFile_stages. cbv zeta.
  fold owner repo. fold file.
  rewrite ensureBranchExists_requests. cbv zeta. rewrite Hlist, Hfound.
  unfold branch. rewrite Hlatest. cbn [github set_github].
  split.
  - intros data Hdata Hsame. rewrite Hdata, Hsame, String.eqb_refl.
    unfold set_github. cbn. now rewrite <- !app_assoc.
  - intros sha tree commit Hremote Hblob Htree Hcommit Href.
    assert (forall h4,
               pushCommit octokit owner repo [blobEntry file sha] latest h4
               = (inr tt,
                  set_github
                    (github h4 ++ [CreateTree owner repo [blobEntry file sha] latest;
                                   CreateCommit owner repo commitMessage tree [latest];
                                   UpdateRef owner repo "heads/verifier" commit]) h4))
      as Hpush.
    { intros h4. unfold pushCommit, bind, request. cbn [github set_github].
      rewrite Htree, Hcommit. unfold branch. cbn [append]. rewrite Href.
      unfold set_github. cbn. now rewrite <- !app_assoc. }
    destruct Hremote as [Habsent | (data & Hdata & Hdiffers)].
    + rewrite Habsent. cbn [hasStatus status Z.eqb Pos.eqb]. rewrite Hblob, Hpush.
      unfold set_github. cbn. now rewrite <- !app_assoc.
    + rewrite Hdata. apply String.eqb_neq in Hdiffers. rewrite Hdiffers.
      rewrite Hblob, Hpush. unfold set_github. cbn. now rewrite <- !app_assoc.
Qed.

End ActiveFile.

(** ** The requests of a sync, by kind *)

Section Kinds.

Import Js GitHub Vscode AutoCommit Notions.

Variable octokit : Octokit.
Variable platform : Platform.
Variable K : Call -> Prop.

Lemma adds_refl h : adds K h h.
Proof. exists []. split; [now rewrite app_nil_r | constructor]. Qed.

Lemma adds_trans h1 h2 h3 : adds K h1 h2 -> adds K h2 h3 -> adds K h1 h3.
Proof.
  intros (l1 & H1 & K1) (l2 & H2 & K2). exists (l1 ++ l2)%list. split.
  - now rewrite H2, H1, app_assoc.
  - apply Forall_app. now split.
Qed.

Lemma adds_request c : K c -> Steps (adds K) (request octokit c).
Proof. intros Hc h. exists [c]. split; [reflexivity | now constructor]. Qed.

Lemma adds_failed e h : adds K h (failed e h).
Proof. exists []. split; [cbn; now rewrite app_nil_r | constructor]. Qed.

Ltac kind_leaf :=
  idtac;
  match goal with
  | |- Steps _ (request _ ?c) => apply adds_request; auto
  | |- Steps _ (unawaited _) => apply Steps_unawaited
  | |- Steps _ (failedToCommit _) => unfold failedToCommit
  | |- adds _ ?h (failed _ ?h) => apply adds_failed
  end.

Lemma adds_ensureBranchExists owner repo :
  K (ListBranches owner repo) -> K (ReposGet owner repo) ->
  (forall ref, K (GetRef owner repo ref)) ->
  (forall ref sha, K (CreateRef owner repo ref sha)) ->
  Steps (adds K) (ensureBranchExists octokit owner repo).
Proof.
  intros. pose proof adds_refl. pose proof adds_trans.
  unfold ensureBranchExists, getDefaultBranch. steps_with kind_leaf.
Qed.

Lemma adds_diffDocument owner repo p text treeList :
  (forall q ref, K (GetContent owner repo q ref)) ->
  (forall content, K (CreateBlob owner repo content)) ->
  Steps (adds K) (diffDocument octokit platform owner repo p text treeList).
Proof.
  intros. pose proof adds_refl. pose proof adds_trans.
  unfold diffDocument. steps_with kind_leaf.
Qed.

Lemma adds_diffChangedFiles documentUri repositoryPath owner repo paths :
  (forall q ref, K (GetContent owner repo q ref)) ->
  (forall content, K (CreateBlob owner repo content)) ->
  forall treeList deleted,
    Steps (adds K)
      (diffChangedFiles octokit platform documentUri repositoryPath owner repo
         paths treeList deleted).
Proof.
  intros HK1 HK2. pose proof adds_refl. pose proof adds_trans.
  induction paths as [| p rest IH]; intros treeList deleted;
    cbn [diffChangedFiles].
  - now apply Steps_ret.
  - destruct (JsString.includes p repositoryPath); [| apply IH].
    destruct (openTextDocument platform _); [| apply IH].
    apply Steps_bind; auto using adds_diffDocument.
Qed.

Lemma adds_pushCommit owner repo treeList latest :
  (forall tree base, K (CreateTree owner repo tree base)) ->
  (forall message tree parents, K (CreateCommit owner repo message tree parents)) ->
  (forall ref sha, K (UpdateRef owner repo ref sha)) ->
  Steps (adds K) (pushCommit octokit owner repo treeList latest).
Proof.
  intros. pose proof adds_refl. pose proof adds_trans.
  unfold pushCommit. steps_with kind_leaf.
Qed.

Lemma adds_commitDeletions owner repo deleted :
  (forall q ref, K (GetContent owner repo q ref)) ->
  (forall sha, K (GetBlob owner repo sha)) ->
  (forall q message sha b, K (DeleteFile owner repo q message sha b)) ->
  Steps (adds K) (commitDeletions octokit owner repo deleted).
Proof.
  intros. pose proof adds_refl. pose proof adds_trans.
  induction deleted as [| p rest IH]; cbn [commitDeletions];
    steps_with kind_leaf.
  exact IH.
Qed.

End Kinds.

Section OneRepository.

Import Js GitHub Vscode AutoCommit Notions.

Variable newOctokit : string -> Octokit.
Variable platform : Platform.
Variable token : string.

Local Abbreviation octokit := (newOctokit token).

Ltac cycle_leaf :=
  idtac;
  match goal with
  | |- Steps _ (ensureBranchExists _ _ _) => apply adds_ensureBranchExists; auto
  | |- Steps _ (diffChangedFiles _ _ _ _ _ _ _ _ _) =>
      apply adds_diffChangedFiles; auto
  | |- Steps _ (pushCommit _ _ _ _ _) => apply adds_pushCommit; auto
  | |- Steps _ (commitDeletions _ _ _ _) => apply adds_commitDeletions; auto
  | |- Steps _ (request _ ?c) => apply adds_request; auto
  | |- Steps _ (unawaited _) => apply Steps_unawaited
  | |- Steps _ (failedToCommit _) => unfold failedToCommit
  | |- adds _ ?h (failed _ ?h) => apply adds_failed
  | |- adds _ ?h (if ?b then _ else ?h) => destruct b
  | |- adds _ ?h ?h => apply adds_refl
  | |- adds _ _ _ =>
      exists []; split; [cbn; now rewrite app_nil_r | constructor]
  end.

Lemma adds_commitChanges K documentUri repositoryPath :
  let owner := nth 1 (JsString.split repositoryPath "/" 3) "" in
  let repo := nth 2 (JsString.split repositoryPath "/" 3) "" in
  (forall c, repository c = (owner, repo) -> K c) ->
  Steps (adds K)
    (commitChanges newOctokit platform documentUri token repositoryPath).
Proof.
  intros owner repo HK h. unfold commitChanges. cbv zeta. fold owner repo.
  pose proof (adds_refl K). pose proof (adds_trans K).
  generalize (match changedFilePaths h with Some l => l | None => [] end).
  intros stored. revert h.
  match goal with
  | |- forall h, adds K h (snd (?m h)) => change (Steps (adds K) m)
  end.
  steps_with cycle_leaf.
Qed.

Lemma adds_commitActiveFile K uri documentText repositoryPath :
  let owner := nth 1 (JsString.split repositoryPath "/" 3) "" in
  let repo := nth 2 (JsString.split repositoryPath "/" 3) "" in
  (forall c, repository c = (owner, repo) -> K c) ->
  Steps (adds K)
    (commitActiveFile newOctokit platform uri documentText token repositoryPath).
Proof.
  intros owner repo HK. unfold commitActiveFile. cbv zeta. fold owner repo.
  pose proof (adds_refl K). pose proof (adds_trans K).
  steps_with cycle_leaf.
Qed.

(** X10: both commit functions only ever address the repository that
    the second and the third piece of [repositoryPath] name, whatever
    the paths in the change set are. *)
Theorem X10_commits_address_one_repository
    (uri : Uri) (documentText repositoryPath : string) (h : Host) :
  let owner := nth 1 (JsString.split repositoryPath "/" 3) "" in
  let repo := nth 2 (JsString.split repositoryPath "/" 3) "" in
  adds (fun c => repository c = (owner, repo)) h
    (snd (commitChanges newOctokit platform uri token repositoryPath h))
  /\ adds (fun c => repository c = (owner, repo)) h
       (snd (commitActiveFile newOctokit platform uri documentText token
               repositoryPath h)).
Proof.
  split.
  - now apply adds_commitChanges.
  - now apply adds_commitActiveFile.
Qed.

Lemma existsb_none {A} (f : A -> bool) (l : list A) :
  Forall (fun x => f x = false) l -> existsb f l = false.
Proof.
  induction 1 as [| x l Hx _ IH]; cbn; [reflexivity |]. now rewrite Hx, IH.
Qed.

Ltac host_fields :=
  cbn [fst snd github set_github failed showErrorMessage
         showInformationMessage set_messages set_changedFilePaths].

(** X11: modifications shadow deletions.  A cycle that creates a tree
    sends no delete request: the deletions are the [else] branch of the
    commit.  The change set is cleared all the same when the cycle
    returns, so the deleted paths are forgotten. *)
Theorem X11_modifications_shadow_deletions
    (documentUri : Uri) (repositoryPath : string) (h : Host) :
  let cycle := commitChanges newOctokit platform documentUri token repositoryPath h in
  exists requests,
    github (snd cycle) = (github h ++ requests)%list
    /\ (existsb isCreateTree requests = true ->
        existsb isDeleteFile requests = false
        /\ (fst cycle = inr tt -> changedFilePaths (snd cycle) = Some [])).
Proof.
  cbv zeta.
  assert (changedFilePaths h = None \/ changedFilePaths h = Some []
          \/ exists stored, changedFilePaths h = Some stored /\ stored <> [])
    as [Hnone | [Hempty | (stored & Hstored & Hne)]].
  { destruct (changedFilePaths h) as [[| p l] |]; auto.
    right. right. exists (p :: l). now split. }
  1, 2: exists []; unfold commitChanges; cbv zeta;
    rewrite ?Hnone, ?Hempty; cbn; rewrite app_nil_r; split;
    [reflexivity | discriminate].
  pose proof (fun e => commitChanges_returned_clears newOctokit platform token
                         documentUri repositoryPath h stored e Hstored Hne)
    as Hclears.
  rewrite (commitChanges_stages newOctokit platform token documentUri
             repositoryPath h stored Hstored Hne) in *.
  cbv zeta in *.
  set (owner := nth 1 _ _) in *. set (repo := nth 2 _ _) in *.
  set (paths := (stored ++ _)%list) in *.
  set (h0 := if mementoIsLive platform then _ else h) in *.
  set (quiet := fun c => isCreateTree c = false /\ isDeleteFile c = false).
  assert (forall l, Forall quiet l ->
            existsb isCreateTree l = false /\ existsb isDeleteFile l = false)
    as Hquiet.
  { intros l Hl. split; apply existsb_none;
      eapply Forall_impl; try exact Hl; now intros c []. }
  assert (github h0 = github h) as Hlog0
      by (subst h0; now destruct (mementoIsLive platform)).
  destruct (adds_ensureBranchExists octokit quiet owner repo) with (s := h0)
    as (l1 & Hl1 & K1); try (intros; now split).
  destruct (ensureBranchExists octokit owner repo h0) as [[e | []] h1];
    cbn [snd] in Hl1.
  { exists l1. host_fields. rewrite Hl1, Hlog0. split; [reflexivity |].
    destruct (Hquiet l1 K1) as [-> _]. discriminate. }
  destruct (adds_diffChangedFiles octokit platform quiet documentUri
              repositoryPath owner repo paths) with (treeList := @nil Tree)
      (deleted := @nil string) (s := h1)
    as (l2 & Hl2 & K2); try (intros; now split).
  destruct (diffChangedFiles octokit platform documentUri repositoryPath owner
              repo paths [] [] h1) as [[e | lists] h2]; cbn [snd] in Hl2.
  { exists (l1 ++ l2)%list. host_fields. rewrite Hl2, Hl1, Hlog0, <- app_assoc.
    split; [reflexivity |].
    rewrite existsb_app. destruct (Hquiet l1 K1) as [-> _].
    destruct (Hquiet l2 K2) as [-> _]. discriminate. }
  assert (Forall quiet (l1 ++ l2 ++ [GetBranch owner repo branch])) as K3.
  { rewrite !Forall_app. repeat split; try assumption.
    constructor; [now split | constructor]. }
  destruct (octokit (github h2) (GetBranch owner repo branch)) as [e | latest].
  { exists (l1 ++ l2 ++ [GetBranch owner repo branch])%list. host_fields.
    rewrite Hl2, Hl1, Hlog0, <- !app_assoc. split; [reflexivity |].
    destruct (Hquiet _ K3) as [-> _]. discriminate. }
  destruct (Hquiet _ K3) as [Htree3 Hdel3].
  unfold finish in *.
  destruct (0 <? Z.of_nat (List.length (fst lists))).
  - destruct (adds_pushCommit octokit (fun c => isDeleteFile c = false) owner
                repo (fst lists) latest) with
        (s := set_github (github h2 ++ [GetBranch owner repo branch]) h2)
      as (l4 & Hl4 & K4); try (intros; reflexivity).
    destruct (pushCommit octokit owner repo (fst lists) latest _)
      as [[e | []] h4]; cbn [snd github set_github] in Hl4;
      exists ((l1 ++ l2 ++ [GetBranch owner repo branch]) ++ l4)%list;
      host_fields;
      rewrite Hl4, Hl2, Hl1, Hlog0, <- !app_assoc;
      (split; [reflexivity |]); intros _;
      rewrite !app_assoc, existsb_app, <- !app_assoc, Hdel3,
        (existsb_none _ _ K4); split; auto; discriminate.
  - destruct (0 <? Z.of_nat (List.length (snd lists))).
    + destruct (adds_commitDeletions octokit (fun c => isCreateTree c = false)
                  owner repo (snd lists)) with
          (s := set_github (github h2 ++ [GetBranch owner repo branch]) h2)
        as (l4 & Hl4 & K4); try (intros; reflexivity).
      cbn [snd github set_github] in Hl4.
      exists ((l1 ++ l2 ++ [GetBranch owner repo branch]) ++ l4)%list.
      host_fields.
      rewrite Hl4, Hl2, Hl1, Hlog0, <- !app_assoc. split; [reflexivity |].
      rewrite !app_assoc, existsb_app, <- !app_assoc, Htree3,
        (existsb_none _ _ K4). discriminate.
    + exists (l1 ++ l2 ++ [GetBranch owner repo branch])%list. host_fields.
      rewrite Hl2, Hl1, Hlog0, <- !app_assoc. split; [reflexivity |].
      rewrite Htree3. discriminate.
Qed.

Lemma ensureBranchExists_lists_first owner repo h :
  exists more,
    github (snd (ensureBranchExists octokit owner repo h))
    = (github h ++ ListBranches owner repo :: more)%list.
Proof.
  rewrite ensureBranchExists_requests. cbv zeta.
  destruct (octokit (github h) (ListBranches owner repo)) as [e | names].
  - now exists [].
  - destruct (existsb _ names); [now exists [] |].
    destruct (octokit _ (GetRef owner repo "heads/[object Promise]"))
      as [e | sha]; cbn [snd github set_github]; rewrite <- ?app_assoc;
      eexists; reflexivity.
Qed.

Lemma extends_failed e h : extends h (failed e h).
Proof. exists []. cbn. now rewrite app_nil_r. Qed.

(** X12: a cycle runs only over a change set that is not empty.  Over
    an empty or absent one it returns at once and leaves everything as
    it is (the branch is not even looked for); over any other it starts
    by listing the branches of the repository. *)
Theorem X12_cycle_runs_only_over_changes
    (documentUri : Uri) (repositoryPath : string) (h : Host) :
  let owner := nth 1 (JsString.split repositoryPath "/" 3) "" in
  let repo := nth 2 (JsString.split repositoryPath "/" 3) "" in
  let cycle := commitChanges newOctokit platform documentUri token repositoryPath h in
  (changeSet h = [] -> cycle = (inr tt, h))
  /\ (changeSet h <> [] ->
      exists more,
        github (snd cycle) = (github h ++ ListBranches owner repo :: more)%list).
Proof.
  cbv zeta. unfold changeSet. split.
  - intros Hempty. unfold commitChanges. cbv zeta. now rewrite Hempty.
  - intros Hne.
    destruct (changedFilePaths h) as [stored |] eqn:Hstored; [| contradiction].
    rewrite (commitChanges_stages newOctokit platform token documentUri
               repositoryPath h stored Hstored Hne).
    cbv zeta.
    set (owner := nth 1 _ _). set (repo := nth 2 _ _).
    set (paths := (stored ++ _)%list).
    set (h0 := if mementoIsLive platform then _ else h).
    assert (github h0 = github h) as Hlog0
        by (subst h0; now destruct (mementoIsLive platform)).
    destruct (ensureBranchExists_lists_first owner repo h0) as [l1 Hl1].
    rewrite Hlog0 in Hl1.
    assert (forall h', extends (snd (ensureBranchExists octokit owner repo h0)) h' ->
              exists more,
                github h' = (github h ++ ListBranches owner repo :: more)%list)
      as Hlater.
    { intros h' [l Hl]. exists (l1 ++ l)%list.
      rewrite Hl, Hl1, <- app_assoc. reflexivity. }
    destruct (ensureBranchExists octokit owner repo h0) as [[e | []] h1];
      cbn [snd] in *.
    { apply Hlater, extends_failed. }
    pose proof (diffChangedFiles_extends octokit platform documentUri
                  repositoryPath owner repo paths [] [] h1) as E2.
    destruct (diffChangedFiles octokit platform documentUri repositoryPath owner
                repo paths [] [] h1) as [[e | lists] h2]; cbn [snd] in *.
    { apply Hlater. eapply extends_trans; [exact E2 | apply extends_failed]. }
    assert (extends h1 (set_github (github h2 ++ [GetBranch owner repo branch]) h2))
      as E3 by (eapply extends_trans; [exact E2 | apply extends_request]).
    destruct (octokit (github h2) (GetBranch owner repo branch)) as [e | latest].
    { apply Hlater. eapply extends_trans; [exact E3 | apply extends_failed]. }
    apply Hlater. eapply extends_trans; [exact E3 |].
    unfold finish.
    destruct (0 <? Z.of_nat (List.length (fst lists))).
    + pose proof (Steps_pushCommit octokit extends extends_trans extends_request
                    owner repo (fst lists) latest
                    (set_github (github h2 ++ [GetBranch owner repo branch]) h2))
        as E4.
      destruct (pushCommit octokit owner repo (fst lists) latest _)
        as [[e | []] h4]; cbn [snd] in *.
      * eapply extends_trans; [exact E4 | apply extends_failed].
      * destruct E4 as [l Hl]. exists l. exact Hl.
    + destruct (0 <? Z.of_nat (List.length (snd lists))); cbn [snd].
      * destruct (commitDeletions_extends octokit owner repo (snd lists)
                    (set_github (github h2 ++ [GetBranch owner repo branch]) h2))
          as [l Hl].
        exists l. exact Hl.
      * exists []. cbn. now rewrite app_nil_r.
Qed.

End OneRepository.

Section Deletions.

Import Js GitHub Vscode AutoCommit Notions.

(** X13: deletions are fired and forgotten.  What the remote side
    answers to a delete request changes neither what [commitDeletions]
    returns or throws nor the requests it goes on to make. *)
Theorem X13_deletions_are_fired_and_forgotten
    (octokit octokit' : Octokit) (owner repo : string)
    (deletedFilePaths : list string) (h : Host) :
  (forall history c,
      isDeleteFile c = false -> octokit history c = octokit' history c) ->
  commitDeletions octokit owner repo deletedFilePaths h
  = commitDeletions octokit' owner repo deletedFilePaths h.
Proof.
  intros Hsame. revert h.
  induction deletedFilePaths as [| p rest IH]; intros h; [reflexivity |].
  cbn [commitDeletions].
  unfold bind at 1. unfold bind at 3.
  unfold try_catch, bind, request, unawaited, ret, throw.
  cbn [github set_github fst snd].
  rewrite <- (Hsame (github h) (GetContent owner repo p branch) eq_refl).
  destruct (octokit (github h) (GetContent owner repo p branch))
    as [e | data]; [reflexivity |].
  match goal with
  | |- context [octokit ?log (GetBlob owner repo ?sha)] =>
      rewrite <- (Hsame log (GetBlob owner repo sha) eq_refl);
      destruct (octokit log (GetBlob owner repo sha)) as [e | blob];
      [reflexivity |]
  end.
  apply IH.
Qed.

End Deletions.

(** ** The sync and the job *)

Section SyncBesidesTheJob.

Import Js GitHub Vscode AutoCommit Notions.

Variable newOctokit : string -> Octokit.
Variable platform : Platform.

Lemma besidesTheJob_refl h : besidesTheJob h h.
Proof. now repeat split. Qed.

Lemma besidesTheJob_trans h1 h2 h3 :
  besidesTheJob h1 h2 -> besidesTheJob h2 h3 -> besidesTheJob h1 h3.
Proof. intros (? & ? & ?) (? & ? & ?). repeat split; congruence. Qed.

Ltac besides_leaf :=
  idtac;
  match goal with
  | |- Steps _ (ensureBranchExists _ _ _) =>
      apply Steps_ensureBranchExists; auto; intros; now repeat split
  | |- Steps _ (diffChangedFiles _ _ _ _ _ _ _ _ _) =>
      apply Steps_diffChangedFiles; auto; intros; now repeat split
  | |- Steps _ (pushCommit _ _ _ _ _) =>
      apply Steps_pushCommit; auto; intros; now repeat split
  | |- Steps _ (commitDeletions _ _ _ _) =>
      apply Steps_commitDeletions; auto; intros; now repeat split
  | |- Steps _ (request _ ?c) => apply Steps_request; intros; now repeat split
  | |- Steps _ (unawaited _) => apply Steps_unawaited
  | |- Steps _ (failedToCommit _) => unfold failedToCommit
  | |- besidesTheJob ?h (if ?b then _ else ?h) => destruct b
  | |- besidesTheJob _ _ => now repeat split
  end.


Lemma commitActiveFile_besidesTheJob uri documentText token repositoryPath :
  Steps besidesTheJob
    (commitActiveFile newOctokit platform uri documentText token repositoryPath).
Proof.
  unfold commitActiveFile. cbv zeta.
  pose proof besidesTheJob_refl. pose proof besidesTheJob_trans.
  steps_with besides_leaf.
Qed.

End SyncBesidesTheJob.

Section Refusals.

Import Js GitHub Vscode MizarFunctions Extension Notions.

Variable newOctokit : string -> Octokit.
Variable platform : Platform.

Ltac nothing_done :=
  intros Hdone;
  repeat match type of Hdone with
         | _ \/ _ =>
             destruct Hdone as [Hdone | Hdone];
             [solve [exfalso; apply Hdone; cbn; auto] |]
         end;
  solve [exfalso; apply Hdone; cbn; auto].

(** X14: a command that does anything besides showing a message has
    passed every check: no job was running, the active editor shows a
    [.miz] file whose path names a repository, and a token is set. *)
Theorem X14_command_acts_only_past_every_check
    (command : string) (bench : Workbench) (r : Runtime) :
  let r' := returnExecutingFunction newOctokit platform command bench r in
  github (host r') <> github (host r)
  \/ server (host r') <> server (host r)
  \/ channel (host r') <> channel (host r)
  \/ diagnostics (host r') <> diagnostics (host r)
  \/ changedFilePaths (host r') <> changedFilePaths (host r)
  \/ calls r' <> calls r
  \/ loop r' <> loop r
  \/ isExecuting r' <> isExecuting r ->
  isExecuting r = false
  /\ exists uri repositoryPath,
       activeTextEditor bench = Some uri
       /\ extname platform (fsPath uri) = ".miz"
       /\ matchRepositoryPath (path uri) = Some repositoryPath
       /\ OAuthToken bench <> "".
Proof.
  cbv zeta. unfold returnExecutingFunction.
  destruct (isExecuting r) eqn:Hbusy.
  { nothing_done. }
  destruct (activeTextEditor bench) as [uri |]; [| nothing_done].
  destruct (String.eqb_spec (extname platform (fsPath uri)) ".miz")
    as [Hext | _]; cbn [negb]; [| nothing_done].
  destruct (matchRepositoryPath (path uri)) as [repositoryPath |] eqn:Hmatch;
    [| nothing_done].
  destruct (String.eqb_spec (OAuthToken bench) "") as [| Htoken];
    [nothing_done |].
  intros _. split; [reflexivity |]. exists uri, repositoryPath.
  repeat split; assumption || reflexivity.
Qed.


End Refusals.

(** ** The listeners and the stop command *)

Section Listeners.

Import Js GitHub Vscode MizarFunctions Extension Notions.

Lemma recordPath_changeSet (p : string) (h : Host) :
  changeSet (recordPath p h)
  = if existsb (String.eqb p) (changeSet h) then changeSet h
    else (changeSet h ++ [p])%list.
Proof.
  unfold recordPath. fold (changeSet h).
  now destruct (existsb (String.eqb p) (changeSet h)).
Qed.

Lemma existsb_eqb_In (p : string) (l : list string) :
  existsb (String.eqb p) l = true <-> In p l.
Proof.
  rewrite existsb_exists. split.
  - intros (x & Hx & E). apply String.eqb_eq in E. now subst.
  - intros Hp. exists p. split; [exact Hp | apply String.eqb_refl].
Qed.

Lemma recordPath_NoDup (p : string) (h : Host) :
  NoDup (changeSet h) -> NoDup (changeSet (recordPath p h)).
Proof.
  intros Hnd. rewrite recordPath_changeSet.
  destruct (existsb (String.eqb p) (changeSet h)) eqn:E; [exact Hnd |].
  apply NoDup_app; [exact Hnd | constructor; [cbn; tauto | constructor] |].
  intros x Hx [<- | []].
  apply existsb_eqb_In in Hx. congruence.
Qed.

Lemma recordPath_In (p q : string) (h : Host) :
  In q (changeSet (recordPath p h)) <-> In q (changeSet h) \/ q = p.
Proof.
  rewrite recordPath_changeSet.
  destruct (existsb (String.eqb p) (changeSet h)) eqn:E.
  - apply existsb_eqb_In in E. split; [auto | intros [H | ->]; assumption].
  - rewrite in_app_iff. cbn. intuition.
Qed.

Lemma recordPath_grows (p : string) (h : Host) :
  exists added, changeSet (recordPath p h) = (changeSet h ++ added)%list.
Proof.
  rewrite recordPath_changeSet.
  destruct (existsb (String.eqb p) (changeSet h)).
  - exists []. now rewrite app_nil_r.
  - now exists [p].
Qed.

(** X16: the listeners keep the stored change set free of duplicates: every
    path they are told about is in the set afterwards, once, after the
    paths that were there. *)
Theorem X16_listeners_record_each_path_once (files : list string) (r : Runtime) :
  NoDup (changeSet (host r)) ->
  let r' := onDidDeleteFiles files r in
  NoDup (changeSet (host r'))
  /\ (forall p, In p (changeSet (host r'))
                <-> In p (changeSet (host r)) \/ In p files)
  /\ (exists added, changeSet (host r') = (changeSet (host r) ++ added)%list)
  /\ forall p, onDidChangeTextDocument p r = onDidDeleteFiles [p] r.
Proof.
  cbv zeta. unfold onDidDeleteFiles. revert r.
  induction files as [| f rest IH]; intros r Hnd; cbn [fold_left].
  - split; [exact Hnd |]. split; [intros p; cbn; tauto |].
    split; [exists []; now rewrite app_nil_r | reflexivity].
  - destruct (IH (on_host (recordPath f) r)) as (Hnd' & Hin & [added Hadd] & _).
    { cbn. now apply recordPath_NoDup. }
    cbn [host on_host set_host] in *.
    split; [exact Hnd' |]. split; [| split; [| reflexivity]].
    + intros p. rewrite Hin, recordPath_In. cbn. intuition.
    + destruct (recordPath_grows f (host r)) as [first Hfirst].
      exists (first ++ added)%list. now rewrite Hadd, Hfirst, app_assoc.
Qed.

End Listeners.

Section StopCommand.

Import Js GitHub Vscode MizarFunctions Extension Notions.

Variable newOctokit : string -> Octokit.
Variable platform : Platform.

(** X17: the stop command does not reset [intervalId]: as long as a job has
    left it set, every further stop sends one more DELETE for the last
    submitted job and shows its message again. *)
Theorem X17_every_stop_sends_one_more_cancellation
    (n : nat) (id : positive) (r : Runtime) :
  intervalId r = Some id ->
  exists r',
    run newOctokit platform (List.repeat Stop n) r = Some r'
    /\ intervalId r' = Some id
    /\ isExecuting r' = match n with O => isExecuting r | S _ => false end
    /\ server (host r') =
       (server (host r)
          ++ List.repeat {| fetch_method := "DELETE";
                            fetch_endpoint := "verifier/" ++ uuid r;
                            fetch_body := [] |} n)%list
    /\ messages (host r') =
       (messages (host r)
          ++ List.repeat (InformationMessage "Command stopped!") n)%list.
Proof.
  revert r. induction n as [| n IH]; intros r Hid.
  - exists r. cbn. rewrite !app_nil_r. auto.
  - cbn [List.repeat run step].
    destruct (IH (stopCommand r)) as (r' & Hrun & Hid' & Hbusy & Hserver & Hmsg).
    { unfold stopCommand. now rewrite Hid. }
    exists r'. split; [exact Hrun |]. split; [exact Hid' |].
    split; [| split].
    + rewrite Hbusy. destruct n; [| reflexivity].
      unfold stopCommand. now rewrite Hid.
    + rewrite Hserver. unfold stopCommand. rewrite Hid. cbn.
      now rewrite <- app_assoc.
    + rewrite Hmsg. unfold stopCommand. rewrite Hid. cbn.
      now rewrite <- app_assoc.
Qed.

(** X18: stopping while the job waits in the queue stops nothing: [intervalId]
    is null then, so no timer is cleared and no DELETE is sent, and when
    the pending timeout elapses the polling of the job is armed again. *)
Theorem X18_stop_in_the_queue_does_not_stop_the_job
    (position self : nat) (r : Runtime) :
  intervalId r = None ->
  nth_error (timeouts (loop r)) position = Some self ->
  exists r' timer,
    run newOctokit platform [Stop; TimeoutElapsed position] r = Some r'
    /\ server (host r') = server (host r)
    /\ messages (host r') = messages (host r)
    /\ intervals (loop (stopCommand r)) = intervals (loop r)
    /\ intervalId r' = Some timer
    /\ armedFor timer self r'.
Proof.
  intros Hid Htimeout.
  cbn [run step]. unfold stopCommand. rewrite Hid.
  cbn [loop set_isExecuting]. rewrite Htimeout.
  eexists. exists (nextTimer (loop r)).
  split; [reflexivity |]. cbn.
  repeat split.
  unfold armedFor. cbn. apply in_or_app. right. now left.
Qed.

End StopCommand.

(** ** The interval timers *)

Section Timers.

Import Js GitHub Vscode MizarFunctions Extension Notions.

Variable named : option (positive * nat).

Lemma timersAsBefore_same r r' :
  intervals (loop r') = intervals (loop r) ->
  nextTimer (loop r') = nextTimer (loop r) ->
  intervalId r' = intervalId r ->
  timersAsBefore named r -> timersAsBefore named r'.
Proof.
  unfold timersAsBefore, orphaned, handlesInOrder, armedFor.
  intros -> -> ->. exact (fun H => H).
Qed.

Lemma timersAsBefore_stopInterval r :
  timersAsBefore named r -> timersAsBefore named (stopInterval r).
Proof.
  unfold timersAsBefore, orphaned, handlesInOrder, armedFor, stopInterval.
  intros ((Harmed & Hid) & Horphan).
  destruct (intervalId r) as [id |] eqn:E; cbn.
  - split; [split; [| discriminate] |].
    + intros t s Ht. apply filter_In in Ht. now apply (Harmed t s).
    + destruct named as [[timer self] |]; [| exact I].
      destruct Horphan as [Hin Hne]. split; [| discriminate].
      apply filter_In. split; [exact Hin |]. cbn.
      apply negb_true_iff, Pos.eqb_neq. congruence.
  - split; [split; [exact Harmed | discriminate] |].
    destruct named as [[timer self] |]; [| exact I].
    split; [apply Horphan | discriminate].
Qed.

Lemma timersAsBefore_setInterval owner r :
  timersAsBefore named r -> timersAsBefore named (setInterval owner r).
Proof.
  unfold timersAsBefore, orphaned, handlesInOrder, armedFor, setInterval.
  intros ((Harmed & Hid) & Horphan). cbn.
  split; [split |].
  - intros t s Ht. apply in_app_or in Ht. destruct Ht as [Ht | [Ht | []]].
    + specialize (Harmed t s Ht). lia.
    + injection Ht as <- _. lia.
  - intros id Hnew. injection Hnew as <-. lia.
  - destruct named as [[timer self] |]; [| exact I].
    destruct Horphan as [Hin Hne]. split.
    + apply in_or_app. now left.
    + intros Hnew. injection Hnew as Hnew.
      specialize (Harmed timer self Hin). lia.
Qed.

Lemma timersKept_refl a : timersKept named a a.
Proof. now intros H. Qed.

Lemma timersKept_trans a b c :
  timersKept named a b -> timersKept named b c ->
  timersKept named a c.
Proof. unfold timersKept. auto. Qed.

Ltac timers_leaf :=
  idtac;
  match goal with
  | |- timersKept _ ?fr (on_globals stopInterval ?fr) =>
      intros ?; now apply timersAsBefore_stopInterval
  | |- timersKept _ ?fr (on_globals (setInterval _) ?fr) =>
      intros ?; now apply timersAsBefore_setInterval
  | |- timersKept _ ?fr _ =>
      destruct fr as [g l s]; unfold timersKept, settle; cbn;
      try destruct (outcome l); cbn;
      apply timersAsBefore_same; reflexivity
  | |- Steps _ (channel_ _) => unfold channel_
  | |- Steps _ resolve => unfold resolve, settle
  | |- Steps _ (reject _) => unfold reject, settle
  | |- Steps _ (fetched _) => unfold fetched
  | |- Steps _ (appendProgress _) => unfold appendProgress
  | |- Steps _ (addMissingHashTags _ _) => unfold addMissingHashTags
  end.

Lemma Steps_timers_forEachPhase percent total phases :
  forall i, Steps (timersKept named) (forEachPhase percent total i phases).
Proof.
  pose proof timersKept_refl. pose proof timersKept_trans.
  induction phases as [| phase rest IH]; intros i; cbn [forEachPhase].
  - now apply Steps_ret.
  - steps_with timers_leaf. apply IH.
Qed.

Lemma Steps_timers_pollSettled answer :
  Steps (timersKept named) (pollSettled answer).
Proof.
  pose proof timersKept_refl. pose proof timersKept_trans.
  unfold pollSettled, onSnapshot.
  steps_with timers_leaf; auto using Steps_timers_forEachPhase.
Qed.

Lemma Steps_timers_submitSettled answer :
  Steps (timersKept named) (submitSettled answer).
Proof.
  pose proof timersKept_refl. pose proof timersKept_trans.
  unfold submitSettled.
  steps_with timers_leaf.
Qed.

Lemma inCall_timersAsBefore call callback r r' :
  Steps (timersKept named) callback ->
  inCall call callback r = Some r' ->
  timersAsBefore named r -> timersAsBefore named r'.
Proof.
  intros Hkept Hin Horphan. unfold inCall in Hin.
  destruct (nth_error (calls r) call) as [closure |]; [| discriminate].
  injection Hin as <-.
  set (fr := {| globals := r; locals := closure; self := call |}).
  apply (timersAsBefore_same (globals (snd (callback fr)))); try reflexivity.
  now apply (Hkept fr).
Qed.

Variable newOctokit : string -> Octokit.
Variable platform : Platform.

Lemma returnExecutingFunction_timers command bench r :
  let r' := returnExecutingFunction newOctokit platform command bench r in
  intervals (loop r') = intervals (loop r)
  /\ nextTimer (loop r') = nextTimer (loop r)
  /\ intervalId r' = intervalId r.
Proof.
  cbv zeta. unfold returnExecutingFunction.
  destruct (isExecuting r); [now cbn |].
  destruct (activeTextEditor bench) as [target |]; [| now cbn].
  destruct (negb _); [now cbn |].
  destruct (matchRepositoryPath _) as [repositoryPath |]; [| now cbn].
  destruct (String.eqb _ _); [now cbn |].
  destruct (AutoCommit.commitChanges _ _ _ _ _ _) as [[e | []] h]; now cbn.
Qed.

Lemma onDidDeleteFiles_timers files r :
  loop (onDidDeleteFiles files r) = loop r
  /\ intervalId (onDidDeleteFiles files r) = intervalId r.
Proof.
  unfold onDidDeleteFiles. revert r.
  induction files as [| f rest IH]; intros r; cbn; [now split |].
  destruct (IH (on_host (recordPath f) r)) as [-> ->]. now split.
Qed.

Lemma step_timersAsBefore e r r' :
  step newOctokit platform e r = Some r' ->
  timersAsBefore named r -> timersAsBefore named r'.
Proof.
  destruct e; cbn [step]; intros Hstep Horphan.
  - destruct (commandOf cmd MIZAR_COMMANDS); [| discriminate].
    injection Hstep as <-.
    destruct (returnExecutingFunction_timers s bench r) as (H1 & H2 & H3).
    now apply (timersAsBefore_same r).
  - injection Hstep as <-. unfold stopCommand.
    destruct (intervalId r) as [id |] eqn:E.
    + destruct Horphan as ((Harmed & Hid) & Horphan).
      unfold timersAsBefore, orphaned, handlesInOrder, armedFor in *. cbn.
      split; [split; [| exact Hid] |].
      * intros t s0 Ht. apply filter_In in Ht. now apply (Harmed t s0).
      * destruct named as [[timer self] |]; [| exact I].
        destruct Horphan as [Hin Hne]. split; [| exact Hne].
        apply filter_In. split; [exact Hin |]. cbn.
        apply negb_true_iff, Pos.eqb_neq. congruence.
    + now apply (timersAsBefore_same r).
  - injection Hstep as <-. now apply (timersAsBefore_same r).
  - injection Hstep as <-.
    destruct (onDidDeleteFiles_timers files r) as [H1 H2].
    apply (timersAsBefore_same r); congruence.
  - destruct (nth_error _ position); [| discriminate].
    eapply inCall_timersAsBefore; [apply Steps_timers_submitSettled | exact Hstep |].
    now apply (timersAsBefore_same r).
  - destruct (find _ _) as [[t s] |]; [| discriminate].
    destruct (nth_error _ s); [| discriminate].
    injection Hstep as <-. now apply (timersAsBefore_same r).
  - destruct (nth_error _ position); [| discriminate].
    injection Hstep as <-. apply timersAsBefore_setInterval.
    now apply (timersAsBefore_same r).
  - destruct (nth_error _ position); [| discriminate].
    eapply inCall_timersAsBefore; [apply Steps_timers_pollSettled | exact Hstep |].
    now apply (timersAsBefore_same r).
  - destruct (cancellations (loop r)); [discriminate |].
    injection Hstep as <-. now apply (timersAsBefore_same r).
Qed.

Lemma run_timersAsBefore events :
  forall r r',
    run newOctokit platform events r = Some r' ->
    timersAsBefore named r -> timersAsBefore named r'.
Proof.
  induction events as [| e rest IH]; intros r r' Hrun Horphan; cbn in Hrun.
  - now injection Hrun as <-.
  - destruct (step newOctokit platform e r) as [r1 |] eqn:Hstep; [| discriminate].
    eapply IH; [exact Hrun |]. eapply step_timersAsBefore; eauto.
Qed.

End Timers.

Section TimerLeak.

Import Js GitHub Vscode MizarFunctions Extension Notions.

Variable newOctokit : string -> Octokit.
Variable platform : Platform.

(** X19: an interval timer that [intervalId] has stopped naming is never
    cleared: whatever happens next (commands, stops, answers, ticks),
    it stays armed and keeps polling. *)
Theorem X19_orphaned_timer_is_never_cleared
    (stored : option (list string)) (before after : list Event)
    (timer : positive) (self : nat) (r1 r2 : Runtime) :
  run newOctokit platform before (activated stored) = Some r1 ->
  orphaned timer self r1 ->
  run newOctokit platform after r1 = Some r2 ->
  orphaned timer self r2.
Proof.
  intros Hbefore Horphan Hafter.
  assert (timersAsBefore None r1) as [Horder _].
  { apply (run_timersAsBefore None newOctokit platform before (activated stored) r1
             Hbefore).
    split; [| exact I]. split; [intros t s [] | discriminate]. }
  apply (run_timersAsBefore (Some (timer, self)) newOctokit platform after r1 r2 Hafter).
  now split.
Qed.

End TimerLeak.

(** ** The bar and its labels *)

Section Bar.

Import Js CalculateProgress MizarFunctions.


(** X21: [padSpace] pads a label of at most nine characters to nine, and
    throws on a longer one, for which ['\ '.repeat] gets a negative
    count. *)
Theorem X21_padSpace_pads_to_nine_or_throws (str : string) :
  (JsString.length str <= 9 ->
   exists padding,
     padSpace str = inr (str ++ padding)
     /\ JsString.length (str ++ padding) = 9
     /\ padding = JsString.replicate (String.length padding) " ")
  /\ (9 < JsString.length str -> padSpace str = inl (JsError "RangeError")).
Proof.
  unfold padSpace, repeat, JsString.length. split; intros Hlen.
  - destruct (Z.ltb_spec (9 - Z.of_nat (String.length str)) 0); [lia |].
    eexists. split; [reflexivity |].
    rewrite length_append, !length_replicate. split; [lia | reflexivity].
  - destruct (Z.ltb_spec (9 - Z.of_nat (String.length str)) 0); [| lia].
    reflexivity.
Qed.

End Bar.

(** ** The phases of a snapshot *)

Section Phases.

Import Js Vscode CalculateProgress MizarFunctions.

Lemma padSpace_short (str : string) :
  JsString.length str <= 9 ->
  padSpace str
  = inr (str ++ JsString.replicate (9 - String.length str) " ").
Proof.
  unfold padSpace, repeat, JsString.length. intros Hlen.
  destruct (Z.ltb_spec (9 - Z.of_nat (String.length str)) 0); [lia |].
  do 3 f_equal. lia.
Qed.

Lemma sameValue_refl (a : option string) : sameValue a a = true.
Proof. destruct a; cbn; [apply String.eqb_refl | reflexivity]. Qed.

(** The phases that are tracked already, at their index, are skipped. *)
Lemma forEachPhase_skips percent total (known : list string) :
  forall (before : list string) (rest : list string) (fr : Frame),
    trackedPhases (locals fr) = (before ++ known)%list ->
    forEachPhase percent total (List.length before) (known ++ rest) fr
    = forEachPhase percent total (List.length before + List.length known) rest fr.
Proof.
  induction known as [| phase known IH]; intros before rest fr Htracked.
  - cbn. now rewrite Nat.add_0_r.
  - cbn [app forEachPhase].
    unfold bind at 1. unfold read at 1. unfold bind at 1.
    rewrite Htracked.
    rewrite nth_error_app2, Nat.sub_diag by lia. cbn [nth_error].
    rewrite sameValue_refl. unfold ret at 1.
    replace (S (List.length before)) with (List.length (before ++ [phase]))
      by (rewrite length_app; cbn; lia).
    rewrite IH by (now rewrite <- app_assoc).
    f_equal. rewrite length_app. cbn. lia.
Qed.

(** The new phases before the last one get a label and a full bar. *)
Lemma forEachPhase_earlier percent total (earlier : list string) :
  forall (i : nat) (rest : list string) (fr : Frame),
    List.length (trackedPhases (locals fr)) = i ->
    (i + List.length earlier < total)%nat ->
    Forall (fun phase => JsString.length phase <= 9) earlier ->
    exists fr',
      forEachPhase percent total i (earlier ++ rest) fr
      = forEachPhase percent total (i + List.length earlier) rest fr'
      /\ trackedPhases (locals fr') = (trackedPhases (locals fr) ++ earlier)%list
      /\ numberOfProgress (locals fr') = numberOfProgress (locals fr)
      /\ channel (host (globals fr'))
         = (channel (host (globals fr))
              ++ flat_map (fun phase => [Append (phase ++ JsString.replicate (9 - String.length phase) " " ++ ":");
                               AppendLine (JsString.replicate 50 "#")])
                   earlier)%list.
Proof.
  induction earlier as [| phase earlier IH]; intros i rest fr Hlen Hlast Hshort.
  - exists fr. cbn. rewrite Nat.add_0_r, !app_nil_r. auto.
  - cbn [List.length] in Hlast.
    inversion Hshort as [| ? ? Hphase Hrest]; subst.
    set (fr1 :=
           {| globals :=
                on_host (channel_do (AppendLine (JsString.replicate 50 "#")))
                  (on_host (channel_do (Append (phase ++ JsString.replicate (9 - String.length phase) " " ++ ":"))) (globals fr));
              locals :=
                set_trackedPhases (trackedPhases (locals fr) ++ [phase])
                  (locals fr);
              self := self fr |}).
    destruct (IH (S (List.length (trackedPhases (locals fr)))) rest fr1)
      as (fr' & Hrun & Htracked & Hcount & Hchannel).
    { subst fr1. cbn. rewrite length_app. cbn. lia. }
    { lia. }
    { exact Hrest. }
    exists fr'. split; [| split; [| split]].
    + cbn [app forEachPhase].
      unfold bind at 1. unfold read at 1. unfold bind at 1.
      rewrite (proj2 (nth_error_None _ _)) by lia.
      cbn [sameValue].
      replace (Nat.eqb (List.length (trackedPhases (locals fr))) (total - 1))
        with false by (symmetry; apply Nat.eqb_neq; lia).
      rewrite (padSpace_short phase Hphase).
      replace (List.length (trackedPhases (locals fr))
               + List.length (phase :: earlier))%nat
        with (S (List.length (trackedPhases (locals fr))) + List.length earlier)%nat
        by (cbn [List.length]; lia).
      rewrite <- Hrun. subst fr1. destruct fr as [g l s].
      cbn. rewrite append_assoc. reflexivity.
    + rewrite Htracked. subst fr1. cbn. now rewrite <- app_assoc.
    + rewrite Hcount. reflexivity.
    + rewrite Hchannel. subst fr1. destruct fr as [g l s]. cbn.
      now rewrite <- !app_assoc.
Qed.

Lemma calculateProgressDiff_from_zero (percent : Z) :
  0 <= percent ->
  calculateProgressDiff percent 0 = Z.min MAX_OUTPUT ((MAX_OUTPUT * percent) / 100)
  /\ 0 <= calculateProgressDiff percent 0.
Proof.
  intros Hp. unfold calculateProgressDiff, MAX_OUTPUT.
  assert (0 <= 50 * percent / 100) by (apply Z.div_pos; lia).
  destruct (Z.gtb_spec (0 + (50 * percent / 100 - 0)) 50); lia.
Qed.

(** The last phase, when it is new, gets its label and the bar at the
    reported percentage. *)
Lemma forEachPhase_last percent total (current : string) (fr : Frame) :
  S (List.length (trackedPhases (locals fr))) = total ->
  JsString.length current <= 9 ->
  numberOfProgress (locals fr) = 0 ->
  0 <= percent ->
  let count := Z.min MAX_OUTPUT ((MAX_OUTPUT * percent) / 100) in
  forEachPhase percent total (List.length (trackedPhases (locals fr)))
    [current] fr
  = (inr tt,
     {| globals :=
          on_host (channel_do (Append (JsString.replicate (Z.to_nat count) "#")))
            (on_host (channel_do (Append (current ++ JsString.replicate (9 - String.length current) " " ++ ":"))) (globals fr));
        locals :=
          set_numberOfProgress count
            (set_trackedPhases (trackedPhases (locals fr) ++ [current])
               (locals fr));
        self := self fr |}).
Proof.
  intros Htotal Hshort Hzero Hpercent count.
  destruct (calculateProgressDiff_from_zero percent Hpercent) as [Hdiff Hpos].
  cbn [forEachPhase].
  unfold bind at 1. unfold bind at 1. unfold read at 1.
  rewrite (proj2 (nth_error_None _ _)) by lia.
  cbn [sameValue].
  replace (Nat.eqb _ _) with true by (symmetry; apply Nat.eqb_eq; lia).
  rewrite (padSpace_short current Hshort).
  destruct fr as [g l s]. cbn [locals globals] in *.
  unfold bind, lift, channel_, effect, appendProgress, bind, read, lift, repeat,
    ret.
  cbn -[calculateProgressDiff Z.ltb JsString.replicate Nat.sub Z.min Z.mul
          Z.div append MAX_OUTPUT].
  rewrite Hzero.
  destruct (Z.ltb_spec (calculateProgressDiff percent 0) 0); [lia |].
  cbn -[calculateProgressDiff Z.ltb JsString.replicate Nat.sub Z.min Z.mul
          Z.div append MAX_OUTPUT].
  rewrite Hdiff. fold count. rewrite append_assoc. reflexivity.
Qed.

(** X22: new phases are drawn in order.  When the phases of a snapshot are
    the tracked ones followed by new ones, the loop of [mizarVerify]
    skips the tracked ones, gives every new phase but the last its label
    and a full bar, and the last one its label and the bar at the
    reported percentage; all of them are tracked afterwards. *)
Theorem X22_new_phases_are_drawn_in_order
    (percent : Z) (tracked earlier : list string) (current : string)
    (fr : Frame) :
  trackedPhases (locals fr) = tracked ->
  numberOfProgress (locals fr) = 0 ->
  Forall (fun phase => JsString.length phase <= 9) (earlier ++ [current]) ->
  0 <= percent ->
  let phases := (tracked ++ earlier ++ [current])%list in
  let label phase :=
    phase ++ JsString.replicate (9 - String.length phase) " " ++ ":" in
  let count := Z.min MAX_OUTPUT ((MAX_OUTPUT * percent) / 100) in
  let result := forEachPhase percent (List.length phases) 0 phases fr in
  fst result = inr tt
  /\ trackedPhases (locals (snd result)) = phases
  /\ numberOfProgress (locals (snd result)) = count
  /\ channel (host (globals (snd result)))
     = (channel (host (globals fr))
          ++ flat_map
               (fun phase =>
                  [Append (label phase);
                   AppendLine (JsString.replicate 50 "#")]) earlier
          ++ [Append (label current);
              Append (JsString.replicate (Z.to_nat count) "#")])%list.
Proof.
  intros Htracked Hzero Hshort Hpercent phases label0 count result.
  apply Forall_app in Hshort. destruct Hshort as [Hearlier Hcurrent].
  inversion Hcurrent as [| ? ? Hlast _]; subst.
  subst result phases.
  rewrite (forEachPhase_skips percent _ (trackedPhases (locals fr)) [] _ fr
             eq_refl).
  cbn [List.length Nat.add].
  destruct (forEachPhase_earlier percent
              (List.length (trackedPhases (locals fr) ++ earlier ++ [current]))
              earlier (List.length (trackedPhases (locals fr))) [current] fr
              eq_refl)
    as (fr' & Hrun & Htracked' & Hcount' & Hchannel'); [| exact Hearlier |].
  { rewrite !length_app. cbn [List.length]. lia. }
  rewrite Hrun. clear Hrun.
  replace (List.length (trackedPhases (locals fr)) + List.length earlier)%nat
    with (List.length (trackedPhases (locals fr')))
    by (rewrite Htracked', length_app; reflexivity).
  rewrite forEachPhase_last; try assumption.
  - cbn [fst snd locals globals numberOfProgress set_numberOfProgress
           trackedPhases set_trackedPhases host on_host set_host channel
           channel_do set_channel].
    rewrite Htracked', Hchannel'. fold count.
    repeat split.
    + now rewrite <- app_assoc.
    + now rewrite <- !app_assoc.
  - rewrite Htracked', !length_app. cbn [List.length]. lia.
  - congruence.
Qed.

End Phases.

(** ** The answers to a poll *)

Section BindEquations.

Import Js.
Context {S : Type}.

Lemma bind_ret {A B} (a : A) (k : A -> Eff S B) (s : S) :
  bind (ret a) k s = k a s.
Proof. reflexivity. Qed.

Lemma bind_read {A B} (f : S -> A) (k : A -> Eff S B) (s : S) :
  bind (read f) k s = k (f s) s.
Proof. reflexivity. Qed.

Lemma bind_effect {B} (f : S -> S) (k : unit -> Eff S B) (s : S) :
  bind (effect f) k s = k tt (f s).
Proof. reflexivity. Qed.

Lemma bind_returns {A B} (m : Eff S A) (k : A -> Eff S B) (s s' : S) (a : A) :
  m s = (inr a, s') -> bind m k s = k a s'.
Proof. intros H. unfold bind. now rewrite H. Qed.

Lemma bind_assoc {A B C} (m : Eff S A) (k : A -> Eff S B) (k' : B -> Eff S C)
    (s : S) :
  bind (bind m k) k' s = bind m (fun a => bind (k a) k') s.
Proof. unfold bind. now destruct (m s) as [[e | a] s1]. Qed.

Lemma bind_lift {A B} (a : A) (k : A -> Eff S B) (s : S) :
  bind (lift (inr a)) k s = k a s.
Proof. reflexivity. Qed.

End BindEquations.

Section Finish.

Import Js Vscode CalculateProgress MizarFunctions.

Lemma appendProgress_returns (percent : Z) (fr : Frame) :
  let emitted := numberOfProgress (locals fr) in
  let progressDiff := calculateProgressDiff percent emitted in
  0 <= progressDiff ->
  appendProgress percent fr
  = (inr tt,
     on_locals (set_numberOfProgress (emitted + progressDiff))
       (on_globals
          (on_host (channel_do
                      (Append (JsString.replicate (Z.to_nat progressDiff) "#"))))
          fr)).
Proof.
  cbv zeta. intros Hpos.
  unfold appendProgress, bind, read, lift, repeat, channel_, effect.
  destruct (Z.ltb_spec (calculateProgressDiff percent (numberOfProgress (locals fr))) 0);
    [lia | reflexivity].
Qed.

Lemma addMissingHashTags_returns (emitted errors : Z) (fr : Frame) :
  emitted <= MAX_OUTPUT ->
  addMissingHashTags emitted errors fr
  = (inr tt,
     on_globals (on_host (channel_do (AppendLine "")))
       ((if errors =? 0 then fun fr => fr
         else on_globals
                (on_host (channel_do (Append (" *" ++ decimal errors)))))
          (on_globals
             (on_host (channel_do
                         (Append (JsString.replicate
                                    (Z.to_nat (MAX_OUTPUT - emitted)) "#"))))
             fr))).
Proof.
  intros Hle. unfold addMissingHashTags.
  destruct (Z.ltb_spec MAX_OUTPUT emitted); [lia |].
  unfold bind, lift, repeat, channel_, effect, ret.
  destruct (Z.ltb_spec (MAX_OUTPUT - emitted) 0); [lia |].
  now destruct (errors =? 0).
Qed.

Ltac frame_fields :=
  cbn [fst snd locals globals on_locals on_globals host on_host set_host
         channel channel_do set_channel diagnostics set_diagnostics
         setDiagnostics isExecuting set_isExecuting intervalId set_intervalId
         on_loop set_loop outcome set_outcome set_numberOfProgress uri app].

(** X23: the last snapshot of a job.  In the verifier stage, with the open
    phase still the last one and a percentage that has not gone back,
    the handler tops the bar up to [MAX_OUTPUT] marks, writes the number
    of errors if there are any and the end line, sets the diagnostics if
    the verification failed, stops the polling and resolves the job. *)
Theorem X23_last_snapshot_completes_the_bar_and_resolves
    (json : Snapshot) (fr : Frame) :
  queueNum json <= 0 ->
  currentCommand (locals fr) = "verifier" ->
  sameValue (lastOf (trackedPhases (locals fr))) (lastOf (progressPhases json))
  = true ->
  0 <= numberOfProgress (locals fr) <= MAX_OUTPUT ->
  numberOfProgress (locals fr) <= (MAX_OUTPUT * progressPercent json) / 100 ->
  isVerifierFinish json = true ->
  outcome (locals fr) = Pending ->
  let emitted := numberOfProgress (locals fr) in
  let count := Z.min MAX_OUTPUT ((MAX_OUTPUT * progressPercent json) / 100) in
  let result := onSnapshot json fr in
  fst result = inr tt
  /\ channel (host (globals (snd result)))
     = (channel (host (globals fr))
          ++ [Append (JsString.replicate (Z.to_nat (count - emitted)) "#");
              Append (JsString.replicate (Z.to_nat (MAX_OUTPUT - count)) "#")]
          ++ (if numOfErrors json =? 0 then []
              else [Append (" *" ++ decimal (numOfErrors json))])
          ++ [AppendLine ""; AppendLine (LF ++ "End.")]
          ++ (if isVerifierSuccess json then [] else [AppendLine errorMsg]))%list
  /\ (count - emitted) + (MAX_OUTPUT - count) = MAX_OUTPUT - emitted
  /\ diagnostics (host (globals (snd result)))
     = (if isVerifierSuccess json then diagnostics (host (globals fr))
        else diagnostics
               (setDiagnostics (errorList json) (uri (locals fr))
                  (host (globals fr))))
  /\ outcome (locals (snd result)) = Resolved
  /\ intervalId (globals (snd result)) = None
  /\ isExecuting (globals (snd result)) = false.
Proof.
  intros Hqueue Hstage Hphase [Hlow Hhigh] Hforward Hfinish Hpending
    emitted count result.
  assert (calculateProgressDiff (progressPercent json) emitted
          = count - emitted) as Hdiff.
  { subst count emitted. unfold calculateProgressDiff.
    destruct (Z.gtb_spec
                (numberOfProgress (locals fr)
                 + ((MAX_OUTPUT * progressPercent json) / 100
                    - numberOfProgress (locals fr)))
                MAX_OUTPUT); lia. }
  assert (0 <= count - emitted) as Hpos by (subst count emitted; lia).
  assert (count <= MAX_OUTPUT) as Hcount by (subst count; lia).
  subst result. unfold onSnapshot.
  destruct (Z.gtb_spec (queueNum json) 0) as [| _]; [lia |].
  rewrite bind_ret, bind_read. cbv beta. rewrite Hstage.
  change ("verifier" =? "makeenv")%string with false. rewrite andb_false_r.
  rewrite bind_ret, bind_read. cbv beta. rewrite Hstage.
  change ("verifier" =? "verifier")%string with true. cbv iota.
  rewrite bind_read. cbv beta. rewrite Hphase.
  rewrite (bind_returns _ _ _ _ _
             (appendProgress_returns (progressPercent json) fr
                ltac:(cbv zeta; fold emitted; rewrite Hdiff; exact Hpos))).
  fold emitted. rewrite Hdiff, Hfinish.
  replace (emitted + (count - emitted)) with count by lia.
  rewrite bind_read. cbv beta.
  cbn [locals on_locals on_globals numberOfProgress set_numberOfProgress].
  rewrite (bind_returns _ _ _ _ _
             (addMissingHashTags_returns count (numOfErrors json) _ Hcount)).
  unfold channel_, resolve, settle. rewrite !bind_effect.
  destruct fr as [g l s]. cbn [locals globals] in *.
  destruct (numOfErrors json =? 0), (isVerifierSuccess json);
    cbn [negb]; rewrite ?bind_ret, ?bind_effect, ?bind_read; cbv beta;
    rewrite ?bind_effect; unfold bind, read, effect, stopInterval;
    cbn [fst snd locals globals on_locals on_globals outcome set_outcome
           set_numberOfProgress].
  all:
    destruct (outcome l); try discriminate;
    (split; [reflexivity |]);
    frame_fields; destruct (intervalId g); frame_fields;
    (split; [rewrite <- ?app_assoc; reflexivity |]);
    (split; [lia |]); repeat split.
Qed.

End Finish.

Ltac run_binds :=
  repeat (rewrite bind_assoc || rewrite bind_effect || rewrite bind_ret
          || rewrite bind_read || rewrite bind_lift);
  cbv beta.

Section PollOutcomes.

Import Js GitHub Vscode CalculateProgress MizarFunctions Extension Notions.

Variable newOctokit : string -> Octokit.
Variable platform : Platform.

Lemma putCall_same (self : nat) (c : Closure) (l : list Closure) :
  nth_error l self = Some c -> putCall self c l = l.
Proof.
  revert self. induction l as [| x l IH]; intros [| self] H; cbn in *;
    try discriminate.
  - now injection H as ->.
  - now rewrite IH.
Qed.

Lemma nth_error_putCall (self : nat) (c c' : Closure) (l : list Closure) :
  nth_error l self = Some c -> nth_error (putCall self c' l) self = Some c'.
Proof.
  revert self. induction l as [| x l IH]; intros [| self] H; cbn in *;
    try discriminate; auto.
Qed.

(** X24: a poll that fails is not tried again: the failure is shown, by
    [fetchData] and by the handler, the timer that [intervalId] names is
    cleared and the job, if it was pending, is rejected with the error
    and frees the busy flag. *)
Theorem X24_failed_poll_rejects_the_job
    (position self : nat) (closure : Closure) (error : Exn) (r : Runtime) :
  nth_error (polls (loop r)) position = Some self ->
  nth_error (calls r) self = Some closure ->
  exists r',
    step newOctokit platform (PollSettled position (inl error)) r = Some r'
    /\ messages (host r') =
       (messages (host r)
          ++ [ErrorMessage "Error fetching data:" (Some error);
              ErrorMessage "" (Some error)])%list
    /\ intervalId r' = None
    /\ (forall id call, intervalId r = Some id ->
                        ~ In (id, call) (intervals (loop r')))
    /\ timeouts (loop r') = timeouts (loop r)
    /\ nth_error (calls r') self =
       Some (match outcome closure with
             | Pending => set_outcome (Rejected error) closure
             | _ => closure
             end)
    /\ (outcome closure = Pending -> isExecuting r' = false).
Proof.
  intros Hpoll Hcall. cbn [step]. rewrite Hpoll.
  unfold inCall. cbn [calls on_loop set_loop]. rewrite Hcall.
  eexists. split; [reflexivity |].
  unfold pollSettled, fetched, try_catch, bind, lift, reject, settle, effect,
    stopInterval.
  cbn [fst snd locals globals on_locals on_globals host on_host set_host
         messages showErrorMessage set_messages ApiService.settled
         isExecuting set_isExecuting intervalId set_intervalId on_loop
         set_loop outcome set_outcome calls set_calls loop].
  destruct (outcome closure) eqn:Hout;
    cbn [fst snd locals globals on_locals on_globals host on_host set_host
           messages showErrorMessage set_messages ApiService.settled
           isExecuting set_isExecuting intervalId set_intervalId on_loop
           set_loop outcome set_outcome calls set_calls loop];
    destruct (intervalId r) as [id |] eqn:Hid;
    cbn [fst snd locals globals on_locals on_globals host on_host set_host
           messages showErrorMessage set_messages ApiService.settled
           isExecuting set_isExecuting intervalId set_intervalId on_loop
           set_loop outcome set_outcome calls set_calls loop intervals
           clearInterval set_intervals set_polls timeouts].
  all:
    (split; [now rewrite <- app_assoc |]);
    (split; [reflexivity |]);
    (split; [intros id' call Hid' Hin; try discriminate;
             injection Hid' as <-; apply filter_In in Hin;
             destruct Hin as [_ Hin]; cbn in Hin;
             now rewrite Pos.eqb_refl in Hin |]);
    (split; [reflexivity |]);
    (split; [now apply nth_error_putCall with (c := closure)
            | intros; (reflexivity || discriminate)]).
Qed.

(** X25: a snapshot of a job that waits in the queue pauses its polling: the
    notice replaces the output, the timer that [intervalId] names is
    cleared and a timeout is set that will arm the polling again. *)
Theorem X25_queued_job_pauses_the_polling
    (position self : nat) (closure : Closure) (json : Snapshot) (r : Runtime) :
  nth_error (polls (loop r)) position = Some self ->
  nth_error (calls r) self = Some closure ->
  0 < queueNum json ->
  isMakeenvFinish json = false ->
  currentCommand closure = "makeenv" ->
  exists r',
    step newOctokit platform (PollSettled position (inr json)) r = Some r'
    /\ channel (host r') =
       (channel (host r) ++ [Replace (queueNotice (queueNum json))])%list
    /\ intervalId r' = None
    /\ (forall id call, intervalId r = Some id ->
                        ~ In (id, call) (intervals (loop r')))
    /\ timeouts (loop r') = (timeouts (loop r) ++ [self])%list
    /\ calls r' = calls r
    /\ isExecuting r' = isExecuting r
    /\ exists r'',
         step newOctokit platform
           (TimeoutElapsed (List.length (timeouts (loop r)))) r' = Some r''
         /\ intervalId r'' = Some (nextTimer (loop r))
         /\ armedFor (nextTimer (loop r)) self r''.
Proof.
  intros Hpoll Hcall Hqueue Hmakeenv Hstage. cbn [step]. rewrite Hpoll.
  unfold inCall. cbn [calls on_loop set_loop]. rewrite Hcall.
  eexists. split; [reflexivity |].
  unfold pollSettled, fetched, try_catch.
  rewrite bind_assoc, bind_effect, bind_lift. unfold onSnapshot.
  destruct (Z.gtb_spec (queueNum json) 0) as [_ |]; [| lia].
  unfold channel_. run_binds.
  cbn [locals on_globals]. rewrite Hstage, Hmakeenv. cbn [andb].
  run_binds. cbn [locals on_globals].
  rewrite Hstage. change ("makeenv" =? "verifier")%string with false.
  cbv iota. unfold ret, stopInterval.
  cbn [fst snd locals globals on_locals on_globals host on_host set_host
         channel channel_do set_channel ApiService.settled
         isExecuting set_isExecuting intervalId set_intervalId on_loop
         set_loop calls set_calls loop MizarFunctions.self].
  destruct (intervalId r) as [id |] eqn:Hid;
    cbn [fst snd locals globals on_locals on_globals host on_host set_host
           channel channel_do set_channel setTimeout ApiService.settled
           isExecuting set_isExecuting intervalId set_intervalId on_loop
           set_loop calls set_calls loop intervals
           clearInterval set_intervals set_polls timeouts set_timeouts];
    (split; [reflexivity |]);
    (split; [reflexivity |]);
    (split; [intros id' call Hid' Hin; try discriminate;
             injection Hid' as <-; apply filter_In in Hin;
             destruct Hin as [_ Hin]; cbn in Hin;
             now rewrite Pos.eqb_refl in Hin |]);
    (split; [reflexivity |]);
    (split; [now apply putCall_same |]);
    (split; [reflexivity |]);
    cbn [step loop set_calls set_intervalId on_loop set_loop timeouts
           set_timeouts set_intervals];
    rewrite nth_error_app2, Nat.sub_diag by lia; cbn [nth_error];
    eexists;
    (split; [reflexivity |]);
    (split; [reflexivity |]);
    unfold armedFor; cbn; apply in_or_app; right; now left.
Qed.

End PollOutcomes.

Section Makeenv.

Import Js GitHub Vscode CalculateProgress MizarFunctions Extension Notions.

Variable newOctokit : string -> Octokit.
Variable platform : Platform.

(** X26: a job whose environment cannot be made ends there: the errors become
    the diagnostics of the document, nothing is written to the output,
    the timer that [intervalId] names is cleared and the job, if it was
    pending, is rejected and frees the busy flag. *)
Theorem X26_failed_makeenv_rejects_the_job
    (position self : nat) (closure : Closure) (json : Snapshot) (r : Runtime) :
  nth_error (polls (loop r)) position = Some self ->
  nth_error (calls r) self = Some closure ->
  queueNum json <= 0 ->
  currentCommand closure = "makeenv" ->
  isMakeenvFinish json = true ->
  isMakeenvSuccess json = false ->
  exists r',
    step newOctokit platform (PollSettled position (inr json)) r = Some r'
    /\ host r' = setDiagnostics (errorList json) (uri closure) (host r)
    /\ intervalId r' = None
    /\ (forall id call, intervalId r = Some id ->
                        ~ In (id, call) (intervals (loop r')))
    /\ timeouts (loop r') = timeouts (loop r)
    /\ nth_error (calls r') self =
       Some (match outcome closure with
             | Pending => set_outcome (Rejected (JsError "makeenv error")) closure
             | _ => closure
             end)
    /\ (outcome closure = Pending -> isExecuting r' = false).
Proof.
  intros Hpoll Hcall Hqueue Hstage Hfinish Hsuccess. cbn [step]. rewrite Hpoll.
  unfold inCall. cbn [calls on_loop set_loop]. rewrite Hcall.
  eexists. split; [reflexivity |].
  unfold pollSettled, fetched, try_catch.
  rewrite bind_assoc, bind_effect, bind_lift. unfold onSnapshot.
  destruct (Z.gtb_spec (queueNum json) 0) as [| _]; [lia |].
  run_binds.
  cbn [locals on_globals]. rewrite Hstage, Hfinish, Hsuccess.
  change ("makeenv" =? "makeenv")%string with true. cbn [andb].
  unfold reject, settle. run_binds.
  destruct (outcome closure) eqn:Hout;
    cbn [locals globals on_locals on_globals outcome set_outcome
           currentCommand];
    rewrite ?Hout;
    cbn [locals globals on_locals on_globals outcome set_outcome
           currentCommand];
    rewrite Hstage; change ("makeenv" =? "verifier")%string with false;
    cbv iota; unfold ret, stopInterval;
    cbn [fst snd locals globals on_locals on_globals host on_host set_host
           ApiService.settled uri
           isExecuting set_isExecuting intervalId set_intervalId on_loop
           set_loop outcome set_outcome calls set_calls loop];
    destruct (intervalId r) as [id |] eqn:Hid;
    cbn [fst snd locals globals on_locals on_globals host on_host set_host
           isExecuting set_isExecuting intervalId set_intervalId on_loop
           set_loop outcome set_outcome calls set_calls loop intervals
           clearInterval set_intervals set_polls timeouts];
    (split; [reflexivity |]);
    (split; [reflexivity |]);
    (split; [intros id' call Hid' Hin; try discriminate;
             injection Hid' as <-; apply filter_In in Hin;
             destruct Hin as [_ Hin]; cbn in Hin;
             now rewrite Pos.eqb_refl in Hin |]);
    (split; [reflexivity |]);
    (split; [now apply nth_error_putCall with (c := closure)
            | intros; (reflexivity || discriminate)]).
Qed.

End Makeenv.

(** ** The linter and the formatter *)

Section LintAndFormat.

Import Js GitHub Vscode Extension Linter Formatter Notions.

Variable newOctokit : string -> Octokit.
Variable platform : Platform.

(** X27: the linter and the formatter ask the job server only after the
    active file has been committed: their request leaves when
    [commitActiveFile] has returned, and only then.  The linter has by
    then emptied the diagnostics of every document, and has done so too
    when the commit fails; the formatter leaves them alone. *)
Theorem X27_lint_and_format_ask_only_after_the_commit
    (bench : Workbench) (documentText userSettings : string) (h : Host) :
  let asked endpoint uri repositoryPath :=
    {| fetch_method := "POST"; fetch_endpoint := endpoint;
       fetch_body :=
         [("fileName", basename platform (uriToString platform uri));
          ("repositoryUrl", "https://github.com" ++ repositoryPath);
          ("userSettings", userSettings)] |} in
  let linted := lintMizar newOctokit platform bench documentText userSettings h in
  let formatted :=
    formatMizar newOctokit platform bench documentText userSettings h in
  (server linted = server h
   \/ exists uri repositoryPath h',
        activeTextEditor bench = Some uri
        /\ matchRepositoryPath (path uri) = Some repositoryPath
        /\ AutoCommit.commitActiveFile newOctokit platform uri documentText
             (OAuthToken bench) repositoryPath (set_diagnostics [] h)
           = (inr tt, h')
        /\ server linted = (server h ++ [asked "linter" uri repositoryPath])%list)
  /\ (github linted <> github h -> diagnostics linted = [])
  /\ (server formatted = server h
      \/ exists uri repositoryPath h',
           activeTextEditor bench = Some uri
           /\ matchRepositoryPath (path uri) = Some repositoryPath
           /\ AutoCommit.commitActiveFile newOctokit platform uri documentText
                (OAuthToken bench) repositoryPath h
              = (inr tt, h')
           /\ server formatted
              = (server h ++ [asked "formatter" uri repositoryPath])%list)
  /\ diagnostics formatted = diagnostics h.
Proof.
  cbv zeta. unfold lintMizar, formatMizar.
  destruct (activeTextEditor bench) as [uri |]; [| cbn; tauto].
  destruct (matchRepositoryPath (path uri)) as [repositoryPath |] eqn:Hmatch;
    [| cbn; tauto].
  destruct (String.eqb (OAuthToken bench) ""); [cbn; tauto |].
  cbv zeta.
  pose proof (commitActiveFile_besidesTheJob newOctokit platform uri
                documentText (OAuthToken bench) repositoryPath
                (set_diagnostics [] h)) as (Hs1 & _ & Hd1).
  pose proof (commitActiveFile_besidesTheJob newOctokit platform uri
                documentText (OAuthToken bench) repositoryPath h)
    as (Hs2 & _ & Hd2).
  destruct (AutoCommit.commitActiveFile newOctokit platform uri documentText
              (OAuthToken bench) repositoryPath (set_diagnostics [] h))
    as [[e1 | []] h1] eqn:Hlint;
    destruct (AutoCommit.commitActiveFile newOctokit platform uri documentText
                (OAuthToken bench) repositoryPath h) as [[e2 | []] h2] eqn:Hformat;
    cbn [snd] in *; cbv beta iota;
    cbn [ApiService.fetchData server set_server diagnostics];
    rewrite ?Hs1, ?Hs2, ?Hd1, ?Hd2;
    (split; [| split; [intros _; reflexivity | split; [| reflexivity]]]);
    try (left; reflexivity);
    right; eexists uri, repositoryPath, _; repeat split;
    reflexivity || eassumption.
Qed.

End LintAndFormat.

(** ** The properties at concrete inputs *)

Section FurtherExamples.

Import Js GitHub Vscode CalculateProgress AutoCommit MizarFunctions Extension.
Import Notions Scenario.

Lemma X6_file_path_inside_the_repository_witness :
  repoFilePathOf "r" "/o/r/src/a.miz" = "src/a.miz".
Proof.
  apply (X6_file_path_inside_the_repository "o" "r" "src/a.miz");
    try reflexivity; try discriminate.
  intros [| c [| c' pre]]; cbn; discriminate.
Defined.

Lemma X7_file_path_when_owner_ends_with_repo_witness :
  repoFilePathOf "mizar" "/mizar/mizar/a.miz" = "mizar/a.miz".
Proof.
  apply (X7_file_path_when_owner_ends_with_repo "" "mizar" "a.miz");
    try reflexivity; discriminate.
Defined.

Lemma X9_active_file_one_commit_witness :
  commitActiveFile (hosting synced) (workspace localFiles false)
    (documentAt "/o/r/a.miz") "hello" "token" "/o/r" (fresh None)
  = (inr tt,
     set_github
       [ListBranches "o" "r"; GetBranch "o" "r" "verifier";
        GetContent "o" "r" "a.miz" "verifier"] (fresh None)).
Proof.
  apply (proj1
           (X9_active_file_one_commit (hosting synced)
              (workspace localFiles false) "token" (documentAt "/o/r/a.miz")
              "hello" "/o/r" (fresh None) ["main"; "verifier"] "c0"
              (fun _ => eq_refl) ltac:(cbn; auto) (fun _ => eq_refl))
           (fileAnswer "aGVsbG8=" "sha-of-a.miz") (fun _ => eq_refl) eq_refl).
Defined.

Lemma X13_deletions_are_fired_and_forgotten_witness :
  commitDeletions (octokitOf deleteFails) "o" "r" ["gone.miz"] (fresh None)
  = commitDeletions (octokitOf deletable) "o" "r" ["gone.miz"] (fresh None).
Proof.
  apply X13_deletions_are_fired_and_forgotten.
  intros history c Hc. destruct c; try discriminate; reflexivity.
Defined.

Lemma X14_command_acts_only_past_every_check_witness :
  isExecuting (activated None) = false
  /\ exists uri repositoryPath,
       activeTextEditor bench = Some uri
       /\ extname (workspace localFiles false) (fsPath uri) = ".miz"
       /\ matchRepositoryPath (path uri) = Some repositoryPath
       /\ OAuthToken bench <> "".
Proof.
  apply (X14_command_acts_only_past_every_check (hosting synced)
           (workspace localFiles false) "verifier" bench (activated None)).
  do 7 right. vm_compute. discriminate.
Defined.


Lemma X16_listeners_record_each_path_once_witness :
  NoDup
    (changeSet
       (host (onDidDeleteFiles ["/o/r/a.miz"; "/o/r/b.miz"; "/o/r/b.miz"]
                (activated (Some ["/o/r/a.miz"]))))).
Proof.
  apply (proj1
           (X16_listeners_record_each_path_once
              ["/o/r/a.miz"; "/o/r/b.miz"; "/o/r/b.miz"]
              (activated (Some ["/o/r/a.miz"]))
              ltac:(constructor; [cbn; tauto | constructor]))).
Defined.

Lemma X17_every_stop_sends_one_more_cancellation_witness :
  exists r',
    run (hosting synced) (workspace localFiles false) [Stop; Stop] polling
    = Some r'
    /\ intervalId r' = Some 1%positive
    /\ isExecuting r' = false.
Proof.
  destruct (X17_every_stop_sends_one_more_cancellation (hosting synced)
              (workspace localFiles false) 2%nat 1%positive polling
              ltac:(vm_compute; reflexivity))
    as (r' & Hrun & Hid & Hbusy & _).
  exists r'. split; [exact Hrun |]. split; [exact Hid | exact Hbusy].
Defined.

Lemma X18_stop_in_the_queue_does_not_stop_the_job_witness :
  exists r' timer,
    run (hosting synced) (workspace localFiles false)
      [Stop; TimeoutElapsed 0] waiting = Some r'
    /\ server (host r') = server (host waiting)
    /\ intervalId r' = Some timer
    /\ armedFor timer 0 r'.
Proof.
  destruct (X18_stop_in_the_queue_does_not_stop_the_job (hosting synced)
              (workspace localFiles false) 0%nat 0%nat waiting
              ltac:(vm_compute; reflexivity) ltac:(vm_compute; reflexivity))
    as (r' & timer & Hrun & Hserver & _ & _ & Hid & Harmed).
  exists r', timer. auto.
Defined.

Lemma X19_orphaned_timer_is_never_cleared_witness :
  orphaned 2%positive 0 (stopCommand leaking).
Proof.
  apply (X19_orphaned_timer_is_never_cleared (hosting synced)
           (workspace localFiles false) None twoBackOffs [Stop] 2%positive
           0%nat leaking (stopCommand leaking)).
  - vm_compute. reflexivity.
  - split; [vm_compute; auto | vm_compute; discriminate].
  - reflexivity.
Defined.

Lemma X22_new_phases_are_drawn_in_order_witness :
  let result :=
    forEachPhase 40 3 0 ["Parser"; "MSM"; "Analyzer"] betweenPhases in
  trackedPhases (locals (snd result)) = ["Parser"; "MSM"; "Analyzer"]
  /\ numberOfProgress (locals (snd result)) = 20.
Proof.
  destruct (X22_new_phases_are_drawn_in_order 40 ["Parser"] ["MSM"] "Analyzer"
              betweenPhases eq_refl eq_refl
              ltac:(repeat constructor; vm_compute; discriminate)
              ltac:(lia))
    as (_ & Htracked & Hcount & _).
  split; [exact Htracked | exact Hcount].
Defined.

Lemma X23_last_snapshot_completes_the_bar_and_resolves_witness :
  let result := onSnapshot done analysing in
  outcome (locals (snd result)) = Resolved
  /\ intervalId (globals (snd result)) = None
  /\ isExecuting (globals (snd result)) = false.
Proof.
  destruct (X23_last_snapshot_completes_the_bar_and_resolves done analysing
              ltac:(vm_compute; discriminate) eq_refl eq_refl
              ltac:(split; vm_compute; discriminate)
              ltac:(vm_compute; discriminate) eq_refl eq_refl)
    as (_ & _ & _ & _ & Hout & Hid & Hbusy).
  split; [exact Hout |]. split; [exact Hid | exact Hbusy].
Defined.

Lemma X24_failed_poll_rejects_the_job_witness :
  exists r',
    step (hosting synced) (workspace localFiles false)
      (PollSettled 0 (inl (HttpError 502))) polling = Some r'
    /\ intervalId r' = None
    /\ nth_error (calls r') 0
       = Some (set_outcome (Rejected (HttpError 502)) (job "J1"))
    /\ isExecuting r' = false.
Proof.
  destruct (X24_failed_poll_rejects_the_job (hosting synced)
              (workspace localFiles false) 0%nat 0%nat (job "J1")
              (HttpError 502) polling
              ltac:(vm_compute; reflexivity) ltac:(vm_compute; reflexivity))
    as (r' & Hstep & _ & Hid & _ & _ & Hcall & Hbusy).
  exists r'. split; [exact Hstep |]. split; [exact Hid |].
  split; [exact Hcall | exact (Hbusy eq_refl)].
Defined.

Lemma X25_queued_job_pauses_the_polling_witness :
  exists r',
    step (hosting synced) (workspace localFiles false)
      (PollSettled 0 (inr queued)) polling = Some r'
    /\ intervalId r' = None
    /\ timeouts (loop r') = (timeouts (loop polling) ++ [0%nat])%list
    /\ isExecuting r' = isExecuting polling.
Proof.
  destruct (X25_queued_job_pauses_the_polling (hosting synced)
              (workspace localFiles false) 0%nat 0%nat (job "J1") queued
              polling
              ltac:(vm_compute; reflexivity) ltac:(vm_compute; reflexivity)
              ltac:(vm_compute; reflexivity) eq_refl eq_refl)
    as (r' & Hstep & _ & Hid & _ & Htimeouts & _ & Hbusy & _).
  exists r'. split; [exact Hstep |]. split; [exact Hid |].
  split; [exact Htimeouts | exact Hbusy].
Defined.

Lemma X26_failed_makeenv_rejects_the_job_witness :
  exists r',
    step (hosting synced) (workspace localFiles false)
      (PollSettled 0 (inr brokenEnvironment)) polling = Some r'
    /\ host r'
       = setDiagnostics (errorList brokenEnvironment)
           (documentAt "/o/r/a.miz") (host polling)
    /\ intervalId r' = None
    /\ isExecuting r' = false.
Proof.
  destruct (X26_failed_makeenv_rejects_the_job (hosting synced)
              (workspace localFiles false) 0%nat 0%nat (job "J1")
              brokenEnvironment polling
              ltac:(vm_compute; reflexivity) ltac:(vm_compute; reflexivity)
              ltac:(vm_compute; discriminate) eq_refl eq_refl eq_refl)
    as (r' & Hstep & Hhost & Hid & _ & _ & _ & Hbusy).
  exists r'. split; [exact Hstep |]. split; [exact Hhost |].
  split; [exact Hid | exact (Hbusy eq_refl)].
Defined.

End FurtherExamples.
